(** * DPR: diffusion policy with GRPO fine-tuning -- loss engines

    A shallow embedding of the loss computations of [DPR/model/DPR.py] and
    [GRPO/GRPO.py].  Tensors are nested lists; tensor entries are real
    numbers (the arithmetic of the source is read over [R], rounding is not
    modelled), except that a division whose denominator is computed from
    the data keeps the IEEE outcome of a zero denominator.  Python
    exceptions are a sum type, the random number generator is threaded as
    explicit state, and module parameters live in a store of cells so that
    aliasing between modules is visible. *)

From Stdlib Require Import Reals Lra Lia List String ZArith Bool.
From stdpp Require Import gmap strings.
Import ListNotations.

#[local] Open Scope R_scope.

(** ** Tensors *)

Module Tensor.

Abbreviation tensor1 := (list R).
Abbreviation tensor2 := (list (list R)).
Abbreviation tensor3 := (list (list (list R))).
Abbreviation tensor4 := (list (list (list (list R)))).
Abbreviation tensor5 := (list (list (list (list (list R))))).
Abbreviation mask2 := (list (list bool)).
Abbreviation mask3 := (list (list (list bool))).

(** [t.sum()] of a one-dimensional tensor. *)
Definition Rsum (l : list R) : R := fold_right Rplus 0 l.

(** [t.mean()] of a one-dimensional tensor. *)
Definition mean (l : list R) : R := Rsum l / INR (length l).

(** Element-wise binary operation on two tensors of the same length. *)
Definition map2 {A B C : Type} (f : A -> B -> C)
    (l1 : list A) (l2 : list B) : list C :=
  map (fun p => f (fst p) (snd p)) (combine l1 l2).

(** [t.sum()] and [t.mean()] over all entries. *)
Definition sum2 (t : tensor2) : R := Rsum (concat t).
Definition sum3 (t : tensor3) : R := Rsum (concat (concat t)).
Definition mean2 (t : tensor2) : R := mean (concat t).
Definition mean3 (t : tensor3) : R := mean (concat (concat t)).

(** [t.permute(1, 0).contiguous().view(B, G)] of a [[G, B]] tensor. *)
Definition permute_1_0 (B : nat) (t : tensor2) : tensor2 :=
  map (fun b => map (fun row => nth b row 0) t) (seq 0 B).

(** [torch.clamp(x, min=lo, max=hi)]. *)
Definition clamp (x lo hi : R) : R := Rmin (Rmax x lo) hi.

(** [torch.norm(v, dim=-1)]: the Euclidean norm of the last dimension. *)
Definition norm (v : tensor1) : R := sqrt (Rsum (map (fun x => x * x) v)).

(** [x * m] for a boolean mask entry [m]. *)
Definition mask_mul (x : R) (m : bool) : R := if m then x else 0.

(** [m.sum()] of a boolean mask: the number of [True] entries. *)
Definition count1 (m : list bool) : nat := length (List.filter (fun b : bool => b) m).
Definition count2 (m : mask2) : nat := count1 (concat m).
Definition count3 (m : mask3) : nat := count1 (concat (concat m)).

(** The first index of a smallest entry, as [torch.argmin] returns it. *)
Fixpoint argmin_from (l : tensor1) (i best_i : nat) (best : R) : nat :=
  match l with
  | [] => best_i
  | x :: l' =>
      if Rlt_dec x best then argmin_from l' (S i) i x
      else argmin_from l' (S i) best_i best
  end.

Definition argmin (l : tensor1) : nat :=
  match l with
  | [] => 0%nat
  | x :: l' => argmin_from l' 1 0 x
  end.

(** A scalar that a division produced: finite, or what IEEE arithmetic
    gives for a zero denominator. *)
Inductive tval : Type :=
| Fin (r : R)
| PInf
| NInf
| NaN.

(** [num / den] for a denominator computed from the data. *)
Definition tdiv (num den : R) : tval :=
  if Req_dec_T den 0 then
    if Rlt_dec 0 num then PInf
    else if Rlt_dec num 0 then NInf
    else NaN
  else Fin (num / den).

(** [a + b] on such scalars. *)
Definition tadd (a b : tval) : tval :=
  match a, b with
  | NaN, _ | _, NaN => NaN
  | PInf, NInf | NInf, PInf => NaN
  | PInf, _ | _, PInf => PInf
  | NInf, _ | _, NInf => NInf
  | Fin x, Fin y => Fin (x + y)
  end.

(** [c * a] for a Python float [c]. *)
Definition tscale (c : R) (a : tval) : tval :=
  match a with
  | Fin x => Fin (c * x)
  | NaN => NaN
  | PInf => if Rlt_dec 0 c then PInf else if Rlt_dec c 0 then NInf else NaN
  | NInf => if Rlt_dec 0 c then NInf else if Rlt_dec c 0 then PInf else NaN
  end.

(** [torch.nn.functional.smooth_l1_loss(x, y, reduction='none')] on one
    entry, with the default [beta = 1.0]. *)
Definition smooth_l1_loss (x y : R) : R :=
  let d := Rabs (x - y) in
  if Rlt_dec d 1 then 5 / 10 * d * d else d - 5 / 10.

(** [torch.nn.functional.mse_loss(x, y, reduction='none')] on one entry. *)
Definition mse_loss (x y : R) : R := (x - y) * (x - y).

(** [torch.atan2(y, x)] on real arguments. *)
Definition atan2 (y x : R) : R :=
  if Rlt_dec 0 x then atan (y / x)
  else if Rlt_dec x 0 then
    if Rle_dec 0 y then atan (y / x) + PI else atan (y / x) - PI
  else if Rlt_dec 0 y then PI / 2
  else if Rlt_dec y 0 then - (PI / 2)
  else 0.

(** [torch.nn.functional.cross_entropy(scores, label, reduction='none')]
    for one row of scores: the negative log-softmax at the label. *)
Definition cross_entropy (scores : tensor1) (label : nat) : R :=
  ln (Rsum (map exp scores)) - nth label scores 0.

End Tensor.

Import Tensor.

(** ** Losses shared by both models *)

Module Losses.

(** [agents_future_valid[..., 1:] * (agents_interested[..., None] > 0)]. *)
Definition future_mask (agents_future_valid : mask3)
    (agents_interested : list (list Z)) : mask3 :=
  map2 (map2 (fun valid interested =>
                map (fun v => v && (0 <? interested)%Z) (tl valid)))
       agents_future_valid agents_interested.

(** The heading error of one state: the difference of the headings,
    [torch.atan2(torch.sin(e), torch.cos(e))], then [torch.abs]. *)
Definition yaw_error (pred_yaw true_yaw : R) : R :=
  let e := pred_yaw - true_yaw in
  atan2 (sin e) (cos e).

Definition yaw_loss_elem (pred_yaw true_yaw : R) : R :=
  Rabs (yaw_error pred_yaw true_yaw).

(** [DPR.denoise_loss]. *)
Definition denoise_loss (denoised_trajs agents_future : tensor4)
    (agents_future_valid : mask3) (agents_interested : list (list Z))
    : tval * tval :=
  let agents_future := map (map (fun traj => map (firstn 3) (tl traj)))
                           agents_future in
  let future_mask := future_mask agents_future_valid agents_interested in
  let state_loss :=
    map2 (map2 (map2 (fun p g =>
      Rsum (map2 smooth_l1_loss (firstn 2 p) (firstn 2 g)))))
      denoised_trajs agents_future in
  let yaw_loss :=
    map2 (map2 (map2 (fun p g => yaw_loss_elem (nth 2 p 0) (nth 2 g 0))))
      denoised_trajs agents_future in
  let state_loss := map2 (map2 (map2 mask_mul)) state_loss future_mask in
  let yaw_loss := map2 (map2 (map2 mask_mul)) yaw_loss future_mask in
  let state_loss_mean := tdiv (sum3 state_loss) (INR (count3 future_mask)) in
  let yaw_loss_mean := tdiv (sum3 yaw_loss) (INR (count3 future_mask)) in
  (state_loss_mean, yaw_loss_mean).

(** [actions_valid * (agents_interested[..., None] > 0)]. *)
Definition action_mask (actions_valid : mask3)
    (agents_interested : list (list Z)) : mask3 :=
  map2 (map2 (fun valid interested =>
                map (fun v => v && (0 <? interested)%Z) valid))
       actions_valid agents_interested.

(** [DPR.action_loss]. *)
Definition action_loss (actions actions_gt : tensor4)
    (actions_valid : mask3) (agents_interested : list (list Z)) : tval :=
  let action_mask := action_mask actions_valid agents_interested in
  let action_loss :=
    map2 (map2 (map2 (fun p g => Rsum (map2 smooth_l1_loss p g))))
      actions actions_gt in
  let action_loss := map2 (map2 (map2 mask_mul)) action_loss action_mask in
  tdiv (sum3 action_loss) (INR (count3 action_mask)).

End Losses.

(** ** The goal predictor's loss *)

Module Goal.

(** [idx_anchor]: per agent, the anchor nearest to the last ground-truth
    position.  [anchors_global : [B*A][Q][2]], [goal_gt : [B*A][2]]. *)
Definition idx_anchor (anchors_global : tensor3) (goal_gt : tensor2)
    : list nat :=
  map2 (fun anchors goal =>
          argmin (map (fun a => norm (map2 Rminus a goal)) anchors))
       anchors_global goal_gt.

(** [dist]: per agent and anchor, the masked displacement of the rolled
    out trajectory at every step.  [trajs : [B*A][Q][T][3]]. *)
Definition masked_dist (trajs : tensor4) (trajs_gt : tensor3)
    (traj_mask : mask2) : tensor3 :=
  let dist :=
    map2 (fun trajs_i gt_i =>
            map (fun traj_q =>
                   map2 (fun p g => norm (map2 Rminus (firstn 2 p) (firstn 2 g)))
                        traj_q gt_i)
                trajs_i)
         trajs trajs_gt in
  map2 (fun dist_i mask_i => map (fun d_q => map2 mask_mul d_q mask_i) dist_i)
       dist traj_mask.

(** [torch.argmin(dist.mean(-1), dim=-1)]. *)
Definition idx_ade (dist : tensor3) : list nat :=
  map (fun dist_i => argmin (map mean dist_i)) dist.

(** [torch.where(valid_last, idx_anchor, idx)]. *)
Definition where_idx (valid_last : list bool) (idx_anchor idx : list nat)
    : list nat :=
  map2 (fun (v : bool) (p : nat * nat) => if v then fst p else snd p)
       valid_last (combine idx_anchor idx).

(** [trajs[torch.arange(num_batch * num_agents), idx]]. *)
Definition trajs_select (trajs : tensor4) (idx : list nat) : tensor3 :=
  map2 (fun trajs_i i => nth i trajs_i []) trajs idx.

(** The tensors [goal_loss] derives from its arguments before any loss is
    computed. *)
Record prepared := {
  p_traj_mask : mask3;
  p_goal_gt : tensor2;
  p_trajs_gt : tensor3;
  p_trajs : tensor4;
  p_anchors_global : tensor3;
  p_valid_last : list bool
}.

Definition prepare
    (batch_transform_trajs_to_global_frame : tensor4 -> tensor3 -> tensor4)
    (trajs : tensor5) (agents_future : tensor4) (agents_future_valid : mask3)
    (anchors : tensor4) (agents_interested : list (list Z)) : prepared :=
  let current_states :=
    map (map (fun traj => firstn 3 (nth 0 traj []))) agents_future in
  let anchors_global :=
    batch_transform_trajs_to_global_frame anchors current_states in
  {| p_traj_mask := Losses.future_mask agents_future_valid agents_interested;
     p_goal_gt :=
       concat (map (map (fun traj => firstn 2 (List.last traj []))) agents_future);
     p_trajs_gt :=
       concat (map (map (fun traj => map (firstn 3) (tl traj))) agents_future);
     p_trajs := map (map (map (firstn 3))) (concat trajs);
     p_anchors_global := concat anchors_global;
     p_valid_last :=
       concat (map (map (fun valid => List.last valid false)) agents_future_valid) |}.

(** The selected anchor of every agent. *)
Definition select_idx (p : prepared) : list nat :=
  let idx_anchor := idx_anchor (p_anchors_global p) (p_goal_gt p) in
  let dist := masked_dist (p_trajs p) (p_trajs_gt p) (concat (p_traj_mask p)) in
  let idx := idx_ade dist in
  where_idx (p_valid_last p) idx_anchor idx.

(** [traj_loss : [B*A][T]], the masked smooth loss of the selected
    trajectories. *)
Definition traj_loss (p : prepared) (idx : list nat) : tensor2 :=
  let trajs_select := trajs_select (p_trajs p) idx in
  let traj_loss :=
    map2 (map2 (fun s g => Rsum (map2 smooth_l1_loss s g)))
         trajs_select (p_trajs_gt p) in
  map2 (map2 mask_mul) traj_loss (concat (p_traj_mask p)).

(** [score_loss : [B*A]], the masked cross entropy against [idx]. *)
Definition score_loss (scores : tensor3) (idx : list nat)
    (agents_interested : list (list Z)) : tensor1 :=
  let scores := concat scores in
  let score_loss := map2 cross_entropy scores idx in
  map2 mask_mul score_loss
       (map (fun i => (0 <? i)%Z) (concat agents_interested)).

(** [DPR.goal_loss] and [DPR_GRPO.goal_loss] (the same text in both). *)
Definition goal_loss
    (batch_transform_trajs_to_global_frame : tensor4 -> tensor3 -> tensor4)
    (trajs : tensor5) (scores : tensor3) (agents_future : tensor4)
    (agents_future_valid : mask3) (anchors : tensor4)
    (agents_interested : list (list Z)) : tval * tval :=
  let p := prepare batch_transform_trajs_to_global_frame trajs agents_future
             agents_future_valid anchors agents_interested in
  let idx := select_idx p in
  let traj_loss := traj_loss p idx in
  let score_loss := score_loss scores idx agents_interested in
  let traj_loss_mean :=
    tdiv (sum2 traj_loss) (INR (count3 (p_traj_mask p))) in
  let score_loss_mean :=
    tdiv (Rsum score_loss)
         (INR (count1 (map (fun i => (0 <? i)%Z) (concat agents_interested)))) in
  (traj_loss_mean, score_loss_mean).

End Goal.

(** ** Python values, exceptions and the random number generator *)

Module Py.

Inductive exn : Type :=
| ValueError (msg : string)
| AttributeError (msg : string)
| AssertionError (msg : string)
| RuntimeError (msg : string).

Inductive result (A : Type) : Type :=
| Ok (a : A)
| Err (e : exn).

Arguments Ok {A} a.
Arguments Err {A} e.

(** [total_loss] starts as the Python integer 0 and becomes a tensor once
    a tensor is added to it. *)
Inductive pyval : Type :=
| PyInt (z : Z)
| PyTensor (t : tval).

(** [total_loss += t] for a tensor [t]. *)
Definition py_iadd (v : pyval) (t : tval) : pyval :=
  match v with
  | PyInt z => PyTensor (tadd (Fin (IZR z)) t)
  | PyTensor s => PyTensor (tadd s t)
  end.

(** [v.item()]: a tensor has the method, a Python integer has not. *)
Definition item (v : pyval) : result tval :=
  match v with
  | PyTensor t => Ok t
  | PyInt _ => Err (AttributeError "'int' object has no attribute 'item'")
  end.

(** The state of the default random number generator: the stream of
    values it will produce and the position reached. *)
Record generator := {
  gen_ints : nat -> nat;
  gen_normals : nat -> R;
  gen_pos : nat
}.

Definition advance (n : nat) (g : generator) : generator :=
  {| gen_ints := gen_ints g; gen_normals := gen_normals g;
     gen_pos := (gen_pos g + n)%nat |}.

(** Computations that draw random numbers and may raise. *)
Definition M (A : Type) : Type := generator -> result (A * generator).

Definition ret {A : Type} (a : A) : M A := fun g => Ok (a, g).

Definition bind {A B : Type} (c : M A) (k : A -> M B) : M B :=
  fun g =>
    match c g with
    | Ok (a, g') => k a g'
    | Err e => Err e
    end.

Definition lift {A : Type} (r : result A) : M A :=
  fun g =>
    match r with
    | Ok a => Ok (a, g)
    | Err e => Err e
    end.

Definition raise {A : Type} (e : exn) : M A := fun _ => Err e.

(** [torch.randint(low, high, (n,))]. *)
Definition randint (low high n : nat) : M (list nat) :=
  fun g =>
    if (low <? high)%nat then
      Ok (map (fun i => (low + gen_ints g (gen_pos g + i) mod (high - low))%nat)
              (seq 0 n),
          advance n g)
    else Err (RuntimeError "random_ expects 'from' to be less than 'to'").

(** The [[B, A, T, D]] tensor filled in row-major order with the normal
    draws from position [pos] of the stream on. *)
Definition normal_block (g : generator) (pos B A T D : nat) : tensor4 :=
  map (fun b => map (fun a => map (fun t => map (fun d =>
    gen_normals g (pos + ((b * A + a) * T + t) * D + d)%nat)
    (seq 0 D)) (seq 0 T)) (seq 0 A)) (seq 0 B).

(** [torch.randn(B, A, T, D)]. *)
Definition randn (B A T D : nat) : M tensor4 :=
  fun g => Ok (normal_block g (gen_pos g) B A T D, advance (B * A * T * D) g).

(** [for _ in range(n): body], collecting what each round appends. *)
Fixpoint for_range {A : Type} (n : nat) (body : M A) : M (list A) :=
  match n with
  | O => ret []
  | S n' => bind body (fun a => bind (for_range n' body) (fun l => ret (a :: l)))
  end.

(** [for x in xs: body x], collecting what each round appends. *)
Fixpoint for_each {A B : Type} (xs : list A) (body : A -> result B)
    : result (list B) :=
  match xs with
  | [] => Ok []
  | x :: xs' =>
      match body x with
      | Err e => Err e
      | Ok b =>
          match for_each xs' body with
          | Err e => Err e
          | Ok bs => Ok (b :: bs)
          end
      end
  end.

End Py.

Import Py.

Notation "x <- c ;; k" := (bind c (fun x => k))
  (at level 100, c at next level, right associativity).

(** ** Configuration, batch and collaborators *)

Module Model.

(** The [cfg] dictionary; a key read with [cfg.get(key, default)] may be
    absent. *)
Record cfg := {
  future_len : nat;
  agents_len : nat;
  action_len : nat;
  diffusion_steps : nat;
  action_mean : tensor1;
  action_std : tensor1;
  train_encoder : option bool;
  train_denoiser : option bool;
  train_predictor : option bool;
  with_predictor : option bool;
  prediction_type : option string;
  replay_buffer : option bool;
  group_size : option nat;
  beta : option R
}.

(** The attributes [__init__] stores on the module. *)
Record model := {
  _agents_len : nat;
  _action_len : nat;
  _action_mean : tensor1;
  _action_std : tensor1;
  _train_encoder : bool;
  _train_denoiser : bool;
  _train_predictor : bool;
  _with_predictor : bool;
  _prediction_type : string;
  _replay_buffer : bool;
  _group_size : nat;
  _beta : R
}.

(** [cfg.get(key, default)]. *)
Definition get {A : Type} (o : option A) (default : A) : A :=
  match o with
  | Some a => a
  | None => default
  end.

(** The part of [__init__] that reads the flags.  The two classes differ
    in the default of [with_predictor]: [True] in [DPR], [False] in
    [DPR_GRPO]. *)
Definition __init__ (with_predictor_default : bool) (c : cfg) : model :=
  let with_pred := get (with_predictor c) with_predictor_default in
  {| _agents_len := agents_len c;
     _action_len := action_len c;
     _action_mean := action_mean c;
     _action_std := action_std c;
     _train_encoder := get (train_encoder c) true;
     _train_denoiser := get (train_denoiser c) true;
     _train_predictor :=
       if with_pred then get (train_predictor c) true else false;
     _with_predictor := with_pred;
     _prediction_type := get (prediction_type c) "sample"%string;
     _replay_buffer := get (replay_buffer c) false;
     _group_size := get (group_size c) 6%nat;
     _beta := get (beta c) (1 / 10) |}.

(** The entries of a batch that the loss engines read. *)
Record batch := {
  agents_future : tensor4;
  agents_interested : list (list Z);
  anchors : tensor4
}.

(** Diffusion steps, one per batch element and agent. *)
Abbreviation steps := (list (list nat)).

(** What the loss engines call and this development leaves open: the
    scene encoder, the networks, the noise scheduler ([utils.DDPM_Sampler])
    and the kinematics ([model_utils]), which the two files import; and
    the reward and the logging metrics, methods of the classes on whose
    values no property below depends.  Each may raise.  [E] is the type of
    the encoder's output dictionary. *)
Record collaborators (E : Type) := {
  encoder : batch -> result E;
  agents_of : E -> tensor4;
  denoiser : E -> tensor4 -> steps -> tensor4 -> result tensor4;
  reference_model : E -> tensor4 -> steps -> tensor4 -> result tensor4;
  predictor : E -> result (tensor5 * tensor3);
  num_steps : nat;
  add_noise : tensor4 -> tensor4 -> steps -> tensor4;
  q_x0 : tensor4 -> steps -> tensor4 -> string -> result tensor4;
  get_noise : tensor4 -> tensor4 -> steps -> tensor4 -> result tval;
  scheduler_step : tensor4 -> steps -> tensor4 -> string -> result tensor4;
  inverse_kinematics : tensor4 -> mask3 -> nat -> result (tensor4 * mask3);
  roll_out : tensor3 -> tensor4 -> nat -> result tensor4;
  roll_out_goal : tensor3 -> tensor5 -> nat -> result tensor5;
  batch_transform_trajs_to_global_frame : tensor4 -> tensor3 -> tensor4;
  compute_grpo_trajectory_reward : tensor5 -> tensor5 -> result tensor2;
  calculate_metrics_denoise :
    tensor4 -> tensor4 -> mask3 -> list (list Z) -> result (tval * tval);
  calculate_metrics_denoise_group :
    tensor5 -> tensor4 -> mask3 -> list (list Z) -> result (tval * tval);
  calculate_metrics_predict :
    tensor5 -> tensor4 -> mask3 -> list (list Z) -> result (tval * tval)
}.

Arguments encoder {E}.
Arguments agents_of {E}.
Arguments denoiser {E}.
Arguments reference_model {E}.
Arguments predictor {E}.
Arguments num_steps {E}.
Arguments add_noise {E}.
Arguments q_x0 {E}.
Arguments get_noise {E}.
Arguments scheduler_step {E}.
Arguments inverse_kinematics {E}.
Arguments roll_out {E}.
Arguments roll_out_goal {E}.
Arguments batch_transform_trajs_to_global_frame {E}.
Arguments compute_grpo_trajectory_reward {E}.
Arguments calculate_metrics_denoise {E}.
Arguments calculate_metrics_denoise_group {E}.
Arguments calculate_metrics_predict {E}.

(** [(actions - self.action_mean) / self.action_std], the statistics
    broadcast along the last dimension. *)
Definition normalize_actions (self : model) (actions : tensor4) : tensor4 :=
  map (map (map (fun a =>
    map2 (fun x (ms : R * R) => (x - fst ms) / snd ms) a
         (combine (_action_mean self) (_action_std self))))) actions.

(** [actions * self.action_std + self.action_mean]. *)
Definition unnormalize_actions (self : model) (actions : tensor4) : tensor4 :=
  map (map (map (fun a =>
    map2 (fun x (ms : R * R) => x * snd ms + fst ms) a
         (combine (_action_mean self) (_action_std self))))) actions.

(** [l[1::2]]. *)
Fixpoint every_other {A : Type} (l : list A) : list A :=
  match l with
  | x :: _ :: l' => x :: every_other l'
  | _ => l
  end.

Definition slice_1_2 {A : Type} (l : list A) : list A := every_other (tl l).

(** [torch.ne(agents_future.sum(-1), 0)]. *)
Definition future_valid (agents_future : tensor4) : mask3 :=
  map (map (map (fun s => if Req_dec_T (Rsum s) 0 then false else true)))
      agents_future.

(** [encoder_outputs['agents'][:, :self._agents_len, -1]], after the
    assertion that there are enough agents. *)
Definition current_states {E : Type} (env : collaborators E) (self : model)
    (encoder_outputs : E) : result tensor3 :=
  let agents := agents_of env encoder_outputs in
  if (_agents_len self <=? length (nth 0 agents []))%nat then
    Ok (map (fun sample =>
               map (fun hist => List.last hist [])
                   (firstn (_agents_len self) sample)) agents)
  else Err (AssertionError "too many agents to consider").

(** [forward_predictor], the same text in both classes. *)
Definition forward_predictor {E : Type} (env : collaborators E) (self : model)
    (encoder_outputs : E) : result (tensor5 * tensor3) :=
  match predictor env encoder_outputs with
  | Err e => Err e
  | Ok (goal_actions_normalized, goal_scores) =>
      match current_states env self encoder_outputs with
      | Err e => Err e
      | Ok states =>
          let goal_actions :=
            map (unnormalize_actions self) goal_actions_normalized in
          match roll_out_goal env states goal_actions (_action_len self) with
          | Err e => Err e
          | Ok goal_trajs => Ok (goal_trajs, goal_scores)
          end
      end
  end.

(** The ground truth every call of [forward_and_get_loss] prepares. *)
Record ground_truth := {
  gt_agents_future : tensor4;
  gt_agents_future_valid : mask3;
  gt_agents_interested : list (list Z);
  gt_anchors : tensor4;
  gt_agents_future_41 : tensor4;
  gt_actions_normalized : tensor4;
  gt_actions_valid : mask3
}.

Definition prepare_ground_truth {E : Type} (env : collaborators E)
    (self : model) (b : batch) : result ground_truth :=
  let agents_future := map (firstn (_agents_len self)) (agents_future b) in
  let agents_future_valid := future_valid agents_future in
  let agents_interested :=
    map (firstn (_agents_len self)) (agents_interested b) in
  let anchors := map (firstn (_agents_len self)) (anchors b) in
  match inverse_kinematics env agents_future agents_future_valid
          (_action_len self) with
  | Err e => Err e
  | Ok (gt_actions, gt_actions_valid) =>
      let agents_future_41 :=
        map (map (fun traj => firstn 1 traj ++ slice_1_2 traj)) agents_future in
      Ok {| gt_agents_future := agents_future;
            gt_agents_future_valid := agents_future_valid;
            gt_agents_interested := agents_interested;
            gt_anchors := anchors;
            gt_agents_future_41 := agents_future_41;
            gt_actions_normalized := normalize_actions self gt_actions;
            gt_actions_valid := gt_actions_valid |}
  end.

(** [torch.randint(0, num_steps, (B,)).long().unsqueeze(-1).repeat(1, A)
    .view(B, A, 1, 1)]: one draw per batch element, repeated for every
    agent. *)
Definition draw_diffusion_steps (num_steps B A : nat) : M steps :=
  draws <- randint 0 num_steps B ;;
  ret (map (fun d => repeat d A) draws).

(** The predictor branch of [forward_and_get_loss], the same text in both
    classes: adds the predictor's loss to [total_loss] and its entries to
    [log_dict]. *)
Definition predictor_branch {E : Type} (env : collaborators E) (self : model)
    (gt : ground_truth) (encoder_outputs : E) (prefix : string)
    (total_loss : pyval) (log_dict : gmap string tval)
    : result (pyval * gmap string tval) :=
  match forward_predictor env self encoder_outputs with
  | Err e => Err e
  | Ok (goal_trajs, goal_scores) =>
      let '(goal_loss_mean, score_loss_mean) :=
        Goal.goal_loss (batch_transform_trajs_to_global_frame env)
          goal_trajs goal_scores (gt_agents_future gt)
          (gt_agents_future_valid gt) (gt_anchors gt)
          (gt_agents_interested gt) in
      let pred_loss := tadd goal_loss_mean (tscale (5 / 100) score_loss_mean) in
      let total_loss := py_iadd total_loss (tscale 1 pred_loss) in
      match calculate_metrics_predict env goal_trajs (gt_agents_future gt)
              (gt_agents_future_valid gt) (gt_agents_interested gt) with
      | Err e => Err e
      | Ok (pred_ade, pred_fde) =>
          Ok (total_loss,
              <[(prefix +:+ "pred_FDE")%string := pred_fde]>
              (<[(prefix +:+ "pred_ADE")%string := pred_ade]>
              (<[(prefix +:+ "score_loss")%string := score_loss_mean]>
              (<[(prefix +:+ "goal_loss")%string := goal_loss_mean]>
                 log_dict))))
      end
  end.

(** The end of [forward_and_get_loss]: [log_dict[prefix + 'loss'] =
    total_loss.item()], then the return. *)
Definition finish (prefix : string) (total_loss : pyval)
    (log_dict : gmap string tval) : result (pyval * gmap string tval) :=
  match item total_loss with
  | Err e => Err e
  | Ok l => Ok (total_loss, <[(prefix +:+ "loss")%string := l]> log_dict)
  end.

End Model.

Import Model.

(** ** [DPR/model/DPR.py]: the supervised loss engine *)

Module DPR.

(** The dictionary [forward_denoiser] returns. *)
Record denoiser_outputs := {
  denoiser_output : tensor4;
  denoised_actions_normalized : tensor4;
  denoised_actions : tensor4;
  denoised_trajs : tensor4
}.

(** [DPR.forward_denoiser]. *)
Definition forward_denoiser {E : Type} (env : collaborators E) (self : model)
    (encoder_outputs : E) (noised_actions_normalized : tensor4)
    (diffusion_step : steps) (agents_future : tensor4)
    : result denoiser_outputs :=
  let noised_actions := unnormalize_actions self noised_actions_normalized in
  match denoiser env encoder_outputs noised_actions diffusion_step
          agents_future with
  | Err e => Err e
  | Ok denoiser_output =>
      match q_x0 env denoiser_output diffusion_step noised_actions_normalized
              (_prediction_type self) with
      | Err e => Err e
      | Ok denoised_actions_normalized =>
          match current_states env self encoder_outputs with
          | Err e => Err e
          | Ok states =>
              let denoised_actions :=
                unnormalize_actions self denoised_actions_normalized in
              match roll_out env states denoised_actions (_action_len self) with
              | Err e => Err e
              | Ok denoised_trajs =>
                  Ok {| denoiser_output := denoiser_output;
                        denoised_actions_normalized :=
                          denoised_actions_normalized;
                        denoised_actions := denoised_actions;
                        denoised_trajs := denoised_trajs |}
              end
          end
      end
  end.

(** [torch.nn.functional.mse_loss(x, y, reduction='mean')]. *)
Definition mse_loss_mean (x y : tensor4) : tval :=
  let sq := concat (concat (concat (map2 (map2 (map2 (map2 mse_loss))) x y))) in
  tdiv (Rsum sq) (INR (length sq)).

(** The branch of [forward_and_get_loss] on [self._prediction_type]: the
    loss added to [total_loss] and the entries logged. *)
Definition prediction_type_branch {E : Type} (env : collaborators E)
    (self : model) (gt : ground_truth) (out : denoiser_outputs)
    (noised_action_normalized noise : tensor4) (diffusion_steps : steps)
    (prefix : string) (total_loss : pyval) (log_dict : gmap string tval)
    : result (pyval * gmap string tval) :=
  if String.eqb (_prediction_type self) "sample" then
    let '(state_loss_mean, yaw_loss_mean) :=
      Losses.denoise_loss (denoised_trajs out) (gt_agents_future gt)
        (gt_agents_future_valid gt) (gt_agents_interested gt) in
    let denoise_loss := tadd state_loss_mean yaw_loss_mean in
    let total_loss := py_iadd total_loss denoise_loss in
    match get_noise env (denoised_actions_normalized out)
            noised_action_normalized diffusion_steps noise with
    | Err e => Err e
    | Ok diffusion_loss =>
        Ok (total_loss,
            <[(prefix +:+ "diffusion_loss")%string := diffusion_loss]>
            (<[(prefix +:+ "yaw_loss")%string := yaw_loss_mean]>
            (<[(prefix +:+ "state_loss")%string := state_loss_mean]>
               log_dict)))
    end
  else if String.eqb (_prediction_type self) "error" then
    let denoise_loss := mse_loss_mean (denoiser_output out) noise in
    let total_loss := py_iadd total_loss denoise_loss in
    Ok (total_loss,
        <[(prefix +:+ "diffusion_loss")%string := denoise_loss]> log_dict)
  else if String.eqb (_prediction_type self) "mean" then
    let denoise_loss :=
      Losses.action_loss (denoised_actions_normalized out)
        (gt_actions_normalized gt) (gt_actions_valid gt)
        (gt_agents_interested gt) in
    let total_loss := py_iadd total_loss denoise_loss in
    Ok (total_loss,
        <[(prefix +:+ "action_loss")%string := denoise_loss]> log_dict)
  else Err (ValueError "Invalid prediction type").

(** The denoiser branch of [DPR.forward_and_get_loss]. *)
Definition denoiser_branch {E : Type} (env : collaborators E) (self : model)
    (gt : ground_truth) (encoder_outputs : E) (prefix : string)
    (total_loss : pyval) (log_dict : gmap string tval)
    : M (pyval * gmap string tval) :=
  let gt_n := gt_actions_normalized gt in
  let B := length gt_n in
  let A := length (nth 0 gt_n []) in
  let T := length (nth 0 (nth 0 gt_n []) []) in
  let D := length (nth 0 (nth 0 (nth 0 gt_n []) []) []) in
  diffusion_steps <- draw_diffusion_steps (num_steps env) B A ;;
  noise <- randn B A T D ;;
  let noised_action_normalized := add_noise env gt_n noise diffusion_steps in
  noised_action_normalized <-
    (if _replay_buffer self then
       denoise_outputs <-
         lift (forward_denoiser env self encoder_outputs gt_n diffusion_steps
                 (gt_agents_future_41 gt)) ;;
       let x_0 := denoised_actions_normalized denoise_outputs in
       lift (scheduler_step env x_0 diffusion_steps noised_action_normalized
               (_prediction_type self))
     else ret noised_action_normalized) ;;
  denoise_outputs <-
    lift (forward_denoiser env self encoder_outputs noised_action_normalized
            diffusion_steps (gt_agents_future_41 gt)) ;;
  r <- lift (prediction_type_branch env self gt denoise_outputs
               noised_action_normalized noise diffusion_steps prefix
               total_loss log_dict) ;;
  let '(total_loss, log_dict) := r in
  m <- lift (calculate_metrics_denoise env (denoised_trajs denoise_outputs)
               (gt_agents_future gt) (gt_agents_future_valid gt)
               (gt_agents_interested gt)) ;;
  let '(denoise_ade, denoise_fde) := m in
  ret (total_loss,
       <[(prefix +:+ "denoise_FDE")%string := denoise_fde]>
       (<[(prefix +:+ "denoise_ADE")%string := denoise_ade]> log_dict)).

(** [DPR.forward_and_get_loss] with [debug=False]: the total loss and the
    log dictionary, or the exception raised. *)
Definition forward_and_get_loss {E : Type} (env : collaborators E)
    (self : model) (b : batch) (prefix : string)
    : M (pyval * gmap string tval) :=
  gt <- lift (prepare_ground_truth env self b) ;;
  let log_dict : gmap string tval := ∅ in
  let total_loss := PyInt 0 in
  encoder_outputs <- lift (encoder env b) ;;
  r <- (if _train_denoiser self then
          denoiser_branch env self gt encoder_outputs prefix total_loss log_dict
        else ret (total_loss, log_dict)) ;;
  let '(total_loss, log_dict) := r in
  r <- (if _train_predictor self then
          lift (predictor_branch env self gt encoder_outputs prefix
                  total_loss log_dict)
        else ret (total_loss, log_dict)) ;;
  let '(total_loss, log_dict) := r in
  lift (finish prefix total_loss log_dict).

End DPR.

(** ** [GRPO/GRPO.py]: the GRPO loss engine *)

Module DPR_GRPO.

(** The dictionary [forward_denoiser] returns: the outputs of the
    trainable denoiser and, with suffix [_old], of the reference model. *)
Record denoiser_outputs := {
  denoiser_output : tensor4;
  denoised_actions_normalized : tensor4;
  denoised_actions : tensor4;
  denoised_trajs : tensor4;
  denoiser_output_old : tensor4;
  denoised_actions_normalized_old : tensor4;
  denoised_actions_old : tensor4;
  denoised_trajs_old : tensor4
}.

(** [DPR_GRPO.forward_denoiser]. *)
Definition forward_denoiser {E : Type} (env : collaborators E) (self : model)
    (encoder_outputs : E) (noised_actions_normalized : tensor4)
    (diffusion_step : steps) (agents_future : tensor4)
    : result denoiser_outputs :=
  let noised_actions := unnormalize_actions self noised_actions_normalized in
  match denoiser env encoder_outputs noised_actions diffusion_step
          agents_future with
  | Err e => Err e
  | Ok out =>
  match reference_model env encoder_outputs noised_actions diffusion_step
          agents_future with
  | Err e => Err e
  | Ok out_old =>
  match q_x0 env out diffusion_step noised_actions_normalized
          (_prediction_type self) with
  | Err e => Err e
  | Ok normalized =>
  match q_x0 env out_old diffusion_step noised_actions_normalized
          (_prediction_type self) with
  | Err e => Err e
  | Ok normalized_old =>
  match current_states env self encoder_outputs with
  | Err e => Err e
  | Ok states =>
  let actions := unnormalize_actions self normalized in
  let actions_old := unnormalize_actions self normalized_old in
  match roll_out env states actions (_action_len self) with
  | Err e => Err e
  | Ok trajs =>
  match roll_out env states actions_old (_action_len self) with
  | Err e => Err e
  | Ok trajs_old =>
      Ok {| denoiser_output := out;
            denoised_actions_normalized := normalized;
            denoised_actions := actions;
            denoised_trajs := trajs;
            denoiser_output_old := out_old;
            denoised_actions_normalized_old := normalized_old;
            denoised_actions_old := actions_old;
            denoised_trajs_old := trajs_old |}
  end end end end end end end.

(** One round of the loop over [g]: the squared error of a candidate's
    actions against the normalized ground truth, multiplied by
    [gt_actions_valid.unsqueeze(-1)], then [.mean(dim=(1, 2, 3))]. *)
Definition action_diff (actions_g gt_actions_normalized : tensor4)
    (gt_actions_valid : mask3) : tensor1 :=
  let action_diff :=
    map2 (map2 (map2 (map2 mse_loss))) actions_g gt_actions_normalized in
  let action_diff :=
    map2 (map2 (map2 (fun row (v : bool) => map (fun x => mask_mul x v) row)))
         action_diff gt_actions_valid in
  map mean3 action_diff.

(** [torch.stack] of the rounds: a [[G, B]] tensor. *)
Definition action_differences (actions : tensor5)
    (gt_actions_normalized : tensor4) (gt_actions_valid : mask3) : tensor2 :=
  map (fun actions_g =>
         action_diff actions_g gt_actions_normalized gt_actions_valid)
      actions.

(** [ratios = torch.exp(ref_diff - action_differences)]. *)
Definition ratios (ref_diff action_differences : tensor2) : tensor2 :=
  map2 (map2 (fun r c => exp (r - c))) ref_diff action_differences.

(** [group_mean = rewards.mean(dim=1, keepdim=True)] on [[B, G]]. *)
Definition group_mean (rewards : tensor2) : tensor1 := map mean rewards.

(** [advantages = rewards - group_mean], the [[B, 1]] mean broadcast along
    the group dimension. *)
Definition advantages (rewards : tensor2) : tensor2 :=
  map2 (fun row m => map (fun r => r - m) row) rewards (group_mean rewards).

(** [log_ratios = torch.log(torch.clamp(ratios, min=1e-8, max=10))]. *)
Definition log_ratios (ratios : tensor2) : tensor2 :=
  map (map (fun r => ln (clamp r (1 / 100000000) 10))) ratios.

(** [policy_loss = -(advantages * log_ratios).mean()]. *)
Definition policy_loss (advantages log_ratios : tensor2) : R :=
  - mean2 (map2 (map2 Rmult) advantages log_ratios).

(** [kl_div = (ratios - 1 - log_ratios).mean()]. *)
Definition kl_div (ratios log_ratios : tensor2) : R :=
  mean2 (map2 (map2 (fun r l => r - 1 - l)) ratios log_ratios).

(** The three values logged by the GRPO objective. *)
Record grpo_losses := {
  total_loss : R;
  policy_loss_v : R;
  kl_penalty : R
}.

(** The GRPO objective, from the [[G, B]] rewards and ratios. *)
Definition grpo_loss (B : nat) (beta : R) (rewards_gb ratios_gb : tensor2)
    : grpo_losses :=
  let rewards := permute_1_0 B rewards_gb in
  let ratios := permute_1_0 B ratios_gb in
  let advantages := advantages rewards in
  let log_ratios := log_ratios ratios in
  let policy_loss := policy_loss advantages log_ratios in
  let kl_div := kl_div ratios log_ratios in
  let kl_penalty := beta * kl_div in
  {| total_loss := policy_loss + kl_penalty;
     policy_loss_v := policy_loss;
     kl_penalty := kl_penalty |}.

(** The arguments of one call of [forward_denoiser]. *)
Record denoiser_call (E : Type) := {
  call_encoder_outputs : E;
  call_noised : tensor4;
  call_steps : steps;
  call_agents_future : tensor4
}.

Arguments call_encoder_outputs {E}.
Arguments call_noised {E}.
Arguments call_steps {E}.
Arguments call_agents_future {E}.

(** The inputs expanded along the group dimension and indexed by [g]. *)
Definition group_inputs {E : Type} (G : nat) (encoder_outputs : E)
    (noised_action_normalized : list tensor4) (diffusion_steps : steps)
    (agents_future_41 : tensor4) : list (denoiser_call E) :=
  let diffusion_steps_g := repeat diffusion_steps G in
  let agents_future_41_g := repeat agents_future_41 G in
  let encoder_outputs_g := repeat encoder_outputs G in
  map (fun g =>
         {| call_encoder_outputs := nth g encoder_outputs_g encoder_outputs;
            call_noised := nth g noised_action_normalized [];
            call_steps := nth g diffusion_steps_g [];
            call_agents_future := nth g agents_future_41_g [] |})
      (seq 0 G).

(** The sampling at the start of the denoiser branch: one draw of the
    diffusion steps, [G] draws of noise, and the calls they lead to. *)
Definition sample_group {E : Type} (env : collaborators E) (self : model)
    (gt : ground_truth) (encoder_outputs : E) : M (list (denoiser_call E)) :=
  let gt_n := gt_actions_normalized gt in
  let B := length gt_n in
  let A := length (nth 0 gt_n []) in
  let T := length (nth 0 (nth 0 gt_n []) []) in
  let D := length (nth 0 (nth 0 (nth 0 gt_n []) []) []) in
  let G := _group_size self in
  diffusion_steps <- draw_diffusion_steps (num_steps env) B A ;;
  noised_action_list <-
    for_range G (noise <- randn B A T D ;;
                 ret (add_noise env gt_n noise diffusion_steps)) ;;
  ret (group_inputs G encoder_outputs noised_action_list diffusion_steps
         (gt_agents_future_41 gt)).

(** The denoiser branch of [DPR_GRPO.forward_and_get_loss]. *)
Definition denoiser_branch {E : Type} (env : collaborators E) (self : model)
    (gt : ground_truth) (encoder_outputs : E) (prefix : string)
    (log_dict : gmap string tval) : M (pyval * gmap string tval) :=
  let B := length (gt_actions_normalized gt) in
  calls <- sample_group env self gt encoder_outputs ;;
  denoise_outputs_list <-
    lift (for_each calls (fun c =>
            forward_denoiser env self (call_encoder_outputs c) (call_noised c)
              (call_steps c) (call_agents_future c))) ;;
  let denoised_trajs := map denoised_trajs denoise_outputs_list in
  let denoised_actions := map denoised_actions denoise_outputs_list in
  let denoised_actions_old := map denoised_actions_old denoise_outputs_list in
  rewards <- lift (compute_grpo_trajectory_reward env denoised_trajs
                     denoised_actions) ;;
  let action_differences_old :=
    action_differences denoised_actions_old (gt_actions_normalized gt)
      (gt_actions_valid gt) in
  let action_differences :=
    action_differences denoised_actions (gt_actions_normalized gt)
      (gt_actions_valid gt) in
  let ref_diff := action_differences_old in
  let ratios := ratios ref_diff action_differences in
  let l := grpo_loss B (_beta self) rewards ratios in
  let total := PyTensor (Fin (total_loss l)) in
  let log_dict :=
    <[(prefix +:+ "kl_penalty")%string := Fin (kl_penalty l)]>
    (<[(prefix +:+ "policy_loss")%string := Fin (policy_loss_v l)]>
    (<[(prefix +:+ "GRPO_loss")%string := Fin (total_loss l)]> log_dict)) in
  m <- lift (calculate_metrics_denoise_group env denoised_trajs
               (gt_agents_future gt) (gt_agents_future_valid gt)
               (gt_agents_interested gt)) ;;
  let '(denoise_ade, denoise_fde) := m in
  ret (total,
       <[(prefix +:+ "denoise_FDE")%string := denoise_fde]>
       (<[(prefix +:+ "denoise_ADE")%string := denoise_ade]> log_dict)).

(** [DPR_GRPO.forward_and_get_loss] with [debug=False]. *)
Definition forward_and_get_loss {E : Type} (env : collaborators E)
    (self : model) (b : batch) (prefix : string)
    : M (pyval * gmap string tval) :=
  gt <- lift (prepare_ground_truth env self b) ;;
  let log_dict : gmap string tval := ∅ in
  let total_loss := PyInt 0 in
  encoder_outputs <- lift (encoder env b) ;;
  r <- (if _train_denoiser self then
          denoiser_branch env self gt encoder_outputs prefix log_dict
        else ret (total_loss, log_dict)) ;;
  let '(total_loss, log_dict) := r in
  r <- (if _train_predictor self then
          lift (predictor_branch env self gt encoder_outputs prefix
                  total_loss log_dict)
        else ret (total_loss, log_dict)) ;;
  let '(total_loss, log_dict) := r in
  lift (finish prefix total_loss log_dict).

End DPR_GRPO.

(** ** The parameters of the modules and the reference policy *)

Module Lifecycle.

(** A parameter tensor: its values and its [requires_grad] flag. *)
Record param (V : Type) := {
  data : V;
  requires_grad : bool
}.

Arguments data {V}.
Arguments requires_grad {V}.

(** An [nn.Module]: the identities of its parameter tensors, in the order
    of its [state_dict], and its [training] flag. *)
Record module := {
  parameters : list nat;
  training : bool
}.

(** The [LightningModule] with its submodules; parameter tensors are
    objects in [store], so two modules may share one. *)
Record trainer (V : Type) := {
  store : gmap nat (param V);
  encoder : module;
  denoiser : module;
  reference_model : module;
  predictor : option module;
  optimizer : list nat
}.

Arguments store {V}.
Arguments encoder {V}.
Arguments denoiser {V}.
Arguments reference_model {V}.
Arguments predictor {V}.
Arguments optimizer {V}.

(** A new tensor object. *)
Definition alloc {V : Type} (h : gmap nat (param V)) (p : param V)
    : nat * gmap nat (param V) :=
  let l := fresh (dom h) in (l, <[l := p]> h).

Fixpoint alloc_all {V : Type} (h : gmap nat (param V)) (ps : list (param V))
    : list nat * gmap nat (param V) :=
  match ps with
  | [] => ([], h)
  | p :: ps' =>
      let (l, h1) := alloc h p in
      let (ls, h2) := alloc_all h1 ps' in
      (l :: ls, h2)
  end.

(** The tensors behind a list of identities. *)
Definition read_all {V : Type} (h : gmap nat (param V)) (ls : list nat)
    : list (param V) :=
  omap (fun l => h !! l) ls.

(** [module.state_dict()]: the values of the parameters. *)
Definition state_dict {V : Type} (h : gmap nat (param V)) (m : module)
    : list V :=
  map data (read_all h (parameters m)).

(** A module constructor: new parameters, [requires_grad=True], in
    training mode. *)
Definition new_module {V : Type} (h : gmap nat (param V)) (init : list V)
    : module * gmap nat (param V) :=
  let (ls, h') :=
    alloc_all h (map (fun v => {| data := v; requires_grad := true |}) init) in
  ({| parameters := ls; training := true |}, h').

(** [copy.deepcopy(module)]: new tensor objects with the same values and
    flags. *)
Definition deepcopy {V : Type} (h : gmap nat (param V)) (m : module)
    : module * gmap nat (param V) :=
  let (ls, h') := alloc_all h (read_all h (parameters m)) in
  ({| parameters := ls; training := training m |}, h').

(** [module.eval()]. *)
Definition eval (m : module) : module :=
  {| parameters := parameters m; training := false |}.

(** [for p in module.parameters(): p.requires_grad = flag]. *)
Definition set_requires_grad {V : Type} (flag : bool) (ls : list nat)
    (h : gmap nat (param V)) : gmap nat (param V) :=
  foldr (fun l h =>
           alter (fun p => {| data := data p; requires_grad := flag |}) l h)
        h ls.

(** [module.load_state_dict(values)]: every parameter's values are
    overwritten in place; its flag is kept. *)
Definition load_state_dict {V : Type} (ls : list nat) (values : list V)
    (h : gmap nat (param V)) : gmap nat (param V) :=
  foldr (fun (lv : nat * V) h =>
           alter (fun p => {| data := snd lv;
                              requires_grad := requires_grad p |}) (fst lv) h)
        h (combine ls values).

(** Lines 56-92 of [DPR_GRPO.__init__]: the encoder, the denoiser, the
    reference model as a copy of the denoiser with gradients disabled, and
    the predictor when configured. *)
Definition __init__ {V : Type} (encoder_init denoiser_init : list V)
    (predictor_init : option (list V)) : trainer V :=
  let (encoder, h1) := new_module ∅ encoder_init in
  let (denoiser, h2) := new_module h1 denoiser_init in
  let (reference_model, h3) := deepcopy h2 denoiser in
  let reference_model := eval reference_model in
  let h4 := set_requires_grad false (parameters reference_model) h3 in
  let (predictor, h5) :=
    match predictor_init with
    | Some init => let (m, h) := new_module h4 init in (Some m, h)
    | None => (None, h4)
    end in
  {| store := h5; encoder := encoder; denoiser := denoiser;
     reference_model := reference_model; predictor := predictor;
     optimizer := [] |}.

(** [self.parameters()]: the parameters of the submodules in the order
    they were registered. *)
Definition all_parameters {V : Type} (s : trainer V) : list nat :=
  parameters (encoder s) ++ parameters (denoiser s) ++
  parameters (reference_model s) ++
  match predictor s with
  | Some m => parameters m
  | None => []
  end.

(** [configure_optimizers]: the flags of the configuration freeze whole
    submodules; the optimizer receives the parameters that still require
    a gradient. *)
Definition configure_optimizers {V : Type} (self : model) (s : trainer V)
    : result (trainer V) :=
  let h := store s in
  let h := if _train_encoder self then h
           else set_requires_grad false (parameters (encoder s)) h in
  let h := if _train_denoiser self then h
           else set_requires_grad false (parameters (denoiser s)) h in
  let h := if _with_predictor self && negb (_train_predictor self) then
             match predictor s with
             | Some m => set_requires_grad false (parameters m) h
             | None => h
             end
           else h in
  let params_to_update :=
    List.filter (fun l => match h !! l with
                          | Some p => requires_grad p
                          | None => false
                          end) (all_parameters s) in
  if (0 <? length params_to_update)%nat then
    Ok {| store := h; encoder := encoder s; denoiser := denoiser s;
          reference_model := reference_model s; predictor := predictor s;
          optimizer := params_to_update |}
  else Err (AssertionError "No parameters to update").

(** One optimizer step: [update l] is what the step does to the values of
    parameter [l]; only the optimizer's parameters are touched. *)
Definition training_step {V : Type} (update : nat -> V -> V) (s : trainer V)
    : trainer V :=
  {| store :=
       foldr (fun l h =>
                alter (fun p => {| data := update l (data p);
                                   requires_grad := requires_grad p |}) l h)
             (store s) (optimizer s);
     encoder := encoder s; denoiser := denoiser s;
     reference_model := reference_model s; predictor := predictor s;
     optimizer := optimizer s |}.

(** [on_train_epoch_end]:
    [self.reference_model.load_state_dict(copy.deepcopy(
       self.denoiser.state_dict()))], then [self.reference_model.eval()]. *)
Definition on_train_epoch_end {V : Type} (s : trainer V) : trainer V :=
  let values := state_dict (store s) (denoiser s) in
  {| store :=
       load_state_dict (parameters (reference_model s)) values (store s);
     encoder := encoder s; denoiser := denoiser s;
     reference_model := eval (reference_model s); predictor := predictor s;
     optimizer := optimizer s |}.

(** What happens during training. *)
Inductive event (V : Type) : Type :=
| TrainingStep (update : nat -> V -> V)
| TrainEpochEnd.

Arguments TrainingStep {V} update.
Arguments TrainEpochEnd {V}.

Definition step {V : Type} (s : trainer V) (ev : event V) : trainer V :=
  match ev with
  | TrainingStep update => training_step update s
  | TrainEpochEnd => on_train_epoch_end s
  end.

Definition run {V : Type} (s : trainer V) (evs : list (event V)) : trainer V :=
  fold_left step evs s.

(** The values of a module's parameters, as the store has them. *)
Definition values {V : Type} (s : trainer V) (m : module) : list (option V) :=
  map (fun l => data <$> store s !! l) (parameters m).

(** What is kept true of the reference model while training runs: its
    parameters are objects of their own, distinct from the denoiser's and
    from what the optimizer updates, and none requires a gradient. *)
Record reference_invariant {V : Type} (s : trainer V) : Prop := {
  ref_nodup : NoDup (parameters (reference_model s));
  ref_separate :
    forall l, l ∈ parameters (reference_model s) ->
              l ∉ parameters (denoiser s);
  ref_frozen :
    forall l, l ∈ parameters (reference_model s) ->
              exists p, store s !! l = Some p /\ requires_grad p = false;
  den_alive :
    forall l, l ∈ parameters (denoiser s) -> is_Some (store s !! l);
  ref_length :
    length (parameters (reference_model s)) = length (parameters (denoiser s));
  ref_not_optimized :
    forall l, l ∈ optimizer s -> l ∉ parameters (reference_model s)
}.

End Lifecycle.

(** ** The quantities of the specification, stated index by index *)

Module Spec.

(** The sum of [f 0 .. f (n-1)]. *)
Definition sum_upto (n : nat) (f : nat -> R) : R := Rsum (map f (seq 0 n)).

(** Entry [(g, b)] of a [[G, B]] tensor. *)
Definition at_gb (t : tensor2) (g b : nat) : R := nth b (nth g t []) 0.

(** The mean of [f b g] over the batch and the group. *)
Definition mean_bg (B G : nat) (f : nat -> nat -> R) : R :=
  sum_upto B (fun b => sum_upto G (fun g => f b g)) / INR (B * G).

(** The reward of candidate [g] minus the mean reward of its group. *)
Definition centered (rewards_gb : tensor2) (G b g : nat) : R :=
  at_gb rewards_gb g b - sum_upto G (fun g' => at_gb rewards_gb g' b) / INR G.

(** [-mean(advantage * log(clamp(ratio, 1e-8, 10)))]. *)
Definition spec_policy_loss (B G : nat) (rewards_gb ratios_gb : tensor2) : R :=
  - mean_bg B G (fun b g =>
      centered rewards_gb G b g *
      ln (clamp (at_gb ratios_gb g b) (1 / 100000000) 10)).


(** [mean(ratio - 1 - log(clamp(ratio, 1e-8, 10)))], the logarithm of the
    clamped ratio. *)
Definition spec_kl_clamped (B G : nat) (ratios_gb : tensor2) : R :=
  mean_bg B G (fun b g =>
    at_gb ratios_gb g b - 1 -
    ln (clamp (at_gb ratios_gb g b) (1 / 100000000) 10)).





(** A computation raises. *)
Definition raises {A : Type} (r : result A) : Prop := exists e, r = Err e.

End Spec.

Import Spec.

(** ** Concrete collaborators, configurations and inputs *)

Module Examples.

(** A scheduler's [q_x0] that accepts the three prediction types and
    rejects any other. *)
Definition q_x0_checked (model_output : tensor4) (t : steps) (x_t : tensor4)
    (prediction_type : string) : result tensor4 :=
  if String.eqb prediction_type "sample" then Ok model_output
  else if String.eqb prediction_type "mean" then Ok model_output
  else if String.eqb prediction_type "error" then Ok model_output
  else Err (ValueError "Invalid prediction type").

(** Collaborators for one agent, one anchor and one action step, all of
    which return. *)
Definition env0 : collaborators unit :=
  {| encoder := fun _ => Ok tt;
     agents_of := fun _ => [[[[0; 0; 0]]]];
     denoiser := fun _ x _ _ => Ok x;
     reference_model := fun _ x _ _ => Ok x;
     predictor := fun _ => Ok ([[[[[0; 0]]]]], [[[0]]]);
     num_steps := 50;
     add_noise := fun x noise _ => map2 (map2 (map2 (map2 Rplus))) x noise;
     q_x0 := q_x0_checked;
     get_noise := fun _ _ _ _ => Ok (Fin 0);
     scheduler_step := fun x _ _ _ => Ok x;
     inverse_kinematics := fun _ _ _ => Ok ([[[[0; 0]]]], [[[true]]]);
     roll_out := fun _ _ _ => Ok [[[[2; 2; 0; 0; 0]]]];
     roll_out_goal := fun _ _ _ => Ok [[[[[2; 2; 0; 0; 0]]]]];
     batch_transform_trajs_to_global_frame := fun a _ => a;
     compute_grpo_trajectory_reward := fun trajs _ => Ok (map (fun _ => [0]) trajs);
     calculate_metrics_denoise := fun _ _ _ _ => Ok (Fin 0, Fin 0);
     calculate_metrics_denoise_group := fun _ _ _ _ => Ok (Fin 0, Fin 0);
     calculate_metrics_predict := fun _ _ _ _ => Ok (Fin 0, Fin 0) |}.

Definition make_cfg (denoiser predictor : bool) (type : string) : cfg :=
  {| future_len := 1; agents_len := 1; action_len := 1; diffusion_steps := 50;
     action_mean := [0; 0]; action_std := [1; 1];
     train_encoder := None;
     train_denoiser := Some denoiser;
     train_predictor := Some predictor;
     with_predictor := Some true;
     prediction_type := Some type;
     replay_buffer := None; group_size := None; beta := None |}.

(** Only the predictor is trained and the prediction type is unknown. *)
Definition cfg_predictor_only : cfg := make_cfg false true "velocity".


(** Neither the denoiser nor the predictor is trained. *)
Definition cfg_nothing_trained : cfg := make_cfg false false "sample".

(** The defaults. *)
Definition cfg_default : cfg := make_cfg true true "sample".

Definition batch0 : batch :=
  {| agents_future := [[[[1; 1; 0; 0; 0]; [2; 2; 0; 0; 0]]]];
     agents_interested := [[1%Z]];
     anchors := [[[[1; 1]]]] |}.

Definition gen0 : generator :=
  {| gen_ints := fun i => i; gen_normals := fun i => INR i; gen_pos := 0 |}.

Definition gt0 : ground_truth :=
  {| gt_agents_future := agents_future batch0;
     gt_agents_future_valid := [[[true; true]]];
     gt_agents_interested := [[1%Z]];
     gt_anchors := anchors batch0;
     gt_agents_future_41 := agents_future batch0;
     gt_actions_normalized := [[[[0; 0]]]];
     gt_actions_valid := [[[true]]] |}.


End Examples.

(** ** The learning-rate factor of [configure_optimizers] *)

Module Schedule.

(** The outcome of Python arithmetic that may divide by zero. *)
Inductive arith (A : Type) : Type :=
| Value (a : A)
| ZeroDivisionError.

Arguments Value {A} a.
Arguments ZeroDivisionError {A}.

(** [lr_update(step, warmup_step, step_size, gamma)], the closure that
    [configure_optimizers] hands to [LambdaLR]: integers [step],
    [warmup_step], [step_size] and a float [gamma]; [/] is true division,
    [//] floor division and [**] the power, which for a negative exponent
    divides. *)
Definition lr_update (step warmup_step step_size : Z) (gamma : R) : arith R :=
  let lr_scale :=
    if (step <? warmup_step)%Z then
      if (warmup_step =? 0)%Z then ZeroDivisionError
      else Value (1 - IZR (warmup_step - step) / IZR warmup_step * (95 / 100))
    else if (step_size =? 0)%Z then ZeroDivisionError
    else
      let n := ((step - warmup_step) / step_size)%Z in
      if (0 <=? n)%Z then Value (gamma ^ Z.to_nat n)
      else if Req_dec_T gamma 0 then ZeroDivisionError
      else Value (/ gamma ^ Z.to_nat (- n)) in
  match lr_scale with
  | ZeroDivisionError => ZeroDivisionError
  | Value s =>
      Value (if Rlt_dec s (1 / 100) then 1 / 100
             else if Rlt_dec 1 s then 1 else s)
  end.

End Schedule.

(** ** Further concrete inputs *)

Module MoreExamples.

Import Examples.

(** The defaults with a group of one candidate. *)
Definition cfg_single : cfg :=
  {| future_len := 1; agents_len := 1; action_len := 1; diffusion_steps := 50;
     action_mean := [0; 0]; action_std := [1; 1];
     train_encoder := None; train_denoiser := Some true;
     train_predictor := Some true; with_predictor := Some true;
     prediction_type := Some "sample"%string;
     replay_buffer := None; group_size := Some 1%nat; beta := None |}.

(** A batch in which no agent is marked as interested. *)
Definition batch_none : batch :=
  {| agents_future := [[[[1; 1; 0; 0; 0]; [2; 2; 0; 0; 0]]]];
     agents_interested := [[0%Z]];
     anchors := [[[[1; 1]]]] |}.

(** The collaborators of [env0] with an encoder that reports no agent. *)
Definition env_no_agents : collaborators unit :=
  {| encoder := encoder env0;
     agents_of := fun _ => [[]];
     denoiser := denoiser env0;
     reference_model := reference_model env0;
     predictor := predictor env0;
     num_steps := num_steps env0;
     add_noise := add_noise env0;
     q_x0 := q_x0 env0;
     get_noise := get_noise env0;
     scheduler_step := scheduler_step env0;
     inverse_kinematics := inverse_kinematics env0;
     roll_out := roll_out env0;
     roll_out_goal := roll_out_goal env0;
     batch_transform_trajs_to_global_frame :=
       batch_transform_trajs_to_global_frame env0;
     compute_grpo_trajectory_reward := compute_grpo_trajectory_reward env0;
     calculate_metrics_denoise := calculate_metrics_denoise env0;
     calculate_metrics_denoise_group := calculate_metrics_denoise_group env0;
     calculate_metrics_predict := calculate_metrics_predict env0 |}.

(** The encoder kept as it is, the denoiser and the predictor trained. *)
Definition cfg_frozen_encoder : cfg :=
  {| future_len := 1; agents_len := 1; action_len := 1; diffusion_steps := 50;
     action_mean := [0; 0]; action_std := [1; 1];
     train_encoder := Some false; train_denoiser := Some true;
     train_predictor := Some true; with_predictor := Some true;
     prediction_type := Some "sample"%string;
     replay_buffer := None; group_size := None; beta := None |}.

(** Nothing trained, and no predictor. *)
Definition cfg_all_frozen : cfg :=
  {| future_len := 1; agents_len := 1; action_len := 1; diffusion_steps := 50;
     action_mean := [0; 0]; action_std := [1; 1];
     train_encoder := Some false; train_denoiser := Some false;
     train_predictor := None; with_predictor := Some false;
     prediction_type := Some "sample"%string;
     replay_buffer := None; group_size := None; beta := None |}.

End MoreExamples.

(** ** Calls that may index past the end of a dimension *)

Module Outcome.

(** How a call ends.  Indexing past the end of a dimension raises
    [IndexError], which the loss engines never do. *)
Inductive outcome (A : Type) : Type :=
| Returns (a : A)
| Raises (e : exn)
| RaisesIndexError.

Arguments Returns {A} a.
Arguments Raises {A} e.
Arguments RaisesIndexError {A}.

End Outcome.

(** ** [DPR_GRPO.compute_grpo_trajectory_reward] *)

Module Reward.

Import Outcome.

(** The [weights] dictionary. *)
Record weights := {
  smoothness : R;
  speed : R;
  orientation : R;
  collision : R;
  action_accel : R;
  action_yaw : R
}.

(** The dictionary used when [weights is None]. *)
Definition default_weights : weights :=
  {| smoothness := 1; speed := 1; orientation := 1; collision := 2;
     action_accel := 1; action_yaw := 1 |}.

(** [tensor.shape] of a five-dimensional tensor, read along the first
    entry of every dimension (a tensor with an empty dimension does not
    record the sizes of the dimensions after it). *)
Definition shape5 (t : tensor5) : nat * nat * nat * nat * nat :=
  let t1 := nth 0 t [] in
  let t2 := nth 0 t1 [] in
  let t3 := nth 0 t2 [] in
  let t4 := nth 0 t3 [] in
  (length t, length t1, length t2, length t3, length t4).

(** [-a]. *)
Definition tneg (a : tval) : tval :=
  match a with
  | Fin x => Fin (- x)
  | PInf => NInf
  | NInf => PInf
  | NaN => NaN
  end.

(** [a - b]. *)
Definition tsub (a b : tval) : tval := tadd a (tneg b).

(** [torch.mean(x, dim=(2, 3))] at one [(g, b)]: the mean of the entries
    of an [[N, T]] block, NaN for a block without entries. *)
Definition mean_23 (x : tensor2) : tval :=
  tdiv (sum2 x) (INR (length (concat x))).

(** [x[..., 1:] - x[..., :-1]] along the last dimension. *)
Definition diff (x : tensor1) : tensor1 := map2 Rminus (tl x) (removelast x).

(** [v = torch.sqrt(v_x**2 + v_y**2)] of one state. *)
Definition speed_of (state : tensor1) : R :=
  sqrt (nth 3 state 0 ^ 2 + nth 4 state 0 ^ 2).

(** [theta] of one state. *)
Definition theta_of (state : tensor1) : R := nth 2 state 0.

(** [pos = torch.stack([x, y], dim=-1)] of one state. *)
Definition pos_of (state : tensor1) : tensor1 := [nth 0 state 0; nth 1 state 0].

(** The three rewards computed from the speeds and headings of one scene
    [trajectories[g, b] : [N][T][5]]. *)
Definition smoothness_reward (scene : tensor3) : tval :=
  let acc := map (fun agent => diff (map speed_of agent)) scene in
  tneg (mean_23 (map (map (fun a => a ^ 2)) acc)).

Definition speed_reward (v_target : R) (scene : tensor3) : tval :=
  let speed_diff :=
    map (map (fun state => (speed_of state - v_target) ^ 2)) scene in
  tneg (mean_23 speed_diff).

Definition orientation_reward (scene : tensor3) : tval :=
  let d_theta := map (fun agent => diff (map theta_of agent)) scene in
  tneg (mean_23 (map (map (fun a => a ^ 2)) d_theta)).

(** [torch.cdist(p, q, p=2)]. *)
Definition cdist (p q : tensor2) : tensor2 :=
  map (fun a => map (fun b => norm (map2 Rminus a b)) q) p.

(** [dist[mask]] for [mask = ~torch.eye(N)]: the entries off the
    diagonal, row by row. *)
Definition off_diagonal (N : nat) (dist : tensor2) : tensor1 :=
  concat (map (fun i =>
                 map (fun j => nth j (nth i dist []) 0)
                     (List.filter (fun j => negb (i =? j)%nat) (seq 0 N)))
              (seq 0 N)).

(** [x.min()] of a one-dimensional tensor. *)
Definition tensor_min (x : tensor1) : result R :=
  match x with
  | [] => Err (RuntimeError "min(): Expected reduction dim to be specified for input.numel() == 0")
  | a :: x' => Ok (fold_left Rmin x' a)
  end.

(** The body of the loops over [g] and [b]: the penalty of one scene. *)
Definition scene_penalty (N T : nat) (collision_dist : R) (scene : tensor3)
    : result R :=
  match for_each (seq 0 T) (fun t =>
          let pos_t := map (fun agent => pos_of (nth t agent [])) scene in
          let dist := cdist pos_t pos_t in
          tensor_min (off_diagonal N dist)) with
  | Err e => Err e
  | Ok min_dist =>
      match min_dist with
      | [] => Err (RuntimeError "stack expects a non-empty TensorList")
      | _ =>
          Ok (mean (map (fun m => Rmax (collision_dist - m) 0 ^ 2) min_dist))
      end
  end.

(** The penalties of the actions of one scene [actions[g, b] : [N][A][2]]. *)
Definition accel_penalty (scene_actions : tensor3) : tval :=
  tneg (mean_23 (map (map (fun a => nth 0 a 0 ^ 2)) scene_actions)).

Definition yaw_penalty (scene_actions : tensor3) : tval :=
  tneg (mean_23 (map (map (fun a => nth 1 a 0 ^ 2)) scene_actions)).

(** The weighted sum at one [(g, b)]. *)
Definition total_reward (w : weights)
    (smoothness_reward speed_reward orientation_reward : tval)
    (collision_penalty : R) (accel_penalty yaw_penalty : tval) : tval :=
  tadd (tadd (tsub (tadd (tadd (tscale (smoothness w) smoothness_reward)
                               (tscale (speed w) speed_reward))
                         (tscale (orientation w) orientation_reward))
                   (tscale (collision w) (Fin collision_penalty)))
             (tscale (action_accel w) accel_penalty))
       (tscale (action_yaw w) yaw_penalty).

(** [compute_grpo_trajectory_reward(trajectories, actions, v_target,
    collision_dist, weights)]: the [[G, B]] rewards, or the exception
    raised. *)
Definition compute_grpo_trajectory_reward (trajectories : tensor5)
    (actions : option tensor5) (v_target collision_dist : R)
    (weights : option weights) : outcome (list (list tval)) :=
  let '(G, B, N, T, D) := shape5 trajectories in
  if negb (D =? 5)%nat then
    Raises (AssertionError "Each state must be [x, y, theta, v_x, v_y]")
  else
    let w := match weights with
             | None => default_weights
             | Some w => w
             end in
    let scene g b := nth b (nth g trajectories []) [] in
    match for_each (seq 0 G) (fun g =>
            for_each (seq 0 B) (fun b =>
              scene_penalty N T collision_dist (scene g b))) with
    | Err e => Raises e
    | Ok collision_penalty =>
        let reward (accel yaw : nat -> nat -> tval) :=
          map (fun g =>
                 map (fun b =>
                        total_reward w
                          (smoothness_reward (scene g b))
                          (speed_reward v_target (scene g b))
                          (orientation_reward (scene g b))
                          (nth b (nth g collision_penalty []) 0)
                          (accel g b) (yaw g b))
                     (seq 0 B))
              (seq 0 G) in
        match actions with
        | Some actions =>
            let '(G2, B2, N2, A, D2) := shape5 actions in
            if negb ((G2 =? G) && (B2 =? B) && (N2 =? N))%nat then
              Raises (AssertionError "Action tensor shape mismatch")
            else if (D2 <? 2)%nat then RaisesIndexError
            else
              let scene_actions g b := nth b (nth g actions []) [] in
              Returns (reward (fun g b => accel_penalty (scene_actions g b))
                              (fun g b => yaw_penalty (scene_actions g b)))
        | None => Returns (reward (fun _ _ => Fin 0) (fun _ _ => Fin 0))
        end
    end.

End Reward.

(** ** Notions used to state facts about the reward *)

Module RewardSpec.


(** The state moved by [(dx, dy)] in the plane. *)
Definition translate (dx dy : R) (state : tensor1) : tensor1 :=
  match state with
  | x :: y :: rest => (x + dx) :: (y + dy) :: rest
  | _ => state
  end.

(** Every agent of every scene has [T] states of five entries. *)
Definition uniform (T : nat) (trajectories : tensor5) : Prop :=
  Forall (Forall (Forall (fun agent =>
    length agent = T /\ Forall (fun state => length state = 5%nat) agent)))
    trajectories.

(** Two candidates, one scene, two agents two metres apart, two steps. *)
Definition trajectories0 : tensor5 :=
  [[[[[0; 0; 0; 5; 0]; [5; 0; 0; 5; 0]];
     [[0; 1; 0; 3; 4]; [5; 1; 1; 3; 4]]]];
   [[[[0; 0; 0; 5; 0]; [5; 0; 0; 5; 0]];
     [[0; 3; 0; 5; 0]; [5; 3; 0; 5; 0]]]]].

Definition actions0 : tensor5 :=
  [[[[[1; 0]]; [[0; 1]]]]; [[[[0; 0]]; [[0; 0]]]]].

(** One agent alone in its scene. *)
Definition trajectories_alone : tensor5 :=
  [[[[[0; 0; 0; 5; 0]; [5; 0; 0; 5; 0]]]]].

End RewardSpec.

(** ** The logged metrics *)

Module Metrics.

Import Outcome.

(** [if not top_k: top_k = self._agents_len]: [None] and [0] are both
    falsy. *)
Definition resolve_top_k (self : model) (top_k : option nat) : nat :=
  match top_k with
  | None | Some O => _agents_len self
  | Some k => k
  end.

(** [agents_future_valid[:, :top_k, 1:] &
    (agents_interested[:, :top_k, None] > 0)]. *)
Definition gt_mask (top_k : nat) (agents_future_valid : mask3)
    (agents_interested : list (list Z)) : mask3 :=
  Losses.future_mask (map (firstn top_k) agents_future_valid)
                     (map (firstn top_k) agents_interested).

(** [agents_future[:, :top_k, 1:, :2]]; the last slice is taken where the
    states are compared. *)
Definition gt_of (top_k : nat) (agents_future : tensor4) : tensor4 :=
  map (fun sample => map (fun traj => tl traj) (firstn top_k sample))
      agents_future.

(** [torch.norm(p[:2] - g[:2])] of two states. *)
Definition displacement (p g : tensor1) : R :=
  norm (map2 Rminus (firstn 2 p) (firstn 2 g)).

(** [x[mask]] on the flattened tensors: the entries at which the mask
    holds, in order. *)
Definition masked_select (x : tensor1) (m : list bool) : tensor1 :=
  map fst (List.filter snd (combine x m)).

(** [x.mean()] of a one-dimensional tensor, NaN when it is empty. *)
Definition tensor_mean (x : tensor1) : tval := tdiv (Rsum x) (INR (length x)).

(** [x[..., -1]] on a [[B, A, T]] tensor. *)
Definition last_step {A : Type} (d : A) (x : list (list (list A)))
    : outcome (list (list A)) :=
  if existsb (existsb (fun row : list A =>
                         match row with [] => true | _ => false end)) x
  then RaisesIndexError
  else Returns (map (map (fun row => List.last row d)) x).

(** From [gt = ...] on, the two [calculate_metrics_denoise] have the same
    text. *)
Definition denoise_metrics (top_k : nat) (pred_traj agents_future : tensor4)
    (agents_future_valid : mask3) (agents_interested : list (list Z))
    : outcome (tval * tval) :=
  let gt := gt_of top_k agents_future in
  let gt_mask := gt_mask top_k agents_future_valid agents_interested in
  let denoise_mse := map2 (map2 (map2 displacement)) pred_traj gt in
  let denoise_ADE :=
    tensor_mean (masked_select (concat (concat denoise_mse))
                               (concat (concat gt_mask))) in
  match last_step 0 denoise_mse, last_step false gt_mask with
  | Returns mse_last, Returns mask_last =>
      let denoise_FDE :=
        tensor_mean (masked_select (concat mse_last) (concat mask_last)) in
      Returns (denoise_ADE, denoise_FDE)
  | _, _ => RaisesIndexError
  end.

(** [DPR.calculate_metrics_denoise]. *)
Definition calculate_metrics_denoise (self : model)
    (denoised_trajs agents_future : tensor4) (agents_future_valid : mask3)
    (agents_interested : list (list Z)) (top_k : option nat)
    : outcome (tval * tval) :=
  let top_k := resolve_top_k self top_k in
  let pred_traj := map (firstn top_k) denoised_trajs in
  denoise_metrics top_k pred_traj agents_future agents_future_valid
    agents_interested.

(** [x.mean(dim=0)] of the candidates of a group of at least one. *)
Definition mean_dim0 (x : tensor5) : tensor4 :=
  match x with
  | [] => []
  | x0 :: rest =>
      map (map (map (map (fun s => s / INR (length x)))))
          (fold_left (map2 (map2 (map2 (map2 Rplus)))) rest x0)
  end.

(** [DPR_GRPO.calculate_metrics_denoise]: the metrics of the mean of the
    candidates. *)
Definition calculate_metrics_denoise_group (self : model)
    (denoised_trajs : tensor5) (agents_future : tensor4)
    (agents_future_valid : mask3) (agents_interested : list (list Z))
    (top_k : option nat) : outcome (tval * tval) :=
  let top_k := resolve_top_k self top_k in
  let denoised_trajs_avg := mean_dim0 denoised_trajs in
  let pred_traj := map (firstn top_k) denoised_trajs_avg in
  denoise_metrics top_k pred_traj agents_future agents_future_valid
    agents_interested.

(** [goal_mse]: per agent, anchor and step, the masked displacement of
    the anchor's trajectory.  [goal_trajs : [B][A][Q][T][5]]. *)
Definition goal_mse (top_k : nat) (goal_trajs : tensor5)
    (agents_future : tensor4) (agents_future_valid : mask3)
    (agents_interested : list (list Z)) : tensor4 :=
  let goal_trajs := map (firstn top_k) goal_trajs in
  let gt := gt_of top_k agents_future in
  let gt_mask := gt_mask top_k agents_future_valid agents_interested in
  let goal_mse :=
    map2 (map2 (fun anchors gt_a =>
                  map (fun traj => map2 displacement traj gt_a) anchors))
         goal_trajs gt in
  map2 (map2 (fun anchors mask_a =>
                map (fun d => map2 mask_mul d mask_a) anchors))
       goal_mse gt_mask.

(** [best_idx = torch.argmin(goal_mse.sum(-1), dim=-1)]. *)
Definition best_idx (goal_mse : tensor4) : list (list nat) :=
  map (map (fun anchors => argmin (map Rsum anchors))) goal_mse.

(** [calculate_metrics_predict], the same text in both classes. *)
Definition calculate_metrics_predict (self : model) (goal_trajs : tensor5)
    (agents_future : tensor4) (agents_future_valid : mask3)
    (agents_interested : list (list Z)) (top_k : option nat)
    : outcome (tval * tval) :=
  let top_k := resolve_top_k self top_k in
  let gt_mask := gt_mask top_k agents_future_valid agents_interested in
  let goal_mse := goal_mse top_k goal_trajs agents_future agents_future_valid
                    agents_interested in
  if existsb (existsb (fun anchors : tensor2 =>
                         match anchors with [] => true | _ => false end))
       goal_mse
  then RaisesIndexError
  else
    let best_idx := best_idx goal_mse in
    let best_goal_mse :=
      map2 (map2 (fun anchors i => nth i anchors [])) goal_mse best_idx in
    let goal_ADE := tdiv (sum3 best_goal_mse) (INR (count3 gt_mask)) in
    match last_step 0 best_goal_mse, last_step false gt_mask with
    | Returns best_last, Returns mask_last =>
        let goal_FDE := tdiv (sum2 best_last) (INR (count2 mask_last)) in
        Returns (goal_ADE, goal_FDE)
    | _, _ => RaisesIndexError
    end.

End Metrics.

(** ** Notions used to state facts about the metrics *)

Module MetricsSpec.


(** The summed error of the anchors [selection] names, one per agent. *)
Definition selection_error (goal_mse : tensor4) (selection : list (list nat))
    : R :=
  sum2 (map2 (map2 (fun anchors q => Rsum (nth q anchors []))) goal_mse
             selection).

(** One scene, one agent, a current state and two future steps. *)
Definition future0 : tensor4 :=
  [[[[0; 0; 0; 0; 0]; [1; 0; 0; 0; 0]; [2; 0; 0; 0; 0]]]].

Definition valid0 : mask3 := [[[true; true; true]]].

(** A denoised trajectory one metre beside the ground truth. *)
Definition denoised0 : tensor4 := [[[[1; 1; 0; 0; 0]; [2; 1; 0; 0; 0]]]].

(** Two anchors: one three metres beside the ground truth, one on it. *)
Definition goal_trajs0 : tensor5 :=
  [[[[[1; 3; 0; 0; 0]; [2; 3; 0; 0; 0]];
     [[1; 0; 0; 0; 0]; [2; 0; 0; 0; 0]]]]].

End MetricsSpec.

(** ** Loading checkpoints: [DPR_GRPO.__init__] and [train_grpo.train] *)

Module Checkpoint.

(** How the start of [train] ends: [raise Warning(...)] raises an
    exception that is none of [exn]. *)
Inductive started (A : Type) : Type :=
| Started (a : A)
| Failed (e : exn)
| Warning (msg : string).

Arguments Started {A} a.
Arguments Failed {A} e.
Arguments Warning {A} msg.

(** The entries of [cfg] that [train] reads before it builds the
    trainer. *)
Record train_cfg := {
  model_cfg : cfg;
  ckpt_path_GRPO : option string;
  encoder_ckpt : option string
}.

(** The children that [Encoder.__init__] registers; it has no parameter
    or buffer of its own, so every key of its [state_dict] is the name of
    one of them, a dot, and a key of that child. *)
Definition encoder_children : list string :=
  ["agent_encoder"; "map_encoder"; "traffic_light_encoder";
   "relation_encoder"; "transformer_encoder"]%string.

Definition encoder_key (k : string) : Prop :=
  exists child rest,
    In child encoder_children /\ k = (child +:+ "." +:+ rest)%string.

Section Tensors.

(** Tensors and their shapes. *)
Context {V : Type} (shape : V -> list nat).

(** [for key in list(model_dict.keys()):
       if not key.startswith("encoder."): del model_dict[key]]. *)
Definition keep_encoder_keys (model_dict : gmap string V) : gmap string V :=
  filter (fun kv : string * V => String.prefix "encoder." (fst kv) = true)
         model_dict.

(** The shapes of the entries of [state_dict] that [own] has a key for
    agree with [own]'s. *)
Definition shapes_agree (own state_dict : gmap string V) : bool :=
  forallb (fun kv : string * V =>
             match state_dict !! fst kv with
             | Some w => bool_decide (shape w = shape (snd kv))
             | None => true
             end)
          (map_to_list own).

(** [module.load_state_dict(state_dict, strict=False)], [own] being the
    module's [state_dict]: the keys of the module found in [state_dict]
    take its values, the keys of only one side are ignored, and a tensor
    of another shape is an error. *)
Definition load_state_dict_nonstrict (own state_dict : gmap string V)
    : result (gmap string V) :=
  if shapes_agree own state_dict then
    Ok (map_imap (fun k v => Some (match state_dict !! k with
                                   | Some w => w
                                   | None => v
                                   end)) own)
  else Err (RuntimeError "Error(s) in loading state_dict: size mismatch").

(** [module.load_state_dict(state_dict)]: as above, and the two sides
    must have the same keys. *)
Definition load_state_dict_strict (own state_dict : gmap string V)
    : result (gmap string V) :=
  if bool_decide (dom own = dom state_dict) then
    load_state_dict_nonstrict own state_dict
  else Err (RuntimeError "Error(s) in loading state_dict: missing or unexpected keys").

(** Lines 56-64 of [DPR_GRPO.__init__]: what the encoder's parameters are
    after the checkpoint named by [encoder_ckpt] has been read.
    [torch_load path] is the ["state_dict"] entry of the file. *)
Definition init_encoder (torch_load : string -> result (gmap string V))
    (encoder_path : option string) (encoder : gmap string V)
    : result (gmap string V) :=
  match encoder_path with
  | Some path =>
      match torch_load path with
      | Err e => Err e
      | Ok model_dict =>
          load_state_dict_nonstrict encoder (keep_encoder_keys model_dict)
      end
  | None => Ok encoder
  end.

(** Lines 84-101 of [train]: the weights of the model, whose
    [state_dict] is [model], after the checkpoints have been read, and
    the configuration. *)
Definition train_load (torch_load : string -> result (gmap string V))
    (c : train_cfg) (model : gmap string V)
    : started (gmap string V * train_cfg) :=
  let loaded :=
    match ckpt_path_GRPO c with
    | Some ckpt_path =>
        match torch_load ckpt_path with
        | Err e => Err e
        | Ok state_dict => load_state_dict_strict model state_dict
        end
    | None => Ok model
    end in
  match loaded with
  | Err e => Failed e
  | Ok model =>
      if negb (get (train_encoder (model_cfg c)) false) then
        match encoder_ckpt c with
        | Some encoder_path =>
            match torch_load encoder_path with
            | Err e => Failed e
            | Ok model_dict =>
                match load_state_dict_nonstrict model
                        (keep_encoder_keys model_dict) with
                | Err e => Failed e
                | Ok model => Started (model, c)
                end
            end
        | None => Warning "Encoder path is not provided"
        end
      else Started (model, c)
  end.

End Tensors.

(** A checkpoint of the whole model, an encoder's own parameters and a
    model's parameters, with integers for tensors. *)
Definition model_dict0 : gmap string Z :=
  <["encoder.agent_encoder.type_embed.weight"%string := 7%Z]>
  (<["denoiser.final_layer.weight"%string := 3%Z]> ∅).

Definition encoder0 : gmap string Z :=
  <["agent_encoder.type_embed.weight"%string := 1%Z]> ∅.

Definition model0 : gmap string Z :=
  <["encoder.agent_encoder.type_embed.weight"%string := 1%Z]>
  (<["denoiser.final_layer.weight"%string := 2%Z]> ∅).


Definition train_cfg_no_encoder : train_cfg :=
  {| model_cfg := Examples.cfg_default;
     ckpt_path_GRPO := None;
     encoder_ckpt := None |}.

End Checkpoint.

(** ** [DPR/model/Decoder.py]: [Decoder.forward] *)

Module Decoder.

Import Outcome.

(** The entries of [encoder_outputs] that the decoder reads; [X] is the
    type of the scene encodings. *)
Record encoder_outputs (X : Type) := {
  encodings : X;
  anchors : tensor4;
  agents_mask : mask2
}.

Arguments encodings {X}.
Arguments anchors {X}.
Arguments agents_mask {X}.

(** The decoder: the number of agents it predicts for, and its network
    [self.dit], which this development leaves open. *)
Record decoder (X : Type) := {
  _predicted_agents_num : nat;
  dit : tensor3 -> list nat -> X -> tensor4 -> tensor4 -> mask2 ->
        result tensor3
}.

Arguments _predicted_agents_num {X}.
Arguments dit {X}.

(** [diffusion_step[:, -1]] on a [[B, A]] tensor. *)
Definition last_column (diffusion_step : steps) : outcome (list nat) :=
  if existsb (fun row : list nat =>
                match row with [] => true | _ => false end) diffusion_step
  then RaisesIndexError
  else Returns (map (fun row => List.last row 0%nat) diffusion_step).

(** The first [n] rows of [k] entries of a flat tensor. *)
Fixpoint chunks {A : Type} (k n : nat) (l : list A) : list (list A) :=
  match n with
  | O => []
  | S n' => firstn k l :: chunks k n' (skipn k l)
  end.

(** [x.reshape(B, P, -1)] on the entries of [x] in row-major order. *)
Definition reshape_B_P (B P : nat) (flat : tensor1) : result tensor3 :=
  let n := length flat in
  if (B * P =? 0)%nat then
    Err (RuntimeError "reshape: the unspecified dimension is ambiguous or the shape is invalid")
  else if negb (n mod (B * P) =? 0)%nat then
    Err (RuntimeError "reshape: shape is invalid for input size")
  else
    let k := (n / (B * P))%nat in
    Ok (map (chunks k P) (chunks (P * k) B flat)).

(** [x.reshape(B, P, -1, 2)]. *)
Definition reshape_B_P_2 (B P : nat) (flat : tensor1) : result tensor4 :=
  let n := length flat in
  if (B * P =? 0)%nat then
    Err (RuntimeError "reshape: the unspecified dimension is ambiguous or the shape is invalid")
  else if negb (n mod (B * P * 2) =? 0)%nat then
    Err (RuntimeError "reshape: shape is invalid for input size")
  else
    let k := (n / (B * P * 2))%nat in
    Ok (map (fun sample => map (chunks 2 k) (chunks (k * 2) P sample))
            (chunks (P * (k * 2)) B flat)).

(** [Decoder.forward]. *)
Definition forward {X : Type} (self : decoder X)
    (encoder_outputs : encoder_outputs X) (noisy_actions : tensor4)
    (diffusion_step : steps) (agents_future : tensor4) : outcome tensor4 :=
  match last_column diffusion_step with
  | Returns diffusion_time =>
      let ego_neighbor_encoding := encodings encoder_outputs in
      let Anchors := anchors encoder_outputs in
      let future_traj := agents_future in
      let current_mask :=
        map (firstn (_predicted_agents_num self))
            (agents_mask encoder_outputs) in
      let B := length future_traj in
      let P := length (nth 0 future_traj []) in
      if negb (P =? _predicted_agents_num self)%nat then
        Raises (AssertionError "")
      else
        match reshape_B_P B P (concat (concat (concat noisy_actions))) with
        | Err e => Raises e
        | Ok sampled_actions_trajectories =>
            match dit self sampled_actions_trajectories diffusion_time
                    ego_neighbor_encoding Anchors future_traj current_mask with
            | Err e => Raises e
            | Ok out =>
                match reshape_B_P_2 B P (concat (concat out)) with
                | Err e => Raises e
                | Ok actions => Returns actions
                end
            end
        end
  | Raises e => Raises e
  | RaisesIndexError => RaisesIndexError
  end.

(** A [[B, P, T, 2]] tensor. *)
Definition shaped (B P T : nat) (x : tensor4) : Prop :=
  length x = B /\
  Forall (fun sample =>
            length sample = P /\
            Forall (fun agent =>
                      length agent = T /\
                      Forall (fun a => length a = 2%nat) agent) sample) x.

(** A decoder for two agents whose network returns the noisy actions. *)
Definition decoder0 : decoder unit :=
  {| _predicted_agents_num := 2;
     dit := fun x _ _ _ _ _ => Ok x |}.

Definition encoder_outputs0 : encoder_outputs unit :=
  {| encodings := tt; anchors := []; agents_mask := [[false; false; true]] |}.

Definition noisy_actions0 : tensor4 := [[[[1; 2]; [3; 4]]; [[5; 6]; [7; 8]]]].

Definition agents_future0 : tensor4 :=
  [[[[0; 0; 0; 0; 0]]; [[1; 1; 0; 0; 0]]]].

End Decoder.

(** ** [training_step] and [validation_step] *)

Module Steps.

(** [DPR_GRPO.training_step]: the loss it returns and the dictionary it
    hands to [self.log_dict]. *)
Definition training_step {E : Type} (env : collaborators E) (self : model)
    (b : batch) : M (pyval * gmap string tval) :=
  DPR_GRPO.forward_and_get_loss env self b "train/".

(** [DPR_GRPO.validation_step]. *)
Definition validation_step {E : Type} (env : collaborators E) (self : model)
    (b : batch) : M (pyval * gmap string tval) :=
  DPR_GRPO.forward_and_get_loss env self b "val/".

(** [DPR.training_step] and [DPR.validation_step]. *)
Definition dpr_training_step {E : Type} (env : collaborators E) (self : model)
    (b : batch) : M (pyval * gmap string tval) :=
  DPR.forward_and_get_loss env self b "train/".

Definition dpr_validation_step {E : Type} (env : collaborators E)
    (self : model) (b : batch) : M (pyval * gmap string tval) :=
  DPR.forward_and_get_loss env self b "val/".

(** The metric that the [ModelCheckpoint] of [train] monitors. *)
Definition monitor : string := "val/loss".

End Steps.

(** ** [DPR/model/Encoder.py]: the attention mask *)

Module Attention.









End Attention.

(** * Theorems *)
(** * Facts about the tensor helpers *)

Section TensorFacts.

Lemma Rsum_app (l1 l2 : list R) : Rsum (l1 ++ l2) = Rsum l1 + Rsum l2.
Proof. induction l1 as [|x l1 IH]; simpl; [lra | rewrite IH; lra]. Qed.

Lemma Rsum_map_minus_const (l : list R) (m : R) :
  Rsum (map (fun r => r - m) l) = Rsum l - INR (length l) * m.
Proof.
  induction l as [|x l IH].
  - simpl. lra.
  - change (length (x :: l)) with (S (length l)). rewrite S_INR.
    simpl. rewrite IH. lra.
Qed.

Lemma Rsum_concat_map {A : Type} (g : A -> list R) (l : list A) :
  Rsum (concat (map g l)) = Rsum (map (fun x => Rsum (g x)) l).
Proof.
  induction l as [|x l IH]; simpl; [reflexivity|].
  now rewrite Rsum_app, IH.
Qed.

Lemma length_concat_map_const {A B : Type} (g : A -> list B) (l : list A) n :
  (forall x, length (g x) = n) ->
  length (concat (map g l)) = (length l * n)%nat.
Proof.
  intros Hg. induction l as [|x l IH]; simpl; [reflexivity|].
  now rewrite length_app, IH, Hg.
Qed.

Lemma map2_length {A B C : Type} (f : A -> B -> C) l1 l2 :
  length (map2 f l1 l2) = Nat.min (length l1) (length l2).
Proof. unfold map2. now rewrite length_map, length_combine. Qed.

Lemma map2_nth {A B C : Type} (f : A -> B -> C) l1 l2 i da db dc :
  (i < length l1)%nat -> (i < length l2)%nat ->
  nth i (map2 f l1 l2) dc = f (nth i l1 da) (nth i l2 db).
Proof.
  revert l2 i. induction l1 as [|a l1 IH]; intros [|b l2] i H1 H2;
    simpl in *; try lia.
  destruct i as [|i]; [reflexivity|]. apply IH; lia.
Qed.

Lemma map2_map_map {A B C D : Type} (f : B -> C -> D) (g : A -> B)
    (h : A -> C) (l : list A) :
  map2 f (map g l) (map h l) = map (fun x => f (g x) (h x)) l.
Proof.
  unfold map2. induction l as [|x l IH]; simpl; [reflexivity|]. now f_equal.
Qed.

Lemma map2_map_r {A B C : Type} (f : A -> B -> C) (h : A -> B) (l : list A) :
  map2 f l (map h l) = map (fun x => f x (h x)) l.
Proof.
  unfold map2. induction l as [|x l IH]; simpl; [reflexivity|]. now f_equal.
Qed.

Lemma map_as_seq {A B : Type} (f : A -> B) (l : list A) (d : A) :
  map f l = map (fun i => f (nth i l d)) (seq 0 (length l)).
Proof.
  induction l as [|x l IH]; simpl; [reflexivity|].
  f_equal. rewrite IH at 1. rewrite <- seq_shift, map_map. reflexivity.
Qed.

Lemma nth_map_seq {A : Type} (f : nat -> A) (n i : nat) (d : A) :
  (i < n)%nat -> nth i (map f (seq 0 n)) d = f i.
Proof.
  intros Hi. rewrite (nth_indep _ d (f 0%nat)) by now rewrite length_map, length_seq.
  rewrite (map_nth f (seq 0 n) 0%nat i). now rewrite seq_nth.
Qed.

Lemma nth_map_in {A B : Type} (f : A -> B) (l : list A) (i : nat) da db :
  (i < length l)%nat -> nth i (map f l) db = f (nth i l da).
Proof.
  intros Hi. rewrite (nth_indep _ db (f da)) by now rewrite length_map.
  apply map_nth.
Qed.

Lemma permute_1_0_seq (B : nat) (t : tensor2) :
  permute_1_0 B t =
  map (fun b => map (fun g => at_gb t g b) (seq 0 (length t))) (seq 0 B).
Proof.
  unfold permute_1_0. apply map_ext. intros b.
  apply (map_as_seq (fun row => nth b row 0) t []).
Qed.

Lemma mean_centered (l : list R) :
  l <> [] -> Rsum (map (fun r => r - mean l) l) = 0.
Proof.
  intros Hl. rewrite Rsum_map_minus_const. unfold mean.
  assert (INR (length l) <> 0).
  { apply not_0_INR. destruct l; simpl; congruence. }
  field. assumption.
Qed.

End TensorFacts.

(** * Group-relative advantages *)

Section Advantage.

Import DPR_GRPO.

Lemma advantages_rows (rewards : tensor2) :
  advantages rewards = map (fun row => map (fun r => r - mean row) row) rewards.
Proof. unfold advantages, group_mean. apply map2_map_r. Qed.

(** C1: for every batch element the advantages are the candidates'
    rewards minus the mean reward of the group and nothing else; their sum
    and their mean over the group are 0. *)
Theorem grpo_advantage_centering
    (B : nat) (rewards_gb : tensor2) (b : nat) :
  rewards_gb <> [] -> (b < B)%nat ->
  let G := length rewards_gb in
  let adv := nth b (advantages (permute_1_0 B rewards_gb)) [] in
  length adv = G /\
  (forall g, (g < G)%nat -> nth g adv 0 = centered rewards_gb G b g) /\
  Rsum adv = 0 /\ mean adv = 0.
Proof.
  intros Hne Hb G adv.
  set (group := map (fun g => at_gb rewards_gb g b) (seq 0 G)).
  assert (Hadv : adv = map (fun r => r - mean group) group).
  { unfold adv. rewrite advantages_rows, permute_1_0_seq, map_map.
    now rewrite nth_map_seq. }
  assert (Hlen : length group = G).
  { unfold group. now rewrite length_map, length_seq. }
  assert (Hg : group <> []).
  { intros Heq. rewrite Heq in Hlen. simpl in Hlen.
    destruct rewards_gb; [congruence | discriminate]. }
  assert (Hsum : Rsum adv = 0) by (rewrite Hadv; now apply mean_centered).
  repeat split.
  - now rewrite Hadv, length_map.
  - intros g Hlt. rewrite Hadv.
    rewrite (nth_map_in _ _ _ 0) by lia.
    unfold group at 1. rewrite nth_map_seq by assumption.
    unfold centered, mean, sum_upto. now rewrite Hlen.
  - exact Hsum.
  - unfold mean. rewrite Hsum. unfold Rdiv. apply Rmult_0_l.
Qed.

Lemma grpo_advantage_centering_witness :
  let adv := nth 0%nat (advantages (permute_1_0 1 [[1]; [2]; [6]])) [] in
  length adv = 3%nat /\
  (forall g, (g < 3)%nat -> nth g adv 0 = centered [[1]; [2]; [6]] 3 0 g) /\
  Rsum adv = 0 /\ mean adv = 0.
Proof.
  apply (grpo_advantage_centering 1 [[1]; [2]; [6]] 0%nat);
    [discriminate | lia].
Defined.

End Advantage.

(** * The GRPO objective *)

Section Objective.

Import DPR_GRPO.

Lemma mean2_seq (B G : nat) (f : nat -> nat -> R) :
  mean2 (map (fun b => map (fun g => f b g) (seq 0 G)) (seq 0 B)) =
  mean_bg B G f.
Proof.
  unfold mean2, mean, mean_bg, sum_upto.
  rewrite Rsum_concat_map.
  rewrite (length_concat_map_const _ _ G)
    by (intros; now rewrite length_map, length_seq).
  now rewrite length_seq.
Qed.

Lemma mean_bg_ext (B G : nat) (f f' : nat -> nat -> R) :
  (forall b g, (b < B)%nat -> (g < G)%nat -> f b g = f' b g) ->
  mean_bg B G f = mean_bg B G f'.
Proof.
  intros H. unfold mean_bg, sum_upto. f_equal. f_equal.
  apply map_ext_in. intros b Hb. apply in_seq in Hb.
  f_equal. apply map_ext_in. intros g Hg. apply in_seq in Hg.
  apply H; lia.
Qed.

Lemma clamp_inside (x lo hi : R) : lo <= x <= hi -> clamp x lo hi = x.
Proof.
  intros [H1 H2]. unfold clamp.
  rewrite Rmax_left by assumption. now rewrite Rmin_left.
Qed.

Lemma clamp_above (x lo hi : R) : lo <= hi -> hi <= x -> clamp x lo hi = hi.
Proof.
  intros H1 H2. unfold clamp.
  rewrite Rmax_left by lra. now rewrite Rmin_right.
Qed.

Lemma advantages_permuted (B : nat) (rewards_gb : tensor2) :
  advantages (permute_1_0 B rewards_gb) =
  map (fun b => map (fun g => centered rewards_gb (length rewards_gb) b g)
                    (seq 0 (length rewards_gb))) (seq 0 B).
Proof.
  rewrite advantages_rows, permute_1_0_seq, map_map.
  apply map_ext. intros b. rewrite map_map.
  apply map_ext. intros g. unfold centered, mean, sum_upto.
  now rewrite length_map, length_seq.
Qed.

Lemma log_ratios_permuted (B : nat) (ratios_gb : tensor2) :
  log_ratios (permute_1_0 B ratios_gb) =
  map (fun b => map (fun g => ln (clamp (at_gb ratios_gb g b)
                                        (1 / 100000000) 10))
                    (seq 0 (length ratios_gb))) (seq 0 B).
Proof.
  unfold log_ratios. rewrite permute_1_0_seq, map_map.
  apply map_ext. intros b. now rewrite map_map.
Qed.

(** The objective computed on tensors is the objective written index by
    index, with the logarithm of the clamped ratio in both terms. *)
Lemma grpo_loss_index_form (B : nat) (beta : R) (rewards_gb ratios_gb : tensor2) :
  length ratios_gb = length rewards_gb ->
  let G := length rewards_gb in
  let l := grpo_loss B beta rewards_gb ratios_gb in
  policy_loss_v l = spec_policy_loss B G rewards_gb ratios_gb /\
  kl_penalty l = beta * spec_kl_clamped B G ratios_gb /\
  total_loss l = policy_loss_v l + kl_penalty l.
Proof.
  intros Hlen G l. unfold l, grpo_loss. cbn [policy_loss_v kl_penalty total_loss].
  repeat split.
  - unfold policy_loss, spec_policy_loss.
    rewrite advantages_permuted, log_ratios_permuted, Hlen.
    rewrite map2_map_map. f_equal. rewrite <- mean2_seq. f_equal.
    apply map_ext. intros b. now rewrite map2_map_map.
  - unfold kl_div, spec_kl_clamped. f_equal.
    rewrite log_ratios_permuted, permute_1_0_seq, Hlen.
    rewrite map2_map_map. rewrite <- mean2_seq. f_equal.
    apply map_ext. intros b. now rewrite map2_map_map.
Qed.




Lemma action_diff_length (actions_g gt : tensor4) (valid : mask3) :
  length (action_diff actions_g gt valid) =
  Nat.min (Nat.min (length actions_g) (length gt)) (length valid).
Proof. unfold action_diff. now rewrite length_map, !map2_length. Qed.





End Objective.

(** * Heading errors are wrapped *)

Section HeadingWrap.

Import Losses.

Lemma PI_bounds : 3.14159 < PI < 3.1416.
Proof.
  pose proof (PI_2_3_7_ineq 3) as [Hlo Hhi].
  unfold sum_f_R0, tg_alt, PI_2_3_7_tg, Ratan_seq in Hlo, Hhi.
  simpl in Hlo, Hhi. split; lra.
Qed.

Lemma sin_period_Z (x : R) (k : Z) : sin (x + 2 * IZR k * PI) = sin x.
Proof.
  destruct (Z_le_gt_dec 0 k) as [Hk | Hk].
  - rewrite <- (Z2Nat.id k) by assumption. rewrite <- INR_IZR_INZ.
    apply sin_period.
  - rewrite <- (sin_period (x + 2 * IZR k * PI) (Z.to_nat (- k))).
    rewrite INR_IZR_INZ, Z2Nat.id by lia. rewrite opp_IZR. f_equal. ring.
Qed.

Lemma cos_period_Z (x : R) (k : Z) : cos (x + 2 * IZR k * PI) = cos x.
Proof.
  destruct (Z_le_gt_dec 0 k) as [Hk | Hk].
  - rewrite <- (Z2Nat.id k) by assumption. rewrite <- INR_IZR_INZ.
    apply cos_period.
  - rewrite <- (cos_period (x + 2 * IZR k * PI) (Z.to_nat (- k))).
    rewrite INR_IZR_INZ, Z2Nat.id by lia. rewrite opp_IZR. f_equal. ring.
Qed.

Lemma cos_neg_outside (d : R) :
  - PI < d <= PI -> (d < - (PI / 2) \/ PI / 2 < d) -> cos d < 0.
Proof.
  pose proof PI_RGT_0 as Hpi.
  intros [H1 H2] [H | H].
  - rewrite <- cos_neg. apply cos_lt_0; lra.
  - apply cos_lt_0; lra.
Qed.

Lemma cos_pos_inside (d : R) : - (PI / 2) < d < PI / 2 -> 0 < cos d.
Proof. intros [H1 H2]. now apply cos_gt_0. Qed.

Lemma tan_shift_minus (d : R) : cos d <> 0 -> sin d / cos d = tan (d - PI).
Proof.
  intros Hc. unfold tan.
  replace (sin (d - PI)) with (- sin d).
  2:{ replace d with ((d - PI) + PI) at 1 by ring. rewrite neg_sin. ring. }
  replace (cos (d - PI)) with (- cos d).
  2:{ replace d with ((d - PI) + PI) at 1 by ring. rewrite neg_cos. ring. }
  field. assumption.
Qed.

Lemma tan_shift_plus (d : R) : cos d <> 0 -> sin d / cos d = tan (d + PI).
Proof.
  intros Hc. unfold tan. rewrite neg_sin, neg_cos. field. assumption.
Qed.

(** On (-PI, PI] the composition with sine and cosine is the identity. *)
Lemma atan2_sin_cos (d : R) : - PI < d <= PI -> atan2 (sin d) (cos d) = d.
Proof.
  pose proof PI_RGT_0 as Hpi.
  intros [H1 H2]. unfold atan2.
  destruct (Rlt_dec 0 (cos d)) as [Hc | Hc].
  - assert (Hin : - (PI / 2) < d < PI / 2).
    { split.
      - destruct (Rlt_le_dec (- (PI / 2)) d) as [|Hle]; [assumption|].
        destruct Hle as [Hlt | Heq].
        + pose proof (cos_neg_outside d (conj H1 H2) (or_introl Hlt)). lra.
        + rewrite Heq, cos_neg, cos_PI2 in Hc. lra.
      - destruct (Rlt_le_dec d (PI / 2)) as [|Hle]; [assumption|].
        destruct Hle as [Hlt | Heq].
        + pose proof (cos_neg_outside d (conj H1 H2) (or_intror Hlt)). lra.
        + rewrite <- Heq, cos_PI2 in Hc. lra. }
    change (sin d / cos d) with (tan d). now apply atan_tan.
  - destruct (Rlt_dec (cos d) 0) as [Hn | Hn].
    + assert (Hout : d < - (PI / 2) \/ PI / 2 < d).
      { destruct (Rlt_le_dec d (- (PI / 2))) as [|Hl]; [now left|].
        destruct (Rlt_le_dec (PI / 2) d) as [|Hr]; [now right|].
        pose proof (cos_ge_0 d Hl Hr). lra. }
      destruct (Rle_dec 0 (sin d)) as [Hs | Hs].
      * assert (Hd : PI / 2 < d).
        { destruct Hout as [Hlt | ?]; [|assumption].
          pose proof (sin_lt_0_var d H1 ltac:(lra)). lra. }
        rewrite tan_shift_minus by lra.
        rewrite atan_tan by lra. ring.
      * assert (Hd : d < - (PI / 2)).
        { destruct Hout as [? | Hgt]; [assumption|].
          pose proof (sin_ge_0 d ltac:(lra) H2). lra. }
        rewrite tan_shift_plus by lra.
        rewrite atan_tan by lra. ring.
    + assert (Hz : cos d = 0) by lra.
      assert (Hd : d = PI / 2 \/ d = - (PI / 2)).
      { destruct (Rtotal_order d (PI / 2)) as [Hlt | [Heq | Hgt]].
        - destruct (Rtotal_order d (- (PI / 2))) as [Hlt' | [Heq' | Hgt']].
          + pose proof (cos_neg_outside d (conj H1 H2) (or_introl Hlt')). lra.
          + now right.
          + pose proof (cos_pos_inside d (conj Hgt' Hlt)). lra.
        - now left.
        - pose proof (cos_neg_outside d (conj H1 H2) (or_intror Hgt)). lra. }
      destruct Hd as [Hd | Hd]; rewrite Hd.
      * rewrite sin_PI2.
        destruct (Rlt_dec 0 1) as [_ | Hf]; [reflexivity | lra].
      * rewrite sin_neg, sin_PI2.
        destruct (Rlt_dec 0 _) as [Hf | _]; [lra|].
        destruct (Rlt_dec _ 0) as [_ | Hf]; [reflexivity | lra].
Qed.

(** The heading error is the representative in (-PI, PI] of the raw
    difference modulo 2 PI. *)
Lemma yaw_error_representative (pred_yaw true_yaw d : R) (k : Z) :
  pred_yaw - true_yaw = d + 2 * IZR k * PI -> - PI < d <= PI ->
  yaw_error pred_yaw true_yaw = d.
Proof.
  intros He Hd. unfold yaw_error. cbn zeta. rewrite He.
  rewrite sin_period_Z, cos_period_Z. now apply atan2_sin_cos.
Qed.

Lemma wrap_exists (e : R) :
  exists (k : Z) (d : R), e = d + 2 * IZR k * PI /\ - PI < d <= PI.
Proof.
  pose proof PI_RGT_0 as Hpi.
  set (x := (e - PI) / (2 * PI)).
  destruct (archimed (- x)) as [Hup1 Hup2].
  exists (1 - up (- x))%Z, (e - 2 * IZR (1 - up (- x)) * PI).
  split; [ring|].
  rewrite minus_IZR.
  assert (Hx : e = 2 * PI * x + PI) by (unfold x; field; lra).
  split; rewrite Hx at 1; nra.
Qed.

End HeadingWrap.

Section HeadingLoss.

Import Losses.

Lemma yaw_error_boundary : yaw_error (-3.13) 3.13 = 2 * PI - 6.26.
Proof.
  pose proof PI_bounds as [Hlo Hhi].
  apply (yaw_error_representative _ _ _ (-1)%Z); [|split]; lra.
Qed.

Lemma tdiv_by_one (x : R) : tdiv x (INR 1) = Fin x.
Proof.
  unfold tdiv. simpl. destruct (Req_dec_T 1 0) as [H | _]; [lra|].
  f_equal. field.
Qed.

(** C5, as the code has it: the heading error that enters the loss is the
    raw difference wrapped into (-PI, PI] (it differs from the raw
    difference by a multiple of 2 PI) before the absolute value is taken;
    for true = 3.13 and predicted = -3.13 its magnitude is
    2 PI - 6.26, about 0.0232, where the raw difference has magnitude
    6.26; [denoise_loss] returns this value for a batch of that one
    state. *)
Theorem heading_error_wrapped :
  (forall pred_yaw true_yaw : R,
     - PI < yaw_error pred_yaw true_yaw <= PI /\
     (exists k : Z,
        yaw_error pred_yaw true_yaw = pred_yaw - true_yaw - 2 * IZR k * PI) /\
     yaw_loss_elem pred_yaw true_yaw = Rabs (yaw_error pred_yaw true_yaw)) /\
  yaw_loss_elem (-3.13) 3.13 = 2 * PI - 6.26 /\
  0.02318 < yaw_loss_elem (-3.13) 3.13 < 0.02320 /\
  Rabs (-3.13 - 3.13) = 6.26 /\
  snd (denoise_loss [[[[0; 0; -3.13; 0; 0]]]]
         [[[[1; 1; 3.13; 0; 0]; [0; 0; 3.13; 0; 0]]]]
         [[[true; true]]] [[1%Z]]) = Fin (2 * PI - 6.26).
Proof.
  pose proof PI_bounds as [Hlo Hhi].
  assert (Hb : yaw_loss_elem (-3.13) 3.13 = 2 * PI - 6.26).
  { unfold yaw_loss_elem. rewrite yaw_error_boundary.
    apply Rabs_pos_eq. lra. }
  split; [|split; [|split; [|split]]].
  - intros p t.
    destruct (wrap_exists (p - t)) as (k & d & He & Hd).
    unfold yaw_loss_elem.
    rewrite (yaw_error_representative p t d k He Hd).
    split; [exact Hd|]. split; [|reflexivity].
    exists k. lra.
  - exact Hb.
  - rewrite Hb. lra.
  - rewrite Rabs_left by lra. lra.
  - unfold denoise_loss, future_mask, map2, sum3, count3, count1, mask_mul.
    simpl. rewrite Hb. change 1 with (INR 1).
    replace (2 * PI - 6.26 + 0) with (2 * PI - 6.26) by ring.
    apply tdiv_by_one.
Qed.

(** C5 as stated fails: at true = 3.13, predicted = -3.13 the wrapped
    error exceeds 0.023, more than seven times 0.003, and is not within
    0.02 of 0.003. *)
Lemma heading_error_boundary_counterexample :
  7 * 0.003 < yaw_loss_elem (-3.13) 3.13 /\
  ~ Rabs (yaw_loss_elem (-3.13) 3.13 - 0.003) < 0.02.
Proof.
  pose proof PI_bounds as [Hlo Hhi].
  unfold yaw_loss_elem. rewrite yaw_error_boundary.
  rewrite (Rabs_pos_eq (2 * PI - 6.26)) by lra.
  split; [lra|].
  rewrite Rabs_pos_eq by lra. lra.
Qed.

End HeadingLoss.

(** * Masked means with an empty mask *)

Section EmptyMask.

Import Losses.

Lemma count1_app (m1 m2 : list bool) :
  count1 (m1 ++ m2) = (count1 m1 + count1 m2)%nat.
Proof. unfold count1. now rewrite List.filter_app, length_app. Qed.

Lemma masked_row_zero (x : tensor1) (m : list bool) :
  count1 m = 0%nat -> Rsum (map2 mask_mul x m) = 0.
Proof.
  revert m. induction x as [|a x IH]; intros [|b m] H; try reflexivity.
  destruct b; [discriminate|].
  unfold map2 in *. simpl. rewrite IH by exact H. lra.
Qed.

Lemma masked_sum2_zero (x : tensor2) (m : mask2) :
  count2 m = 0%nat -> sum2 (map2 (map2 mask_mul) x m) = 0.
Proof.
  unfold sum2, count2.
  revert m. induction x as [|r x IH]; intros [|mr m] H; try reflexivity.
  simpl in H. rewrite count1_app in H.
  change (map2 (map2 mask_mul) (r :: x) (mr :: m))
    with (map2 mask_mul r mr :: map2 (map2 mask_mul) x m).
  simpl. rewrite Rsum_app, masked_row_zero, IH by lia. lra.
Qed.

Lemma masked_sum3_zero (x : tensor3) (m : mask3) :
  count3 m = 0%nat -> sum3 (map2 (map2 (map2 mask_mul)) x m) = 0.
Proof.
  unfold sum3, count3.
  revert m. induction x as [|r x IH]; intros [|mr m] H; try reflexivity.
  simpl in H. rewrite concat_app, count1_app in H.
  change (map2 (map2 (map2 mask_mul)) (r :: x) (mr :: m))
    with (map2 (map2 mask_mul) r mr :: map2 (map2 (map2 mask_mul)) x m).
  simpl. rewrite concat_app, Rsum_app.
  fold (sum2 (map2 (map2 mask_mul) r mr)).
  rewrite masked_sum2_zero, IH by (unfold count2; lia). lra.
Qed.

Lemma tdiv_zero_zero : tdiv 0 (INR 0) = NaN.
Proof.
  unfold tdiv. simpl.
  destruct (Req_dec_T 0 0) as [_ | H]; [|congruence].
  destruct (Rlt_dec 0 0) as [H | _]; [lra | reflexivity].
Qed.

(** C9: [denoise_loss] and [action_loss] divide the masked sum by the sum
    of the mask without a guard; when no entry of the mask is set, both
    the sum and the mask sum are 0 and the returned means are 0/0. *)
Theorem masked_mean_zero_denominator
    (denoised_trajs agents_future actions actions_gt : tensor4)
    (agents_future_valid actions_valid : mask3)
    (agents_interested : list (list Z)) :
  (count3 (future_mask agents_future_valid agents_interested) = 0%nat ->
   denoise_loss denoised_trajs agents_future agents_future_valid
     agents_interested = (tdiv 0 0, tdiv 0 0) /\
   tdiv 0 0 = NaN) /\
  (count3 (action_mask actions_valid agents_interested) = 0%nat ->
   action_loss actions actions_gt actions_valid agents_interested = tdiv 0 0 /\
   tdiv 0 0 = NaN).
Proof.
  pose proof tdiv_zero_zero as Hnan. simpl in Hnan.
  split; intros H; (split; [|exact Hnan]).
  - unfold denoise_loss. rewrite H.
    now rewrite !masked_sum3_zero by exact H.
  - unfold action_loss. rewrite H.
    now rewrite masked_sum3_zero by exact H.
Qed.

Lemma masked_mean_zero_denominator_witness :
  denoise_loss [[[[1; 2; 3; 0; 0]]]]
    [[[[1; 1; 0; 0; 0]; [2; 2; 0; 0; 0]]]] [[[true; true]]] [[0%Z]]
  = (NaN, NaN) /\
  action_loss [[[[1; 2]]]] [[[[0; 0]]]] [[[false]]] [[1%Z]] = NaN.
Proof.
  pose proof (masked_mean_zero_denominator
                [[[[1; 2; 3; 0; 0]]]] [[[[1; 1; 0; 0; 0]; [2; 2; 0; 0; 0]]]]
                [[[[1; 2]]]] [[[[0; 0]]]]
                [[[true; true]]] [[[false]]] [[0%Z]]) as [H1 _].
  pose proof (masked_mean_zero_denominator
                [[[[1; 2; 3; 0; 0]]]] [[[[1; 1; 0; 0; 0]; [2; 2; 0; 0; 0]]]]
                [[[[1; 2]]]] [[[[0; 0]]]]
                [[[true; true]]] [[[false]]] [[1%Z]]) as [_ H2].
  destruct (H1 eq_refl) as [E1 N1]. destruct (H2 eq_refl) as [E2 N2].
  split.
  - rewrite E1, N1. reflexivity.
  - rewrite E2. exact N2.
Defined.

End EmptyMask.

(** * The goal predictor selects one anchor per agent *)

Section GoalSelection.

Import Goal.

Lemma argmin_from_spec (l pre : tensor1) (best_i : nat) (best : R) :
  (best_i < length pre)%nat -> nth best_i pre 0 = best ->
  (forall q, (q < length pre)%nat -> best <= nth q pre 0) ->
  let r := argmin_from l (length pre) best_i best in
  (r < length (pre ++ l))%nat /\
  forall q, (q < length (pre ++ l))%nat ->
    nth r (pre ++ l) 0 <= nth q (pre ++ l) 0.
Proof.
  revert pre best_i best.
  induction l as [|x l IH]; intros pre best_i best Hlt Hnth Hmin; simpl.
  - rewrite app_nil_r. split; [assumption|].
    intros q Hq. rewrite Hnth. now apply Hmin.
  - replace (pre ++ x :: l) with ((pre ++ [x]) ++ l)
      by now rewrite <- app_assoc.
    assert (Hlen : length (pre ++ [x]) = S (length pre))
      by (rewrite length_app; simpl; lia).
    assert (Hx : nth (length pre) (pre ++ [x]) 0 = x)
      by (rewrite app_nth2, Nat.sub_diag by lia; reflexivity).
    rewrite <- Hlen.
    destruct (Rlt_dec x best) as [Hxb | Hxb].
    + apply IH.
      * lia.
      * exact Hx.
      * intros q Hq. rewrite Hlen in Hq.
        destruct (Nat.eq_dec q (length pre)) as [-> | Hne].
        -- rewrite Hx. lra.
        -- rewrite app_nth1 by lia. specialize (Hmin q ltac:(lia)). lra.
    + apply IH.
      * lia.
      * now rewrite app_nth1 by lia.
      * intros q Hq. rewrite Hlen in Hq.
        destruct (Nat.eq_dec q (length pre)) as [-> | Hne].
        -- rewrite Hx. lra.
        -- rewrite app_nth1 by lia. apply Hmin. lia.
Qed.

Lemma argmin_spec (l : tensor1) (q : nat) :
  (q < length l)%nat ->
  (argmin l < length l)%nat /\ nth (argmin l) l 0 <= nth q l 0.
Proof.
  destruct l as [|x l]; intros Hq; [simpl in Hq; lia|].
  pose proof (argmin_from_spec l [x] 0%nat x) as H.
  simpl in H. destruct H as [H1 H2].
  - lia.
  - reflexivity.
  - intros [|k] Hk; [lra | lia].
  - split; [exact H1 | now apply H2].
Qed.

Lemma argmin_map_spec {A : Type} (f : A -> R) (l : list A) (d : A) (q : nat) :
  (q < length l)%nat ->
  f (nth (argmin (map f l)) l d) <= f (nth q l d).
Proof.
  intros Hq.
  destruct (argmin_spec (map f l) q) as [H1 H2]; [now rewrite length_map|].
  rewrite length_map in H1.
  now rewrite !(nth_map_in f l _ d 0) in H2 by assumption.
Qed.




End GoalSelection.

(** * One draw of diffusion steps for the whole group *)

Section GroupSampling.

Import DPR_GRPO.

Lemma nth_repeat_lt {A : Type} (x d : A) (n i : nat) :
  (i < n)%nat -> nth i (repeat x n) d = x.
Proof.
  revert i. induction n as [|n IH]; intros [|i] H; simpl; try lia;
    [reflexivity | apply IH; lia].
Qed.

Lemma normal_block_advance (g : generator) (n pos B A T D : nat) :
  normal_block (advance n g) pos B A T D = normal_block g pos B A T D.
Proof. reflexivity. Qed.

Lemma advance_advance (g : generator) (n m : nat) :
  advance m (advance n g) = advance (n + m) g.
Proof. unfold advance. simpl. f_equal. lia. Qed.

Lemma for_range_randn {X : Type} (f : tensor4 -> X) (B A T D G : nat)
    (gen : generator) :
  for_range G (noise <- randn B A T D ;; ret (f noise)) gen =
  Ok (map (fun g => f (normal_block gen (gen_pos gen + g * (B * A * T * D))
                         B A T D)) (seq 0 G),
      advance (G * (B * A * T * D)) gen).
Proof.
  revert gen. induction G as [|G IH]; intros gen.
  - simpl. unfold ret. f_equal. f_equal. unfold advance.
    destruct gen; simpl. f_equal. lia.
  - cbn [for_range]. unfold bind at 1. unfold bind at 1.
    unfold randn at 1. cbn [ret]. unfold bind at 1. rewrite IH.
    unfold ret. f_equal. f_equal.
    + cbn [seq map]. rewrite <- seq_shift, map_map. f_equal.
      * f_equal. f_equal. lia.
      * apply map_ext. intros g. f_equal. rewrite normal_block_advance.
        f_equal. simpl. lia.
    + rewrite advance_advance. reflexivity.
Qed.

(** C8: in one call the diffusion steps are drawn once, one value per
    batch element repeated for every agent, and every member of the group
    is denoised with that same tensor of steps, the same encoder outputs
    and the same conditioning future; the members differ in the block of
    the normal stream their noise is read from. *)
Theorem group_shares_diffusion_steps {E : Type}
    (env : collaborators E) (self : model) (gt : ground_truth)
    (encoder_outputs : E) (gen : generator) :
  (0 < num_steps env)%nat ->
  let gt_n := gt_actions_normalized gt in
  let B := length gt_n in
  let A := length (nth 0 gt_n []) in
  let T := length (nth 0 (nth 0 gt_n []) []) in
  let D := length (nth 0 (nth 0 (nth 0 gt_n []) []) []) in
  let G := _group_size self in
  let draws :=
    map (fun b => (gen_ints gen (gen_pos gen + b) mod num_steps env)%nat)
        (seq 0 B) in
  let diffusion_steps := map (fun d => repeat d A) draws in
  let noise g :=
    normal_block gen (gen_pos gen + B + g * (B * A * T * D)) B A T D in
  exists calls gen',
    sample_group env self gt encoder_outputs gen = Ok (calls, gen') /\
    length calls = G /\
    (forall g, (g < G)%nat ->
       nth_error calls g =
       Some {| call_encoder_outputs := encoder_outputs;
               call_noised := add_noise env gt_n (noise g) diffusion_steps;
               call_steps := diffusion_steps;
               call_agents_future := gt_agents_future_41 gt |}) /\
    (forall g1 g2 c1 c2,
       nth_error calls g1 = Some c1 -> nth_error calls g2 = Some c2 ->
       call_steps c1 = call_steps c2) /\
    (forall b a, (b < B)%nat -> (a < A)%nat ->
       nth a (nth b diffusion_steps []) 0%nat = nth b draws 0%nat).
Proof.
  intros Hn gt_n B A T D G draws diffusion_steps noise.
  set (calls := map (fun g =>
         {| call_encoder_outputs := encoder_outputs;
            call_noised := add_noise env gt_n (noise g) diffusion_steps;
            call_steps := diffusion_steps;
            call_agents_future := gt_agents_future_41 gt |}) (seq 0 G)).
  assert (Hcalls : forall g, (g < G)%nat ->
            nth_error calls g =
            Some {| call_encoder_outputs := encoder_outputs;
                    call_noised := add_noise env gt_n (noise g) diffusion_steps;
                    call_steps := diffusion_steps;
                    call_agents_future := gt_agents_future_41 gt |}).
  { intros g Hg. unfold calls. rewrite nth_error_map.
    rewrite nth_error_seq. destruct (Nat.ltb_spec g G); [reflexivity | lia]. }
  assert (Hlen : length calls = G)
    by (unfold calls; now rewrite length_map, length_seq).
  exists calls, (advance (G * (B * A * T * D)) (advance B gen)).
  split; [|split; [exact Hlen | split; [exact Hcalls | split]]].
  - unfold sample_group. fold gt_n B A T D G.
    unfold bind at 1. unfold draw_diffusion_steps, bind at 1.
    unfold randint. destruct (Nat.ltb_spec 0 (num_steps env)); [|lia].
    cbn [ret]. rewrite Nat.sub_0_r. fold draws diffusion_steps.
    unfold bind at 1. rewrite for_range_randn. unfold ret.
    f_equal. f_equal. unfold group_inputs, calls.
    apply map_ext_in. intros g Hg. apply in_seq in Hg.
    rewrite !nth_repeat_lt by lia. f_equal.
    rewrite nth_map_seq by lia. reflexivity.
  - intros g1 g2 c1 c2 H1 H2.
    assert (Hg1 : (g1 < G)%nat)
      by (rewrite <- Hlen; apply nth_error_Some; congruence).
    assert (Hg2 : (g2 < G)%nat)
      by (rewrite <- Hlen; apply nth_error_Some; congruence).
    rewrite (Hcalls g1 Hg1) in H1. rewrite (Hcalls g2 Hg2) in H2.
    injection H1 as <-. injection H2 as <-. reflexivity.
  - intros b a Hb Ha. unfold diffusion_steps.
    rewrite (nth_map_in _ _ _ 0%nat) by (unfold draws; now rewrite length_map, length_seq).
    now apply nth_repeat_lt.
Qed.

Lemma group_shares_diffusion_steps_witness :
  exists calls gen',
    sample_group Examples.env0 (__init__ false Examples.cfg_default)
      Examples.gt0 tt Examples.gen0 = Ok (calls, gen') /\
    length calls = 6%nat /\
    (forall g1 g2 c1 c2,
       nth_error calls g1 = Some c1 -> nth_error calls g2 = Some c2 ->
       call_steps c1 = call_steps c2).
Proof.
  destruct (group_shares_diffusion_steps Examples.env0
              (__init__ false Examples.cfg_default) Examples.gt0 tt
              Examples.gen0 (Nat.lt_0_succ 49))
    as (calls & gen' & H1 & H2 & _ & H4 & _).
  exists calls, gen'. split; [exact H1 | split; [exact H2 | exact H4]].
Defined.

End GroupSampling.

(** * Exceptions of [forward_and_get_loss] *)

Section Exceptions.

Import Examples.

Lemma raises_bind_l {A B : Type} (c : M A) (k : A -> M B) (g : generator) :
  raises (c g) -> raises (bind c k g).
Proof. intros [e He]. exists e. unfold bind. now rewrite He. Qed.

Lemma raises_bind_r {A B : Type} (c : M A) (k : A -> M B) (g : generator) :
  (forall a g', raises (k a g')) -> raises (bind c k g).
Proof.
  intros Hk. unfold bind. destruct (c g) as [[a g'] | e].
  - apply Hk.
  - now exists e.
Qed.

Lemma raises_lift {A : Type} (r : result A) (g : generator) :
  raises r -> raises (lift r g).
Proof. intros [e ->]. now exists e. Qed.

Lemma raises_not_ok {A : Type} (r : result A) :
  raises r -> forall a, r <> Ok a.
Proof. intros [e ->] a. discriminate. Qed.





(** With the denoiser branch switched off nothing looks at the
    prediction type. *)
Lemma predictor_only_returns {E : Type} (env : collaborators E) (self : model)
    (b : batch) (prefix : string) (g : generator) gt enc goal_trajs goal_scores m :
  _train_denoiser self = false -> _train_predictor self = true ->
  prepare_ground_truth env self b = Ok gt ->
  encoder env b = Ok enc ->
  forward_predictor env self enc = Ok (goal_trajs, goal_scores) ->
  calculate_metrics_predict env goal_trajs (gt_agents_future gt)
    (gt_agents_future_valid gt) (gt_agents_interested gt) = Ok m ->
  exists t log,
    DPR.forward_and_get_loss env self b prefix g = Ok (PyTensor t, log, g).
Proof.
  intros Htd Htp Hgt Henc Hfp Hm.
  unfold DPR.forward_and_get_loss, bind, lift, ret.
  rewrite Hgt, Henc, Htd, Htp. unfold predictor_branch. rewrite Hfp.
  destruct (Goal.goal_loss _ _ _ _ _ _ _) as [goal_loss_mean score_loss_mean].
  rewrite Hm. destruct m as [ade fde].
  unfold finish, py_iadd, item. eauto.
Qed.


Lemma finish_int (prefix : string) (z : Z) (log : gmap string tval) :
  finish prefix (PyInt z) log =
  Err (AttributeError "'int' object has no attribute 'item'").
Proof. reflexivity. Qed.

(** C10: with the denoiser and the predictor both untrained, neither
    class returns a loss: [total_loss] is still the Python integer 0 when
    [.item()] is called on it, which raises; and any exception raised
    before that point prevents a loss as well. *)
Theorem no_loss_without_training_branch {E : Type}
    (env : collaborators E) (self : model) (b : batch) (prefix : string)
    (g : generator) :
  _train_denoiser self = false -> _train_predictor self = false ->
  (raises (DPR.forward_and_get_loss env self b prefix g) /\
   raises (DPR_GRPO.forward_and_get_loss env self b prefix g)) /\
  (forall r, DPR.forward_and_get_loss env self b prefix g <> Ok r /\
             DPR_GRPO.forward_and_get_loss env self b prefix g <> Ok r) /\
  (forall gt enc,
     prepare_ground_truth env self b = Ok gt -> encoder env b = Ok enc ->
     DPR.forward_and_get_loss env self b prefix g =
       Err (AttributeError "'int' object has no attribute 'item'") /\
     DPR_GRPO.forward_and_get_loss env self b prefix g =
       Err (AttributeError "'int' object has no attribute 'item'")).
Proof.
  intros Htd Htp.
  assert (H1 : raises (DPR.forward_and_get_loss env self b prefix g)).
  { unfold DPR.forward_and_get_loss.
    apply raises_bind_r. intros gt g1.
    apply raises_bind_r. intros enc g2.
    rewrite Htd, Htp. unfold bind, ret, lift. rewrite finish_int. now eexists. }
  assert (H2 : raises (DPR_GRPO.forward_and_get_loss env self b prefix g)).
  { unfold DPR_GRPO.forward_and_get_loss.
    apply raises_bind_r. intros gt g1.
    apply raises_bind_r. intros enc g2.
    rewrite Htd, Htp. unfold bind, ret, lift. rewrite finish_int. now eexists. }
  split; [now split | split].
  - intros r. split; now apply raises_not_ok.
  - intros gt enc Hgt Henc.
    unfold DPR.forward_and_get_loss, DPR_GRPO.forward_and_get_loss,
      bind, lift, ret.
    rewrite Hgt, Henc, Htd, Htp. now rewrite finish_int.
Qed.

Lemma no_loss_without_training_branch_witness :
  DPR.forward_and_get_loss env0 (__init__ true cfg_nothing_trained)
    batch0 "train/" gen0 =
    Err (AttributeError "'int' object has no attribute 'item'") /\
  DPR_GRPO.forward_and_get_loss env0 (__init__ false cfg_nothing_trained)
    batch0 "train/" gen0 =
    Err (AttributeError "'int' object has no attribute 'item'").
Proof.
  split.
  - destruct (no_loss_without_training_branch env0
                (__init__ true cfg_nothing_trained) batch0 "train/" gen0
                eq_refl eq_refl) as (_ & _ & H).
    edestruct H as [H1 _]; [reflexivity | reflexivity | exact H1].
  - destruct (no_loss_without_training_branch env0
                (__init__ false cfg_nothing_trained) batch0 "train/" gen0
                eq_refl eq_refl) as (_ & _ & H).
    edestruct H as [_ H2]; [reflexivity | reflexivity | exact H2].
Defined.

End Exceptions.

(** * The reference policy *)

Section ReferencePolicy.

Import Lifecycle.

Context {V : Type}.

Lemma alloc_all_spec (ps : list (param V)) :
  forall (h : gmap nat (param V)) ls h',
    alloc_all h ps = (ls, h') ->
    NoDup ls /\
    (forall l, l ∈ ls -> h !! l = None) /\
    (forall l, l ∉ ls -> h' !! l = h !! l) /\
    map (fun l => h' !! l) ls = map Some ps.
Proof.
  induction ps as [|p ps IH]; intros h ls h' H; simpl in H.
  - injection H as <- <-.
    split; [constructor | split; [|split; reflexivity]].
    intros l Hl. now apply elem_of_nil in Hl.
  - destruct (alloc_all (<[fresh (dom h) := p]> h) ps) as [ls1 h1] eqn:Ha.
    injection H as <- <-.
    destruct (IH _ _ _ Ha) as (Hnd & Hfresh & Hsame & Hmap).
    set (l0 := fresh (dom h)) in *.
    assert (Hl0 : h !! l0 = None) by (apply not_elem_of_dom, is_fresh).
    assert (Hl0' : l0 ∉ ls1).
    { intros Hin. apply Hfresh in Hin. rewrite lookup_insert_eq in Hin.
      discriminate. }
    split; [|split; [|split]].
    + now constructor.
    + intros l Hl. apply elem_of_cons in Hl as [-> | Hin]; [assumption|].
      specialize (Hfresh l Hin).
      destruct (decide (l0 = l)) as [<- | Hne].
      * rewrite lookup_insert_eq in Hfresh. discriminate.
      * now rewrite lookup_insert_ne in Hfresh.
    + intros l Hnin. apply not_elem_of_cons in Hnin as [Hne Hnin].
      rewrite Hsame by assumption. now apply lookup_insert_ne.
    + simpl. f_equal; [|assumption].
      rewrite Hsame by assumption. apply lookup_insert_eq.
Qed.

(** In-place updates of a list of tensors. *)
Lemma foldr_alter_other {X : Type} (key : X -> nat)
    (F : X -> param V -> param V) (xs : list X) (h : gmap nat (param V)) l :
  (forall x, x ∈ xs -> key x <> l) ->
  foldr (fun x h => alter (F x) (key x) h) h xs !! l = h !! l.
Proof.
  induction xs as [|x xs IH]; intros Hl; simpl; [reflexivity|].
  rewrite lookup_alter_ne by (apply Hl; now left).
  apply IH. intros y Hy. apply Hl. now right.
Qed.

Lemma foldr_alter_proj {X A : Type} (key : X -> nat)
    (F : X -> param V -> param V) (proj : param V -> A)
    (xs : list X) (h : gmap nat (param V)) l :
  (forall x p, proj (F x p) = proj p) ->
  proj <$> foldr (fun x h => alter (F x) (key x) h) h xs !! l = proj <$> h !! l.
Proof.
  intros HF. induction xs as [|x xs IH]; simpl; [reflexivity|].
  destruct (decide (key x = l)) as [<- | Hne].
  - rewrite lookup_alter_eq, <- IH.
    destruct (foldr _ h xs !! key x); simpl; [now rewrite HF | reflexivity].
  - now rewrite lookup_alter_ne.
Qed.

Lemma fmap_is_Some {A B : Type} (f : A -> B) (o1 o2 : option A) :
  f <$> o1 = f <$> o2 -> is_Some o2 -> is_Some o1.
Proof. destruct o1, o2; simpl; intros H [x Hx]; try discriminate; eauto. Qed.

Lemma set_requires_grad_other flag ls (h : gmap nat (param V)) l :
  l ∉ ls -> set_requires_grad flag ls h !! l = h !! l.
Proof.
  intros Hl. unfold set_requires_grad.
  apply (foldr_alter_other (fun x => x)
           (fun _ p => {| data := data p; requires_grad := flag |})).
  intros x Hx ->. contradiction.
Qed.

Lemma set_requires_grad_data flag ls (h : gmap nat (param V)) l :
  data <$> set_requires_grad flag ls h !! l = data <$> h !! l.
Proof.
  unfold set_requires_grad.
  apply (foldr_alter_proj (fun x => x)
           (fun _ p => {| data := data p; requires_grad := flag |}) data).
  reflexivity.
Qed.

Lemma set_requires_grad_in flag ls (h : gmap nat (param V)) l p :
  l ∈ ls -> set_requires_grad flag ls h !! l = Some p ->
  requires_grad p = flag.
Proof.
  unfold set_requires_grad. revert p.
  induction ls as [|l0 ls IH]; intros p Hin H; simpl in *.
  - now apply elem_of_nil in Hin.
  - destruct (decide (l0 = l)) as [<- | Hne].
    + rewrite lookup_alter_eq in H.
      destruct (foldr _ h ls !! l0); simpl in H; [|discriminate].
      now injection H as <-.
    + rewrite lookup_alter_ne in H by assumption.
      apply elem_of_cons in Hin as [-> | Hin]; [contradiction|]. now apply IH.
Qed.

(** Disabling gradients never enables one. *)
Lemma set_requires_grad_false_frozen ls (h : gmap nat (param V)) l :
  (exists p, h !! l = Some p /\ requires_grad p = false) ->
  exists p, set_requires_grad false ls h !! l = Some p /\
            requires_grad p = false.
Proof.
  intros (p & Hp & Hf).
  destruct (decide (l ∈ ls)) as [Hin | Hnin].
  - pose proof (set_requires_grad_data false ls h l) as Hd.
    rewrite Hp in Hd.
    destruct (set_requires_grad false ls h !! l) as [q|] eqn:Hq;
      [|discriminate].
    exists q. split; [reflexivity|].
    now apply (set_requires_grad_in false ls h l).
  - exists p. now rewrite set_requires_grad_other.
Qed.

Lemma set_requires_grad_alive flag ls (h : gmap nat (param V)) l :
  is_Some (h !! l) -> is_Some (set_requires_grad flag ls h !! l).
Proof. apply fmap_is_Some with (f := data). apply set_requires_grad_data. Qed.

Lemma state_dict_values (h : gmap nat (param V)) (m : module) :
  (forall l, l ∈ parameters m -> is_Some (h !! l)) ->
  map Some (state_dict h m) = map (fun l => data <$> h !! l) (parameters m).
Proof.
  unfold state_dict, read_all.
  induction (parameters m) as [|l ls IH]; intros H; [reflexivity|].
  destruct (H l ltac:(now left)) as [p Hp].
  cbn [omap list_omap]. rewrite Hp. cbn [map]. rewrite Hp.
  cbn [fmap option_fmap option_map].
  f_equal. apply IH. intros l' Hl'. apply H. now right.
Qed.

Lemma load_state_dict_other ls (vs : list V) (h : gmap nat (param V)) l :
  l ∉ ls -> load_state_dict ls vs h !! l = h !! l.
Proof.
  intros Hl. unfold load_state_dict.
  apply (foldr_alter_other fst
           (fun lv p => {| data := snd lv; requires_grad := requires_grad p |})).
  intros [l' v] Hin Heq. simpl in Heq. subst l'.
  apply Hl. apply list_elem_of_In. apply list_elem_of_In in Hin.
  now apply in_combine_l in Hin.
Qed.

Lemma load_state_dict_flags ls (vs : list V) (h : gmap nat (param V)) l :
  requires_grad <$> load_state_dict ls vs h !! l = requires_grad <$> h !! l.
Proof.
  unfold load_state_dict.
  apply (foldr_alter_proj fst
           (fun lv p => {| data := snd lv; requires_grad := requires_grad p |})
           requires_grad).
  reflexivity.
Qed.

(** After loading, the parameters hold the loaded values. *)
Lemma load_state_dict_values ls : forall (vs : list V) (h : gmap nat (param V)),
  NoDup ls -> length ls = length vs ->
  (forall l, l ∈ ls -> is_Some (h !! l)) ->
  map (fun l => data <$> load_state_dict ls vs h !! l) ls = map Some vs.
Proof.
  induction ls as [|l0 ls IH]; intros [|v0 vs] h Hnd Hlen Hs;
    try discriminate; [reflexivity|].
  apply NoDup_cons in Hnd as [Hnin Hnd].
  change (load_state_dict (l0 :: ls) (v0 :: vs) h)
    with (alter (fun p => {| data := v0; requires_grad := requires_grad p |})
                l0 (load_state_dict ls vs h)).
  cbn [map]. f_equal.
  - rewrite lookup_alter_eq, load_state_dict_other by assumption.
    destruct (Hs l0 ltac:(now left)) as [p ->]. reflexivity.
  - rewrite <- (IH vs h Hnd)
      by (simpl in Hlen; try lia; intros; apply Hs; now right).
    apply map_ext_in. intros l Hl.
    rewrite lookup_alter_ne; [reflexivity|]. intros <-.
    apply Hnin. now apply list_elem_of_In.
Qed.

End ReferencePolicy.

Section ReferenceLifecycle.

Import Lifecycle.

Context {V : Type}.

Lemma read_all_of_lookups (h : gmap nat (param V)) ls :
  forall ps, map (fun l => h !! l) ls = map Some ps -> read_all h ls = ps.
Proof.
  unfold read_all.
  induction ls as [|l ls IH]; intros [|p ps] H; try discriminate;
    [reflexivity|].
  injection H as Hl Hrest. cbn [omap list_omap]. rewrite Hl.
  f_equal. now apply IH.
Qed.

Lemma lookups_alive (h : gmap nat (param V)) ls :
  forall ps, map (fun l => h !! l) ls = map Some ps ->
  forall l, l ∈ ls -> is_Some (h !! l).
Proof.
  induction ls as [|l0 ls IH]; intros [|p ps] H l Hl; try discriminate.
  - now apply elem_of_nil in Hl.
  - injection H as Hl0 Hrest.
    apply elem_of_cons in Hl as [-> | Hl]; [now rewrite Hl0 | eauto].
Qed.

Lemma new_module_spec (h : gmap nat (param V)) (init : list V) m h' :
  new_module h init = (m, h') ->
  NoDup (parameters m) /\
  (forall l, l ∈ parameters m -> h !! l = None) /\
  (forall l, l ∉ parameters m -> h' !! l = h !! l) /\
  map (fun l => h' !! l) (parameters m) =
    map Some (map (fun v => {| data := v; requires_grad := true |}) init).
Proof.
  unfold new_module. intros H.
  destruct (alloc_all h _) as [ls h1] eqn:Ha. injection H as <- <-.
  exact (alloc_all_spec _ _ _ _ Ha).
Qed.

Lemma map_data_fresh (init : list V) :
  map (fmap data)
      (map Some (map (fun v => {| data := v; requires_grad := true |}) init)) =
  map Some init.
Proof. rewrite !map_map. now apply map_ext. Qed.

(** The module as [__init__] leaves it. *)
Lemma init_reference (encoder_init denoiser_init : list V)
    (predictor_init : option (list V)) :
  let s := __init__ encoder_init denoiser_init predictor_init in
  reference_invariant s /\
  values s (reference_model s) = map Some denoiser_init /\
  values s (denoiser s) = map Some denoiser_init /\
  training (reference_model s) = false.
Proof.
  unfold __init__.
  destruct (new_module ∅ encoder_init) as [encm h1] eqn:He.
  destruct (new_module h1 denoiser_init) as [denm h2] eqn:Hd.
  destruct (deepcopy h2 denm) as [refm h3'] eqn:Hr.
  destruct (new_module_spec _ _ _ _ Hd) as (Hdn & Hdf & Hds & Hdm).
  unfold deepcopy in Hr.
  rewrite (read_all_of_lookups _ _ _ Hdm) in Hr.
  destruct (alloc_all h2 _) as [Rf h3] eqn:Ha. injection Hr as <- <-.
  destruct (alloc_all_spec _ _ _ _ Ha) as (Hrn & Hrf & Hrs & Hrm).
  cbn [eval parameters].
  set (h4 := set_requires_grad false Rf h3).
  assert (Hsep : forall l, l ∈ Rf -> l ∉ parameters denm).
  { intros l Hl Hl'. apply Hrf in Hl.
    destruct (lookups_alive _ _ _ Hdm l Hl') as [p Hp]. congruence. }
  assert (Hfr4 : forall l, l ∈ Rf ->
             exists p, h4 !! l = Some p /\ requires_grad p = false).
  { intros l Hl.
    destruct (set_requires_grad_alive false Rf h3 l
                (lookups_alive _ _ _ Hrm l Hl)) as [p Hp].
    exists p. split; [exact Hp|].
    now apply (set_requires_grad_in false Rf h3 l). }
  assert (Hden4 : forall l, l ∈ parameters denm -> h4 !! l = h2 !! l).
  { intros l Hl. unfold h4.
    assert (l ∉ Rf) by (intros Hin; now apply (Hsep l Hin)).
    now rewrite set_requires_grad_other, Hrs. }
  destruct (match predictor_init with
            | Some init => let (m, h) := new_module h4 init in (Some m, h)
            | None => (None, h4)
            end) as [predm h5] eqn:Hp.
  assert (H45 : forall l, is_Some (h4 !! l) -> h5 !! l = h4 !! l).
  { intros l [p Hl]. destruct predictor_init as [init|].
    - destruct (new_module h4 init) as [m h] eqn:Hn. injection Hp as <- <-.
      destruct (new_module_spec _ _ _ _ Hn) as (_ & Hpf & Hps & _).
      apply Hps. intros Hin. apply Hpf in Hin. congruence.
    - now injection Hp as <- <-. }
  cbn zeta. unfold values. cbn [store reference_model denoiser parameters eval].
  split; [|split; [|split]].
  - constructor; cbn [store reference_model denoiser parameters eval optimizer].
    + exact Hrn.
    + exact Hsep.
    + intros l Hl. destruct (Hfr4 l Hl) as (p & Hp4 & Hf).
      exists p. split; [|exact Hf]. rewrite H45; [exact Hp4 | now rewrite Hp4].
    + intros l Hl. rewrite H45; rewrite Hden4 by assumption;
        exact (lookups_alive _ _ _ Hdm l Hl).
    + apply (f_equal (@length _)) in Hrm, Hdm.
      rewrite !length_map in Hrm, Hdm. congruence.
    + intros l Hl. now apply elem_of_nil in Hl.
  - rewrite <- map_data_fresh, <- Hrm, map_map.
    apply map_ext_in. intros l Hl. apply list_elem_of_In in Hl.
    destruct (Hfr4 l Hl) as (p & Hp4 & _).
    rewrite H45 by now rewrite Hp4. unfold h4.
    apply set_requires_grad_data.
  - rewrite <- map_data_fresh, <- Hdm, map_map.
    apply map_ext_in. intros l Hl. apply list_elem_of_In in Hl.
    rewrite H45; rewrite Hden4 by assumption;
      [reflexivity | exact (lookups_alive _ _ _ Hdm l Hl)].
  - reflexivity.
Qed.

Lemma frozen_if (c : bool) ls (h : gmap nat (param V)) l :
  (exists p, h !! l = Some p /\ requires_grad p = false) ->
  exists p, (if c then h else set_requires_grad false ls h) !! l = Some p /\
            requires_grad p = false.
Proof.
  destruct c; [trivial | apply set_requires_grad_false_frozen].
Qed.

Lemma data_if (c : bool) ls (h : gmap nat (param V)) l :
  data <$> (if c then h else set_requires_grad false ls h) !! l =
  data <$> h !! l.
Proof. destruct c; [reflexivity | apply set_requires_grad_data]. Qed.

(** [configure_optimizers] changes flags only, never those of the
    reference model to [True], and keeps the reference model out of the
    optimizer. *)
Lemma configure_reference (self : model) (s s' : trainer V) :
  configure_optimizers self s = Ok s' ->
  reference_invariant s ->
  reference_invariant s' /\
  (forall m, values s' m = values s m) /\
  reference_model s' = reference_model s /\ denoiser s' = denoiser s.
Proof.
  unfold configure_optimizers. intros H Inv.
  set (h1 := if _train_encoder self then store s
             else set_requires_grad false (parameters (encoder s)) (store s)) in H.
  set (h2 := if _train_denoiser self then h1
             else set_requires_grad false (parameters (denoiser s)) h1) in H.
  set (h3 := if _with_predictor self && negb (_train_predictor self)
             then match predictor s with
                  | Some m => set_requires_grad false (parameters m) h2
                  | None => h2
                  end
             else h2) in H.
  assert (Hdata : forall l, data <$> h3 !! l = data <$> store s !! l).
  { intros l. transitivity (data <$> h2 !! l).
    - unfold h3. destruct (_ && _); [|reflexivity].
      destruct (predictor s); [apply set_requires_grad_data | reflexivity].
    - unfold h2, h1. now rewrite !data_if. }
  assert (Hfrozen : forall l,
            (exists p, store s !! l = Some p /\ requires_grad p = false) ->
            exists p, h3 !! l = Some p /\ requires_grad p = false).
  { intros l Hl.
    assert (H2 : exists p, h2 !! l = Some p /\ requires_grad p = false)
      by (unfold h2, h1; now do 2 apply frozen_if).
    unfold h3. destruct (_ && _); [|exact H2].
    destruct (predictor s); [now apply set_requires_grad_false_frozen | exact H2]. }
  destruct (0 <? _)%nat; [|discriminate]. injection H as <-.
  destruct Inv as [I1 I2 I3 I4 I5 I6].
  split; [|split; [|split; reflexivity]].
  - constructor; cbn [store reference_model denoiser optimizer]; try assumption.
    + intros l Hl. apply Hfrozen. now apply I3.
    + intros l Hl. apply (fmap_is_Some data _ (store s !! l)); [apply Hdata | now apply I4].
    + intros l Hl Hin. apply list_elem_of_In, List.filter_In in Hl as [_ Hflag].
      destruct (Hfrozen l (I3 l Hin)) as (p & Hp & Hf).
      rewrite Hp, Hf in Hflag. discriminate.
  - intros m. unfold values. cbn [store]. apply map_ext. intros l. apply Hdata.
Qed.

(** An optimizer step does not touch the reference model. *)
Lemma training_step_reference (update : nat -> V -> V) (s : trainer V) :
  reference_invariant s ->
  reference_invariant (training_step update s) /\
  values (training_step update s) (reference_model s) =
    values s (reference_model s).
Proof.
  intros [I1 I2 I3 I4 I5 I6].
  set (F := fun (l : nat) (p : param V) =>
              {| data := update l (data p); requires_grad := requires_grad p |}).
  assert (Hother : forall l, l ∈ parameters (reference_model s) ->
            store (training_step update s) !! l = store s !! l).
  { intros l Hl. cbn [training_step store].
    apply (foldr_alter_other (fun x => x) F).
    intros x Hx ->. now apply (I6 l Hx). }
  assert (Hflag : forall l,
            requires_grad <$> store (training_step update s) !! l =
            requires_grad <$> store s !! l).
  { intros l. cbn [training_step store].
    now apply (foldr_alter_proj (fun x => x) F requires_grad). }
  split.
  - constructor; cbn [training_step reference_model denoiser optimizer];
      try assumption.
    + intros l Hl. rewrite Hother by assumption. now apply I3.
    + intros l Hl. apply (fmap_is_Some requires_grad _ (store s !! l));
        [apply Hflag | now apply I4].
  - unfold values. apply map_ext_in. intros l Hl.
    apply list_elem_of_In in Hl. now rewrite Hother.
Qed.

(** The end of an epoch overwrites the reference model with the values of
    the denoiser and leaves its flags as they were. *)
Lemma epoch_end_reference (s : trainer V) :
  reference_invariant s ->
  reference_invariant (on_train_epoch_end s) /\
  values (on_train_epoch_end s) (reference_model (on_train_epoch_end s)) =
    values s (denoiser s) /\
  values (on_train_epoch_end s) (denoiser s) = values s (denoiser s) /\
  training (reference_model (on_train_epoch_end s)) = false.
Proof.
  intros [I1 I2 I3 I4 I5 I6].
  set (vs := state_dict (store s) (denoiser s)).
  assert (Hvs : map Some vs = values s (denoiser s))
    by now apply state_dict_values.
  assert (Hlen : length (parameters (reference_model s)) = length vs).
  { apply (f_equal (@length _)) in Hvs. unfold values in Hvs.
    rewrite !length_map in Hvs. congruence. }
  split; [|split; [|split]].
  - constructor;
      cbn [on_train_epoch_end store reference_model denoiser optimizer
           eval parameters]; try assumption.
    + intros l Hl. destruct (I3 l Hl) as (p & Hp & Hf).
      pose proof (load_state_dict_flags (parameters (reference_model s)) vs
                    (store s) l) as Hfl.
      rewrite Hp in Hfl. fold vs.
      destruct (load_state_dict _ vs (store s) !! l) as [q|]; [|discriminate].
      exists q. split; [reflexivity|]. simpl in Hfl. congruence.
    + intros l Hl. fold vs. rewrite load_state_dict_other; [now apply I4|].
      intros Hin. now apply (I2 l Hin).
  - unfold values at 1.
    cbn [on_train_epoch_end store reference_model eval parameters]. fold vs.
    rewrite load_state_dict_values; [exact Hvs | assumption | assumption |].
    intros l Hl. destruct (I3 l Hl) as (p & -> & _). eauto.
  - unfold values. cbn [on_train_epoch_end store]. fold vs.
    apply map_ext_in. intros l Hl. apply list_elem_of_In in Hl.
    rewrite load_state_dict_other; [reflexivity|].
    intros Hin. now apply (I2 l Hin).
  - reflexivity.
Qed.

Lemma run_reference (evs : list (event V)) :
  forall s : trainer V,
    reference_invariant s -> reference_invariant (run s evs).
Proof.
  unfold run. induction evs as [|ev evs IH]; intros s Inv; [exact Inv|].
  simpl. apply IH. destruct ev as [update|]; simpl.
  - now apply training_step_reference.
  - now apply epoch_end_reference.
Qed.

(** C4: the reference model is created as a copy of the denoiser, with
    tensors of its own and gradients disabled on each; at every later
    time its parameters still require no gradient, are shared neither
    with the denoiser nor with the optimizer, are left as they are by a
    training step, and are overwritten with the denoiser's current values
    at the end of an epoch. *)
Theorem reference_policy_lifecycle
    (self : model) (encoder_init denoiser_init : list V)
    (predictor_init : option (list V)) (s0 : trainer V)
    (evs : list (event V)) :
  configure_optimizers self
    (__init__ encoder_init denoiser_init predictor_init) = Ok s0 ->
  let created := __init__ encoder_init denoiser_init predictor_init in
  let s := run s0 evs in
  (values created (reference_model created) = map Some denoiser_init /\
   values created (denoiser created) = map Some denoiser_init /\
   values s0 (reference_model s0) = values s0 (denoiser s0)) /\
  (forall l, l ∈ parameters (reference_model s) ->
     (exists p, store s !! l = Some p /\ requires_grad p = false) /\
     (l ∉ parameters (denoiser s)) /\ (l ∉ optimizer s)) /\
  (forall update,
     values (training_step update s) (reference_model s) =
     values s (reference_model s)) /\
  (values (on_train_epoch_end s) (reference_model (on_train_epoch_end s)) =
     values s (denoiser s) /\
   values (on_train_epoch_end s) (denoiser s) = values s (denoiser s) /\
   forall l, l ∈ parameters (reference_model (on_train_epoch_end s)) ->
     exists p, store (on_train_epoch_end s) !! l = Some p /\
               requires_grad p = false).
Proof.
  intros Hc created s.
  destruct (init_reference encoder_init denoiser_init predictor_init)
    as (Inv0 & Hr0 & Hd0 & _).
  fold created in Inv0, Hr0, Hd0.
  destruct (configure_reference self created s0 Hc Inv0)
    as (Inv1 & Hv1 & Hrm & Hdm).
  pose proof (run_reference evs s0 Inv1) as Inv. fold s in Inv.
  destruct (epoch_end_reference s Inv) as (InvE & He1 & He2 & _).
  split; [|split; [|split]].
  - split; [exact Hr0 | split; [exact Hd0|]].
    rewrite !Hv1, Hrm, Hdm. now rewrite Hr0, Hd0.
  - intros l Hl. split; [now apply (ref_frozen s Inv) | split].
    + now apply (ref_separate s Inv).
    + intros Hin. now apply (ref_not_optimized s Inv l Hin).
  - intros update. now apply training_step_reference.
  - split; [exact He1 | split; [exact He2|]].
    intros l Hl. now apply (ref_frozen _ InvE).
Qed.

End ReferenceLifecycle.

Lemma reference_policy_lifecycle_witness :
  exists s0,
    Lifecycle.configure_optimizers (__init__ false Examples.cfg_default)
      (Lifecycle.__init__ [1%Z] [2%Z; 3%Z] None) = Ok s0 /\
    let s := Lifecycle.run s0 [Lifecycle.TrainingStep (fun _ v => (v + 1)%Z)] in
    Lifecycle.values (Lifecycle.on_train_epoch_end s)
      (Lifecycle.reference_model (Lifecycle.on_train_epoch_end s)) =
    Lifecycle.values s (Lifecycle.denoiser s).
Proof.
  destruct (Lifecycle.configure_optimizers
              (__init__ false Examples.cfg_default)
              (Lifecycle.__init__ [1%Z] [2%Z; 3%Z] None)) as [s|e] eqn:Hc.
  - exists s. split; [reflexivity|].
    destruct (reference_policy_lifecycle
                (__init__ false Examples.cfg_default)
                [1%Z] [2%Z; 3%Z] None s
                [Lifecycle.TrainingStep (fun _ v => (v + 1)%Z)] Hc)
      as (_ & _ & _ & H & _).
    exact H.
  - vm_compute in Hc. discriminate Hc.
Defined.

(** * Further properties of the loss engines *)

(** ** Normalization of actions *)

Section Normalization.

Lemma map2_round_trip {A B : Type} (f g : A -> B -> A) (a : list A) :
  forall ms : list B,
    length a = length ms ->
    (forall x m, In m ms -> f (g x m) m = x) ->
    map2 f (map2 g a ms) ms = a.
Proof.
  unfold map2. induction a as [|x a IH]; intros [|m ms] Hlen Hfg;
    try discriminate; [reflexivity|].
  simpl. f_equal.
  - apply Hfg. now left.
  - apply IH; [now injection Hlen | intros; apply Hfg; now right].
Qed.

Lemma map3_id_in {A : Type} (f : A -> A) (P : A -> Prop)
    (t : list (list (list A))) :
  Forall (Forall (Forall P)) t -> (forall a, P a -> f a = a) ->
  map (map (map f)) t = t.
Proof.
  intros Ht Hf.
  induction Ht as [|m t Hm _ IHt]; simpl; [reflexivity|]. f_equal; [|exact IHt].
  induction Hm as [|r m Hr _ IHm]; simpl; [reflexivity|]. f_equal; [|exact IHm].
  induction Hr as [|a r Ha _ IHr]; simpl; [reflexivity|]. f_equal; auto.
Qed.

Lemma map3_map3 {A B C : Type} (f : B -> C) (g : A -> B)
    (t : list (list (list A))) :
  map (map (map f)) (map (map (map g)) t) =
  map (map (map (fun a => f (g a)))) t.
Proof.
  rewrite map_map. apply map_ext. intros m.
  rewrite map_map. apply map_ext. intros r. apply map_map.
Qed.

(** X1: with statistics of equal length, no zero among the standard
    deviations, and action vectors as long as the statistics,
    [unnormalize_actions] undoes [normalize_actions] and conversely. *)
Theorem normalize_unnormalize_round_trip (self : model) (actions : tensor4) :
  length (_action_std self) = length (_action_mean self) ->
  Forall (fun s => s <> 0) (_action_std self) ->
  Forall (Forall (Forall (fun a => length a = length (_action_mean self))))
         actions ->
  unnormalize_actions self (normalize_actions self actions) = actions /\
  normalize_actions self (unnormalize_actions self actions) = actions.
Proof.
  intros Hlen Hstd Hshape.
  set (ms := combine (_action_mean self) (_action_std self)).
  assert (Hms : length ms = length (_action_mean self)).
  { unfold ms. rewrite length_combine, Hlen. apply Nat.min_id. }
  assert (Hnz : forall m, In m ms -> snd m <> 0).
  { intros [mu s] Hin. apply in_combine_r in Hin. simpl.
    rewrite Forall_forall in Hstd. apply Hstd. now apply list_elem_of_In. }
  unfold unnormalize_actions, normalize_actions. fold ms.
  split; rewrite map3_map3;
    apply (map3_id_in _ (fun a => length a = length (_action_mean self)));
    try assumption;
    intros a Ha; apply map2_round_trip; try congruence;
    intros x p Hp; specialize (Hnz p Hp); now field.
Qed.

Lemma normalize_unnormalize_round_trip_witness :
  let self := __init__ true Examples.cfg_default in
  unnormalize_actions self (normalize_actions self [[[[3; 4]]]]) = [[[[3; 4]]]] /\
  normalize_actions self (unnormalize_actions self [[[[3; 4]]]]) = [[[[3; 4]]]].
Proof.
  apply (normalize_unnormalize_round_trip
           (__init__ true Examples.cfg_default) [[[[3; 4]]]]).
  - reflexivity.
  - repeat constructor; simpl; lra.
  - repeat constructor.
Defined.

End Normalization.

(** ** The learning-rate factor *)

Section LearningRate.

Import Schedule.


Lemma lr_clamp_inside (s : R) :
  1 / 100 <= s <= 1 ->
  (if Rlt_dec s (1 / 100) then 1 / 100
   else if Rlt_dec 1 s then 1 else s) = s.
Proof.
  intros H. destruct (Rlt_dec s (1 / 100)); [lra|].
  destruct (Rlt_dec 1 s); lra.
Qed.

Lemma lr_clamp_mono (s s' : R) :
  s <= s' ->
  (if Rlt_dec s (1 / 100) then 1 / 100
   else if Rlt_dec 1 s then 1 else s) <=
  (if Rlt_dec s' (1 / 100) then 1 / 100
   else if Rlt_dec 1 s' then 1 else s').
Proof.
  intros H.
  destruct (Rlt_dec s (1 / 100)), (Rlt_dec s' (1 / 100)),
    (Rlt_dec 1 s), (Rlt_dec 1 s'); lra.
Qed.

Lemma pow_antitone (gamma : R) (n m : nat) :
  0 <= gamma <= 1 -> (n <= m)%nat -> gamma ^ m <= gamma ^ n.
Proof.
  intros Hg Hnm. induction Hnm as [|m Hnm IH]; [lra|].
  simpl. assert (0 <= gamma ^ m) by (apply pow_le; lra).
  assert (0 <= gamma ^ n) by (apply pow_le; lra). nra.
Qed.

Lemma lr_update_decay (step warmup_step step_size : Z) (gamma : R) :
  (warmup_step <= step)%Z -> (0 < step_size)%Z ->
  lr_update step warmup_step step_size gamma =
  Value (let s := gamma ^ Z.to_nat ((step - warmup_step) / step_size) in
         if Rlt_dec s (1 / 100) then 1 / 100
         else if Rlt_dec 1 s then 1 else s).
Proof.
  intros Hw Hs. unfold lr_update.
  destruct (Z.ltb_spec step warmup_step); [lia|].
  destruct (Z.eqb_spec step_size 0); [lia|].
  assert (0 <= (step - warmup_step) / step_size)%Z
    by (apply Z.div_pos; lia).
  destruct (Z.leb_spec 0 ((step - warmup_step) / step_size)); [|lia].
  reflexivity.
Qed.



(** X3: during warm-up the factor grows linearly in the step, from 0.05
    at step 0, and is not clipped. *)
Theorem lr_update_warmup_ramp (step warmup_step step_size : Z) (gamma : R) :
  (0 <= step < warmup_step)%Z ->
  lr_update step warmup_step step_size gamma =
    Value (5 / 100 + 95 / 100 * (IZR step / IZR warmup_step)) /\
  5 / 100 <= 5 / 100 + 95 / 100 * (IZR step / IZR warmup_step) < 1.
Proof.
  intros [H0 Hlt].
  assert (Hw : 0 < IZR warmup_step) by (apply IZR_lt; lia).
  assert (Hs0 : 0 <= IZR step) by (apply IZR_le; lia).
  assert (Hsw : IZR step < IZR warmup_step) by now apply IZR_lt.
  set (q := IZR step / IZR warmup_step).
  assert (Hq : q * IZR warmup_step = IZR step) by (unfold q; field; lra).
  assert (Hq01 : 0 <= q < 1) by (split; nra).
  split; [|lra].
  unfold lr_update.
  destruct (Z.ltb_spec step warmup_step); [|lia].
  destruct (Z.eqb_spec warmup_step 0); [lia|].
  f_equal. rewrite minus_IZR.
  replace (1 - (IZR warmup_step - IZR step) / IZR warmup_step * (95 / 100))
    with (5 / 100 + 95 / 100 * q) by (unfold q; field; lra).
  apply lr_clamp_inside. lra.
Qed.

Lemma lr_update_warmup_ramp_witness :
  lr_update 0 10 100 (98 / 100) =
    Value (5 / 100 + 95 / 100 * (IZR 0 / IZR 10)).
Proof. apply (lr_update_warmup_ramp 0 10 100 (98 / 100)). lia. Defined.

(** X4: once warm-up is over the factor is exactly 1 for the first
    [step_size] steps, and from then on, for a decay base between 0 and
    1, it never increases with the step. *)
Theorem lr_update_decay_monotone
    (step1 step2 warmup_step step_size : Z) (gamma : R) :
  (warmup_step <= step1 <= step2)%Z -> (0 < step_size)%Z ->
  0 <= gamma <= 1 ->
  exists s1 s2,
    lr_update step1 warmup_step step_size gamma = Value s1 /\
    lr_update step2 warmup_step step_size gamma = Value s2 /\
    s2 <= s1 /\
    ((step1 < warmup_step + step_size)%Z -> s1 = 1).
Proof.
  intros [Hw H12] Hs Hg.
  rewrite !lr_update_decay by lia.
  do 2 eexists. split; [reflexivity | split; [reflexivity | split]].
  - cbv zeta. apply lr_clamp_mono. apply pow_antitone; [assumption|].
    apply Z2Nat.inj_le; try (apply Z.div_pos; lia).
    apply Z.div_le_mono; lia.
  - intros Hfirst. cbv zeta.
    rewrite Z.div_small by lia. simpl. apply lr_clamp_inside. lra.
Qed.

Lemma lr_update_decay_monotone_witness :
  exists s1 s2,
    lr_update 10 10 100 (98 / 100) = Value s1 /\
    lr_update 250 10 100 (98 / 100) = Value s2 /\
    s2 <= s1 /\ ((10 < 10 + 100)%Z -> s1 = 1).
Proof.
  apply (lr_update_decay_monotone 10 250 10 100 (98 / 100)); [lia | lia | lra].
Defined.

End LearningRate.

(** ** More on the GRPO objective *)

Section ObjectiveFacts.

Import DPR_GRPO.

Lemma Rsum_map_plus_const (f : nat -> R) (c : R) (l : list nat) :
  Rsum (map (fun i => f i + c) l) = Rsum (map f l) + INR (length l) * c.
Proof.
  induction l as [|i l IH].
  - simpl. lra.
  - change (length (i :: l)) with (S (length l)). rewrite S_INR.
    simpl. rewrite IH. lra.
Qed.

Lemma sum_upto_plus_const (n : nat) (f : nat -> R) (c : R) :
  sum_upto n (fun i => f i + c) = sum_upto n f + INR n * c.
Proof.
  unfold sum_upto. now rewrite Rsum_map_plus_const, length_seq.
Qed.

Lemma map_ext_in_sum_upto (n : nat) (f f' : nat -> R) :
  (forall i, (i < n)%nat -> f i = f' i) -> sum_upto n f = sum_upto n f'.
Proof.
  intros H. unfold sum_upto. f_equal. apply map_ext_in.
  intros i Hi. apply in_seq in Hi. apply H. lia.
Qed.

Lemma at_gb_shift (rewards_gb : tensor2) (c : tensor1) (B g b : nat) :
  Forall (fun row => length row = B) rewards_gb -> length c = B ->
  (g < length rewards_gb)%nat -> (b < B)%nat ->
  at_gb (map (fun row => map2 Rplus row c) rewards_gb) g b =
  at_gb rewards_gb g b + nth b c 0.
Proof.
  intros Hrows Hc Hg Hb. unfold at_gb.
  rewrite (nth_map_in _ _ _ []) by assumption.
  assert (Hrow : length (nth g rewards_gb []) = B).
  { rewrite Forall_forall in Hrows. apply Hrows.
    apply list_elem_of_In. now apply nth_In. }
  now rewrite (map2_nth _ _ _ _ 0 0) by lia.
Qed.

Lemma grpo_loss_ext (B : nat) (beta : R) (r1 r2 ratios_gb : tensor2) :
  length ratios_gb = length r1 -> length r2 = length r1 ->
  spec_policy_loss B (length r1) r1 ratios_gb =
  spec_policy_loss B (length r1) r2 ratios_gb ->
  grpo_loss B beta r1 ratios_gb = grpo_loss B beta r2 ratios_gb.
Proof.
  intros H1 H2 Hp.
  destruct (grpo_loss_index_form B beta r1 ratios_gb H1) as (Hp1 & _ & _).
  destruct (grpo_loss_index_form B beta r2 ratios_gb ltac:(congruence))
    as (Hp2 & _ & _).
  cbn zeta in Hp1, Hp2. rewrite H2 in Hp2.
  assert (Heq : policy_loss_v (grpo_loss B beta r1 ratios_gb) =
                policy_loss_v (grpo_loss B beta r2 ratios_gb)) by congruence.
  unfold grpo_loss in *. cbn [policy_loss_v] in Heq.
  now rewrite Heq.
Qed.

(** X5: the objective does not see a reward baseline: adding to the
    rewards of each batch element a constant of its own, the same for
    every candidate of the group, leaves the policy loss, the KL penalty
    and the total loss unchanged. *)
Theorem grpo_loss_baseline_invariant
    (B : nat) (beta : R) (rewards_gb ratios_gb : tensor2) (c : tensor1) :
  length ratios_gb = length rewards_gb ->
  Forall (fun row => length row = B) rewards_gb -> length c = B ->
  grpo_loss B beta (map (fun row => map2 Rplus row c) rewards_gb) ratios_gb =
  grpo_loss B beta rewards_gb ratios_gb.
Proof.
  intros Hlen Hrows Hc. symmetry.
  apply grpo_loss_ext; [assumption | now rewrite length_map |].
  unfold spec_policy_loss. f_equal. apply mean_bg_ext.
  intros b g Hb Hg. f_equal. unfold centered.
  rewrite (at_gb_shift _ _ B) by assumption.
  rewrite (map_ext_in_sum_upto (length rewards_gb)
             (fun g' => at_gb (map (fun row => map2 Rplus row c) rewards_gb) g' b)
             (fun g' => at_gb rewards_gb g' b + nth b c 0))
    by (intros; now apply (at_gb_shift _ _ B)).
  rewrite sum_upto_plus_const.
  assert (INR (length rewards_gb) <> 0) by (apply not_0_INR; lia).
  field. assumption.
Qed.

Lemma grpo_loss_baseline_invariant_witness :
  grpo_loss 2 (1 / 10)
    (map (fun row => map2 Rplus row [5; 7]) [[1; 2]; [3; 4]]) [[1; 2]; [1; 1]] =
  grpo_loss 2 (1 / 10) [[1; 2]; [3; 4]] [[1; 2]; [1; 1]].
Proof.
  apply (grpo_loss_baseline_invariant 2 (1 / 10) [[1; 2]; [3; 4]]
           [[1; 2]; [1; 1]] [5; 7]); [reflexivity | | reflexivity].
  repeat constructor.
Defined.

(** X6: with a single candidate per group every advantage is 0, so the
    policy loss vanishes and the total loss is the KL penalty alone. *)
Theorem grpo_loss_single_candidate
    (B : nat) (beta : R) (rewards_gb ratios_gb : tensor2) :
  length rewards_gb = 1%nat -> length ratios_gb = 1%nat ->
  let l := grpo_loss B beta rewards_gb ratios_gb in
  policy_loss_v l = 0 /\ total_loss l = kl_penalty l.
Proof.
  intros Hr Hq l.
  destruct (grpo_loss_index_form B beta rewards_gb ratios_gb ltac:(congruence))
    as (Hp & _ & Ht).
  fold l in Hp, Ht. rewrite Hr in Hp.
  assert (Hzero : policy_loss_v l = 0).
  { rewrite Hp. unfold spec_policy_loss.
    rewrite (mean_bg_ext B 1 _ (fun _ _ => 0)).
    - unfold mean_bg, sum_upto. simpl.
      replace (Rsum (map (fun _ : nat => 0 + 0) (seq 0 B))) with 0.
      + unfold Rdiv. rewrite Rmult_0_l. apply Ropp_0.
      + induction (seq 0 B) as [|i s IH]; simpl; [reflexivity | rewrite <- IH; lra].
    - intros b g Hb Hg. assert (g = 0%nat) as -> by lia.
      unfold centered, sum_upto. simpl. field_simplify_eq; lra. }
  split; [exact Hzero | rewrite Ht, Hzero; lra].
Qed.

Lemma grpo_loss_single_candidate_witness :
  let l := grpo_loss 2 (1 / 10) [[3; 4]] [[2; 5]] in
  policy_loss_v l = 0 /\ total_loss l = kl_penalty l.
Proof.
  apply (grpo_loss_single_candidate 2 (1 / 10) [[3; 4]] [[2; 5]]); reflexivity.
Defined.

Lemma ln_le_minus_1 (r : R) : 0 < r -> ln r <= r - 1.
Proof.
  intros Hr. pose proof (exp_ineq1_le (ln r)) as H.
  rewrite exp_ln in H by assumption. lra.
Qed.

Lemma ln_small : ln (1 / 100000000) <= - 1.
Proof.
  rewrite <- (ln_exp (- 1)).
  assert (Hpos : 0 < 1 / 100000000) by lra.
  destruct (Rle_lt_dec (1 / 100000000) (exp (- 1))) as [Hle | Hgt].
  - destruct Hle as [Hlt | Heq].
    + left. apply ln_increasing; assumption.
    + right. now rewrite Heq.
  - exfalso. pose proof exp_le_3 as H3.
    assert (Hone : exp (- 1) * exp 1 = 1)
      by (rewrite <- exp_plus; replace (- 1 + 1) with 0 by ring; apply exp_0).
    pose proof (exp_pos (- 1)). pose proof (exp_pos 1). nra.
Qed.

Lemma kl_term_nonneg (r : R) :
  0 <= r -> 0 <= r - 1 - ln (clamp r (1 / 100000000) 10).
Proof.
  intros Hr.
  destruct (Rlt_le_dec r (1 / 100000000)) as [Hlo | Hlo].
  - unfold clamp. rewrite Rmax_right by lra. rewrite Rmin_left by lra.
    pose proof ln_small. lra.
  - destruct (Rle_lt_dec r 10) as [Hhi | Hhi].
    + rewrite clamp_inside by lra. pose proof (ln_le_minus_1 r). lra.
    + rewrite clamp_above by lra. pose proof (ln_le_minus_1 10). lra.
Qed.

Lemma mean_nonneg (l : tensor1) : Forall (fun x => 0 <= x) l -> 0 <= mean l.
Proof.
  intros H. unfold mean.
  assert (Hs : 0 <= Rsum l).
  { induction H as [|x l Hx _ IH]; simpl; [lra | lra]. }
  destruct l as [|x l].
  - simpl. unfold Rdiv. rewrite Rmult_0_l. lra.
  - apply Rmult_le_pos; [assumption|]. left. apply Rinv_0_lt_compat.
    apply lt_0_INR. simpl. lia.
Qed.

Lemma permute_nonneg (B : nat) (t : tensor2) :
  Forall (Forall (fun x => 0 <= x)) t ->
  Forall (Forall (fun x => 0 <= x)) (permute_1_0 B t).
Proof.
  intros Ht. unfold permute_1_0.
  apply Forall_forall. intros row Hrow.
  apply list_elem_of_In, in_map_iff in Hrow as (b & <- & _).
  apply Forall_forall. intros x Hx.
  apply list_elem_of_In, in_map_iff in Hx as (r & <- & Hr).
  rewrite Forall_forall in Ht. specialize (Ht r ltac:(now apply list_elem_of_In)).
  destruct (Nat.lt_ge_cases b (length r)) as [Hb | Hb].
  - rewrite Forall_forall in Ht. apply Ht.
    apply list_elem_of_In. now apply nth_In.
  - rewrite nth_overflow by assumption. lra.
Qed.

Lemma ratios_nonneg (ref_diff diffs : tensor2) :
  Forall (Forall (fun x => 0 <= x)) (ratios ref_diff diffs).
Proof.
  unfold ratios, map2.
  apply Forall_forall. intros row Hrow.
  apply list_elem_of_In, in_map_iff in Hrow as ([r c] & <- & _).
  apply Forall_forall. intros x Hx.
  apply list_elem_of_In, in_map_iff in Hx as ([a b] & <- & _).
  simpl. left. apply exp_pos.
Qed.

(** X7: the ratios are exponentials, and for such ratios and a
    nonnegative weight [beta] the KL penalty is never negative,
    clamping included. *)
Theorem grpo_kl_penalty_nonneg
    (B : nat) (beta : R) (rewards_gb ref_diff diffs : tensor2) :
  0 <= beta ->
  0 <= kl_penalty (grpo_loss B beta rewards_gb (ratios ref_diff diffs)).
Proof.
  intros Hb. unfold grpo_loss. cbn [kl_penalty].
  apply Rmult_le_pos; [assumption|].
  unfold kl_div, log_ratios. rewrite map2_map_r.
  unfold mean2. apply mean_nonneg.
  pose proof (permute_nonneg B _ (ratios_nonneg ref_diff diffs)) as Hp.
  apply Forall_forall. intros x Hx.
  apply list_elem_of_In, in_concat in Hx as (row & Hrow & Hx).
  apply in_map_iff in Hrow as (r & <- & Hr).
  rewrite map2_map_r in Hx. apply in_map_iff in Hx as (y & <- & Hy).
  apply kl_term_nonneg.
  rewrite Forall_forall in Hp. specialize (Hp r ltac:(now apply list_elem_of_In)).
  rewrite Forall_forall in Hp. apply Hp. now apply list_elem_of_In.
Qed.

Lemma grpo_kl_penalty_nonneg_witness :
  0 <= kl_penalty (grpo_loss 1 (1 / 10) [[1]; [2]]
                     (ratios [[3]; [0]] [[0]; [30]])).
Proof.
  apply (grpo_kl_penalty_nonneg 1 (1 / 10) [[1]; [2]] [[3]; [0]] [[0]; [30]]).
  lra.
Defined.

End ObjectiveFacts.

(** ** A reference model equal to the denoiser *)

Section IdenticalPolicies.

Import DPR_GRPO.

Lemma map2_diag {A C : Type} (f : A -> A -> C) (l : list A) :
  map2 f l l = map (fun x => f x x) l.
Proof.
  unfold map2. induction l as [|x l IH]; simpl; [reflexivity | now f_equal].
Qed.

Lemma mean2_zero (t : tensor2) :
  Forall (Forall (fun x => x = 0)) t -> mean2 t = 0.
Proof.
  intros H. unfold mean2, mean.
  assert (Hs : Rsum (concat t) = 0).
  { induction H as [|row t Hrow _ IH]; simpl; [reflexivity|].
    rewrite Rsum_app, IH.
    induction Hrow as [|x row Hx _ IHr]; simpl; [lra | subst; lra]. }
  rewrite Hs. unfold Rdiv. apply Rmult_0_l.
Qed.

Lemma map2_rows_zero (f : R -> R -> R) (t1 t2 : tensor2)
    (P : R -> Prop) :
  Forall (Forall P) t2 -> (forall a b, P b -> f a b = 0) ->
  Forall (Forall (fun x => x = 0)) (map2 (map2 f) t1 t2).
Proof.
  intros Ht Hf. unfold map2.
  apply Forall_forall. intros row Hrow.
  apply list_elem_of_In, in_map_iff in Hrow as ([r1 r2] & <- & Hin).
  apply in_combine_r in Hin. simpl.
  rewrite Forall_forall in Ht. specialize (Ht r2 ltac:(now apply list_elem_of_In)).
  apply Forall_forall. intros x Hx.
  apply list_elem_of_In, in_map_iff in Hx as ([a b] & <- & Hab).
  apply in_combine_r in Hab. simpl. apply Hf.
  rewrite Forall_forall in Ht. apply Ht. now apply list_elem_of_In.
Qed.

Lemma ratios_diag_ones (B : nat) (d : tensor2) :
  Forall (fun row => (B <= length row)%nat) d ->
  Forall (Forall (fun x => x = 1)) (permute_1_0 B (ratios d d)).
Proof.
  intros Hd. unfold ratios. rewrite map2_diag. unfold permute_1_0.
  apply Forall_forall. intros row Hrow.
  apply list_elem_of_In, in_map_iff in Hrow as (b & <- & Hb).
  apply in_seq in Hb.
  apply Forall_forall. intros x Hx.
  apply list_elem_of_In, in_map_iff in Hx as (r & <- & Hr).
  apply in_map_iff in Hr as (r0 & <- & Hr0).
  rewrite Forall_forall in Hd. specialize (Hd r0 ltac:(now apply list_elem_of_In)).
  rewrite map2_diag. rewrite (nth_map_in _ _ _ 0) by lia.
  rewrite Rminus_diag. apply exp_0.
Qed.

Lemma clamp_one : clamp 1 (1 / 100000000) 10 = 1.
Proof. apply clamp_inside. lra. Qed.

(** The objective when every ratio is 1. *)
Lemma grpo_loss_ratio_one (B : nat) (beta : R) (rewards_gb ratios_gb : tensor2) :
  Forall (Forall (fun x => x = 1)) (permute_1_0 B ratios_gb) ->
  let l := grpo_loss B beta rewards_gb ratios_gb in
  policy_loss_v l = 0 /\ kl_penalty l = 0 /\ total_loss l = 0.
Proof.
  intros Hone l.
  assert (Hlr : Forall (Forall (fun x => x = 0))
                  (log_ratios (permute_1_0 B ratios_gb))).
  { unfold log_ratios.
    apply Forall_forall. intros row Hrow.
    apply list_elem_of_In, in_map_iff in Hrow as (r & <- & Hr).
    rewrite Forall_forall in Hone.
    specialize (Hone r ltac:(now apply list_elem_of_In)).
    apply Forall_forall. intros x Hx.
    apply list_elem_of_In, in_map_iff in Hx as (y & <- & Hy).
    rewrite Forall_forall in Hone.
    rewrite (Hone y ltac:(now apply list_elem_of_In)), clamp_one. apply ln_1. }
  assert (Hp : policy_loss_v l = 0).
  { unfold l, grpo_loss. cbn [policy_loss_v]. unfold policy_loss.
    rewrite mean2_zero; [apply Ropp_0|].
    apply (map2_rows_zero Rmult _ _ (fun x => x = 0)); [exact Hlr|].
    intros a b ->. ring. }
  assert (Hk : kl_penalty l = 0).
  { unfold l, grpo_loss. cbn [kl_penalty]. unfold kl_div, log_ratios.
    rewrite map2_map_r, mean2_zero; [ring|].
    apply Forall_forall. intros row Hrow.
    apply list_elem_of_In, in_map_iff in Hrow as (r & <- & Hr).
    rewrite Forall_forall in Hone.
    specialize (Hone r ltac:(now apply list_elem_of_In)).
    rewrite map2_map_r.
    apply Forall_forall. intros x Hx.
    apply list_elem_of_In, in_map_iff in Hx as (y & <- & Hy).
    rewrite Forall_forall in Hone.
    rewrite (Hone y ltac:(now apply list_elem_of_In)), clamp_one, ln_1. ring. }
  split; [exact Hp | split; [exact Hk|]].
  unfold l, grpo_loss in *. cbn [policy_loss_v kl_penalty total_loss] in *.
  rewrite Hp, Hk. ring.
Qed.

Lemma action_differences_rows (B : nat) (actions : tensor5) (gt : tensor4)
    (valid : mask3) :
  Forall (fun actions_g => (B <= length actions_g)%nat) actions ->
  (B <= length gt)%nat -> (B <= length valid)%nat ->
  Forall (fun row => (B <= length row)%nat)
         (action_differences actions gt valid).
Proof.
  intros Ha Hg Hv. unfold action_differences.
  apply Forall_forall. intros row Hrow.
  apply list_elem_of_In, in_map_iff in Hrow as (a & <- & Hin).
  rewrite Forall_forall in Ha. specialize (Ha a ltac:(now apply list_elem_of_In)).
  rewrite action_diff_length. lia.
Qed.

(** X8: when the reference model's actions are the denoiser's, as they
    are while the two hold the same parameters, every ratio is 1 and the
    policy loss, the KL penalty and the total loss are 0, whatever the
    rewards. *)
Theorem identical_policies_zero_loss
    (B : nat) (beta : R) (rewards_gb : tensor2) (actions : tensor5)
    (gt : tensor4) (valid : mask3) :
  Forall (fun actions_g => (B <= length actions_g)%nat) actions ->
  (B <= length gt)%nat -> (B <= length valid)%nat ->
  let d := action_differences actions gt valid in
  let l := grpo_loss B beta rewards_gb (ratios d d) in
  policy_loss_v l = 0 /\ kl_penalty l = 0 /\ total_loss l = 0.
Proof.
  intros Ha Hg Hv d l. apply grpo_loss_ratio_one.
  apply ratios_diag_ones. now apply action_differences_rows.
Qed.

Lemma identical_policies_zero_loss_witness :
  let d := action_differences [[[[[1; 2]]]]; [[[[0; 5]]]]] [[[[1; 1]]]]
             [[[true]]] in
  let l := grpo_loss 1 (1 / 10) [[4]; [9]] (ratios d d) in
  policy_loss_v l = 0 /\ kl_penalty l = 0 /\ total_loss l = 0.
Proof.
  apply (identical_policies_zero_loss 1 (1 / 10) [[4]; [9]]
           [[[[[1; 2]]]]; [[[[0; 5]]]]] [[[[1; 1]]]] [[[true]]]);
    [repeat constructor | simpl; lia | simpl; lia].
Defined.

(** X9: [DPR_GRPO.forward_denoiser] extends [DPR.forward_denoiser]: when
    it returns, the supervised version returns the same four entries; and
    when the reference network computes what the denoiser computes, it
    returns exactly when the supervised version does, with every [_old]
    entry equal to its counterpart. *)
Theorem forward_denoiser_extends {E : Type}
    (env : collaborators E) (self : model) (encoder_outputs : E)
    (noised : tensor4) (diffusion_step : steps) (agents_future : tensor4) :
  (forall out,
     forward_denoiser env self encoder_outputs noised diffusion_step
       agents_future = Ok out ->
     DPR.forward_denoiser env self encoder_outputs noised diffusion_step
       agents_future =
     Ok {| DPR.denoiser_output := denoiser_output out;
           DPR.denoised_actions_normalized := denoised_actions_normalized out;
           DPR.denoised_actions := denoised_actions out;
           DPR.denoised_trajs := denoised_trajs out |}) /\
  ((forall e a s f, reference_model env e a s f = denoiser env e a s f) ->
   forward_denoiser env self encoder_outputs noised diffusion_step
     agents_future =
   match DPR.forward_denoiser env self encoder_outputs noised diffusion_step
           agents_future with
   | Ok o =>
       Ok {| denoiser_output := DPR.denoiser_output o;
             denoised_actions_normalized := DPR.denoised_actions_normalized o;
             denoised_actions := DPR.denoised_actions o;
             denoised_trajs := DPR.denoised_trajs o;
             denoiser_output_old := DPR.denoiser_output o;
             denoised_actions_normalized_old :=
               DPR.denoised_actions_normalized o;
             denoised_actions_old := DPR.denoised_actions o;
             denoised_trajs_old := DPR.denoised_trajs o |}
   | Err e => Err e
   end).
Proof.
  split.
  - intros out. unfold forward_denoiser, DPR.forward_denoiser.
    destruct (denoiser env _ _ _ _) as [o|]; [|discriminate].
    destruct (reference_model env _ _ _ _) as [o'|]; [|discriminate].
    destruct (q_x0 env o _ _ _) as [n|]; [|discriminate].
    destruct (q_x0 env o' _ _ _) as [n'|]; [|discriminate].
    destruct (current_states env self encoder_outputs) as [st|]; [|discriminate].
    destruct (roll_out env st (unnormalize_actions self n) _) as [tr|];
      [|discriminate].
    destruct (roll_out env st (unnormalize_actions self n') _) as [tr'|];
      [|discriminate].
    intros H. injection H as <-. reflexivity.
  - intros Hsame. unfold forward_denoiser, DPR.forward_denoiser.
    rewrite Hsame.
    destruct (denoiser env _ _ _ _) as [o|]; [|reflexivity].
    destruct (q_x0 env o _ _ _) as [n|]; [|reflexivity].
    destruct (current_states env self encoder_outputs) as [st|]; [|reflexivity].
    destruct (roll_out env st (unnormalize_actions self n) _) as [tr|];
      reflexivity.
Qed.

Lemma forward_denoiser_extends_witness :
  forward_denoiser Examples.env0 (__init__ false Examples.cfg_default) tt
    [[[[1; 2]]]] [[3%nat]] [[[[0; 0; 0; 0; 0]]]] =
  match DPR.forward_denoiser Examples.env0 (__init__ false Examples.cfg_default)
          tt [[[[1; 2]]]] [[3%nat]] [[[[0; 0; 0; 0; 0]]]] with
  | Ok o =>
      Ok {| denoiser_output := DPR.denoiser_output o;
            denoised_actions_normalized := DPR.denoised_actions_normalized o;
            denoised_actions := DPR.denoised_actions o;
            denoised_trajs := DPR.denoised_trajs o;
            denoiser_output_old := DPR.denoiser_output o;
            denoised_actions_normalized_old :=
              DPR.denoised_actions_normalized o;
            denoised_actions_old := DPR.denoised_actions o;
            denoised_trajs_old := DPR.denoised_trajs o |}
  | Err e => Err e
  end.
Proof.
  apply (forward_denoiser_extends Examples.env0
           (__init__ false Examples.cfg_default) tt [[[[1; 2]]]] [[3%nat]]
           [[[[0; 0; 0; 0; 0]]]]).
  reflexivity.
Defined.

End IdenticalPolicies.

(** ** The GRPO branch while the reference model equals the denoiser *)

Section AfterSync.

Import DPR_GRPO.


Lemma append_inj_l (p a b : string) : (p +:+ a = p +:+ b)%string -> a = b.
Proof.
  induction p as [|c p IH]; simpl; intros H; [assumption|].
  injection H as H. now apply IH.
Qed.






End AfterSync.

(** ** Bounds on the supervised losses *)

Section LossBounds.

Import Losses.

Lemma smooth_l1_loss_nonneg (x y : R) : 0 <= smooth_l1_loss x y.
Proof.
  unfold smooth_l1_loss. cbv zeta.
  pose proof (Rabs_pos (x - y)) as Hd.
  destruct (Rlt_dec (Rabs (x - y)) 1); nra.
Qed.

Lemma Rsum_nonneg (l : tensor1) : Forall (fun x => 0 <= x) l -> 0 <= Rsum l.
Proof. intros H. induction H as [|x l Hx _ IH]; simpl; lra. Qed.

Lemma map2_Forall {A B C : Type} (f : A -> B -> C) (P : C -> Prop)
    (l1 : list A) (l2 : list B) :
  (forall a b, In a l1 -> In b l2 -> P (f a b)) -> Forall P (map2 f l1 l2).
Proof.
  intros H. unfold map2. apply Forall_forall. intros c Hc.
  apply list_elem_of_In, in_map_iff in Hc as ([a b] & <- & Hab).
  apply H; [eapply in_combine_l | eapply in_combine_r]; exact Hab.
Qed.

Lemma yaw_error_range (pred_yaw true_yaw : R) :
  - PI < yaw_error pred_yaw true_yaw <= PI.
Proof.
  destruct (wrap_exists (pred_yaw - true_yaw)) as (k & d & He & Hd).
  now rewrite (yaw_error_representative _ _ d k He Hd).
Qed.

Lemma yaw_loss_elem_range (pred_yaw true_yaw : R) :
  0 <= yaw_loss_elem pred_yaw true_yaw <= PI.
Proof.
  unfold yaw_loss_elem. pose proof (yaw_error_range pred_yaw true_yaw).
  split; [apply Rabs_pos|]. apply Rabs_le. lra.
Qed.

Lemma masked_row_bounds (c : R) (x : tensor1) :
  forall m : list bool,
    0 <= c -> Forall (fun v => 0 <= v <= c) x ->
    0 <= Rsum (map2 mask_mul x m) <= c * INR (count1 m).
Proof.
  unfold map2, count1, Rsum.
  induction x as [|v x IH]; intros [|b m] Hc Hx; cbn -[INR].
  - cbn. lra.
  - pose proof (pos_INR (length (List.filter (fun b => b) (b :: m)))).
    cbn -[INR] in *. nra.
  - cbn. lra.
  - apply Forall_cons_iff in Hx as [Hv Hx].
    specialize (IH m Hc Hx).
    destruct b; cbn -[INR].
    + rewrite S_INR. nra.
    + nra.
Qed.

Lemma masked_sum2_bounds (c : R) (x : tensor2) :
  forall m : mask2,
    0 <= c -> Forall (Forall (fun v => 0 <= v <= c)) x ->
    0 <= sum2 (map2 (map2 mask_mul) x m) <= c * INR (count2 m).
Proof.
  unfold sum2, count2.
  induction x as [|r x IH]; intros [|mr m] Hc Hx; cbn -[INR count1];
    try (cbn; lra).
  { pose proof (pos_INR (count1 (mr ++ concat m))). nra. }
  apply Forall_cons_iff in Hx as [Hr Hx].
  specialize (IH m Hc Hx).
  change (map2 (map2 mask_mul) (r :: x) (mr :: m))
    with (map2 mask_mul r mr :: map2 (map2 mask_mul) x m).
  cbn [concat]. rewrite Rsum_app, count1_app, plus_INR.
  pose proof (masked_row_bounds c r mr Hc Hr). unfold map2 in *. nra.
Qed.

Lemma masked_sum3_bounds (c : R) (x : tensor3) :
  forall m : mask3,
    0 <= c -> Forall (Forall (Forall (fun v => 0 <= v <= c))) x ->
    0 <= sum3 (map2 (map2 (map2 mask_mul)) x m) <= c * INR (count3 m).
Proof.
  unfold sum3, count3.
  induction x as [|r x IH]; intros [|mr m] Hc Hx; cbn -[INR count1];
    try (cbn; lra).
  { pose proof (pos_INR (count1 (concat (mr ++ concat m)))). nra. }
  apply Forall_cons_iff in Hx as [Hr Hx].
  specialize (IH m Hc Hx).
  change (map2 (map2 (map2 mask_mul)) (r :: x) (mr :: m))
    with (map2 (map2 mask_mul) r mr :: map2 (map2 (map2 mask_mul)) x m).
  cbn [concat]. rewrite !concat_app, Rsum_app, count1_app, plus_INR.
  pose proof (masked_sum2_bounds c r mr Hc Hr) as H2.
  unfold sum2, count2 in H2. unfold map2 in *. nra.
Qed.

Lemma masked_row_nonneg (x : tensor1) :
  forall m : list bool,
    Forall (fun v => 0 <= v) x -> 0 <= Rsum (map2 mask_mul x m).
Proof.
  unfold map2, Rsum.
  induction x as [|v x IH]; intros [|b m] Hx; cbn; try lra.
  apply Forall_cons_iff in Hx as [Hv Hx]. specialize (IH m Hx).
  destruct b; cbn; lra.
Qed.

Lemma masked_sum2_nonneg (x : tensor2) :
  forall m : mask2,
    Forall (Forall (fun v => 0 <= v)) x ->
    0 <= sum2 (map2 (map2 mask_mul) x m).
Proof.
  unfold sum2.
  induction x as [|r x IH]; intros [|mr m] Hx; try (cbn; lra).
  apply Forall_cons_iff in Hx as [Hr Hx]. specialize (IH m Hx).
  change (map2 (map2 mask_mul) (r :: x) (mr :: m))
    with (map2 mask_mul r mr :: map2 (map2 mask_mul) x m).
  cbn [concat]. rewrite Rsum_app.
  pose proof (masked_row_nonneg r mr Hr). lra.
Qed.

Lemma masked_sum3_nonneg (x : tensor3) :
  forall m : mask3,
    Forall (Forall (Forall (fun v => 0 <= v))) x ->
    0 <= sum3 (map2 (map2 (map2 mask_mul)) x m).
Proof.
  unfold sum3.
  induction x as [|r x IH]; intros [|mr m] Hx; try (cbn; lra).
  apply Forall_cons_iff in Hx as [Hr Hx]. specialize (IH m Hx).
  change (map2 (map2 (map2 mask_mul)) (r :: x) (mr :: m))
    with (map2 (map2 mask_mul) r mr :: map2 (map2 (map2 mask_mul)) x m).
  cbn [concat]. rewrite !concat_app, Rsum_app.
  pose proof (masked_sum2_nonneg r mr Hr) as H2. unfold sum2 in H2. lra.
Qed.

Lemma tdiv_nonzero (num : R) (n : nat) :
  n <> 0%nat -> tdiv num (INR n) = Fin (num / INR n).
Proof.
  intros Hn. unfold tdiv.
  destruct (Req_dec_T (INR n) 0) as [H0 | _]; [|reflexivity].
  change 0 with (INR 0) in H0. apply INR_eq in H0. contradiction.
Qed.

(** X11: when at least one future step is valid for an interested
    agent, [denoise_loss] returns two finite means: the position loss is
    not negative, and the heading loss lies between 0 and pi. *)
Theorem denoise_loss_bounds
    (denoised_trajs agents_future : tensor4) (agents_future_valid : mask3)
    (agents_interested : list (list Z)) :
  count3 (future_mask agents_future_valid agents_interested) <> 0%nat ->
  exists state_loss_mean yaw_loss_mean,
    denoise_loss denoised_trajs agents_future agents_future_valid
      agents_interested = (Fin state_loss_mean, Fin yaw_loss_mean) /\
    0 <= state_loss_mean /\ 0 <= yaw_loss_mean <= PI.
Proof.
  intros Hn. unfold denoise_loss. cbv zeta.
  set (mask := future_mask agents_future_valid agents_interested) in *.
  rewrite !tdiv_nonzero by assumption.
  do 2 eexists. split; [reflexivity|].
  assert (Hpos : 0 < INR (count3 mask)) by (apply lt_0_INR; lia).
  pose proof PI_RGT_0 as Hpi.
  split.
  - apply Rmult_le_pos; [|left; now apply Rinv_0_lt_compat].
    apply masked_sum3_nonneg.
    apply map2_Forall. intros a b _ _.
    apply map2_Forall. intros a1 b1 _ _.
    apply map2_Forall. intros p g _ _.
    apply Rsum_nonneg. apply map2_Forall. intros x y _ _.
    apply smooth_l1_loss_nonneg.
  - match goal with
    | |- 0 <= sum3 ?t / _ <= _ =>
        assert (Hb : 0 <= sum3 t <= PI * INR (count3 mask))
    end.
    { apply masked_sum3_bounds; [lra|].
      apply map2_Forall. intros a b _ _.
      apply map2_Forall. intros a1 b1 _ _.
      apply map2_Forall. intros p g _ _.
      apply yaw_loss_elem_range. }
    split.
    + apply Rmult_le_pos; [lra | left; now apply Rinv_0_lt_compat].
    + apply Rmult_le_reg_r with (INR (count3 mask)); [assumption|].
      unfold Rdiv. rewrite Rmult_assoc, Rinv_l by lra. lra.
Qed.

Lemma denoise_loss_bounds_witness :
  exists state_loss_mean yaw_loss_mean,
    denoise_loss [[[[0; 0; -3.13; 0; 0]]]]
      [[[[1; 1; 3.13; 0; 0]; [0; 0; 3.13; 0; 0]]]] [[[true; true]]] [[1%Z]] =
      (Fin state_loss_mean, Fin yaw_loss_mean) /\
    0 <= state_loss_mean /\ 0 <= yaw_loss_mean <= PI.
Proof.
  apply (denoise_loss_bounds [[[[0; 0; -3.13; 0; 0]]]]
           [[[[1; 1; 3.13; 0; 0]; [0; 0; 3.13; 0; 0]]]] [[[true; true]]]
           [[1%Z]]).
  simpl. discriminate.
Defined.

End LossBounds.

(** ** A batch without interested agents *)

Section NoInterestedAgent.

Import Losses Examples.

Lemma count1_all_false (m : list bool) :
  Forall (fun v => v = false) m -> count1 m = 0%nat.
Proof.
  unfold count1. intros H.
  induction H as [|v m -> _ IH]; [reflexivity | exact IH].
Qed.

Lemma future_mask_no_interest (valid : mask3) (interested : list (list Z)) :
  Forall (Forall (fun i => (i <= 0)%Z)) interested ->
  count3 (future_mask valid interested) = 0%nat.
Proof.
  intros H. unfold count3. apply count1_all_false.
  apply Forall_concat, Forall_concat. unfold future_mask.
  apply map2_Forall. intros v i _ Hi.
  apply map2_Forall. intros v1 i1 _ Hi1.
  assert (Hle : (i1 <= 0)%Z).
  { rewrite Forall_forall in H. specialize (H i (proj2 (list_elem_of_In _ _) Hi)).
    rewrite Forall_forall in H. exact (H i1 (proj2 (list_elem_of_In _ _) Hi1)). }
  apply Forall_forall. intros x Hx.
  apply list_elem_of_In, in_map_iff in Hx as (y & <- & _).
  replace (0 <? i1)%Z with false by (symmetry; apply Z.ltb_ge; exact Hle).
  apply andb_false_r.
Qed.

Lemma action_mask_no_interest (valid : mask3) (interested : list (list Z)) :
  Forall (Forall (fun i => (i <= 0)%Z)) interested ->
  count3 (action_mask valid interested) = 0%nat.
Proof.
  intros H. unfold count3. apply count1_all_false.
  apply Forall_concat, Forall_concat. unfold action_mask.
  apply map2_Forall. intros v i _ Hi.
  apply map2_Forall. intros v1 i1 _ Hi1.
  assert (Hle : (i1 <= 0)%Z).
  { rewrite Forall_forall in H. specialize (H i (proj2 (list_elem_of_In _ _) Hi)).
    rewrite Forall_forall in H. exact (H i1 (proj2 (list_elem_of_In _ _) Hi1)). }
  apply Forall_forall. intros x Hx.
  apply list_elem_of_In, in_map_iff in Hx as (y & <- & _).
  replace (0 <? i1)%Z with false by (symmetry; apply Z.ltb_ge; exact Hle).
  apply andb_false_r.
Qed.

Lemma interested_mask_no_interest (interested : list (list Z)) :
  Forall (Forall (fun i => (i <= 0)%Z)) interested ->
  count1 (map (fun i => (0 <? i)%Z) (concat interested)) = 0%nat.
Proof.
  intros H. apply count1_all_false.
  apply Forall_forall. intros x Hx.
  apply list_elem_of_In, in_map_iff in Hx as (i & <- & Hi).
  apply Forall_concat in H. rewrite Forall_forall in H.
  apply Z.ltb_ge. apply H. now apply list_elem_of_In.
Qed.

Lemma tdiv_0_0_nan : tdiv 0 0 = NaN.
Proof. exact tdiv_zero_zero. Qed.

Lemma tadd_nan_r (a : tval) : tadd a NaN = NaN.
Proof. now destruct a. Qed.

Lemma py_iadd_nan (v : pyval) : py_iadd v NaN = PyTensor NaN.
Proof. destruct v as [z | s]; simpl; [reflexivity | now rewrite tadd_nan_r]. Qed.

Lemma denoise_loss_no_interest (trajs future : tensor4) (valid : mask3)
    (interested : list (list Z)) :
  Forall (Forall (fun i => (i <= 0)%Z)) interested ->
  denoise_loss trajs future valid interested = (NaN, NaN).
Proof.
  intros H. apply (future_mask_no_interest valid) in H.
  unfold denoise_loss. cbv zeta. rewrite H.
  rewrite !masked_sum3_zero by exact H.
  change (INR 0) with 0. now rewrite tdiv_0_0_nan.
Qed.

Lemma action_loss_no_interest (actions actions_gt : tensor4) (valid : mask3)
    (interested : list (list Z)) :
  Forall (Forall (fun i => (i <= 0)%Z)) interested ->
  action_loss actions actions_gt valid interested = NaN.
Proof.
  intros H. apply (action_mask_no_interest valid) in H.
  unfold action_loss. cbv zeta. rewrite H.
  rewrite masked_sum3_zero by exact H.
  change (INR 0) with 0. now rewrite tdiv_0_0_nan.
Qed.

Lemma goal_loss_no_interest (tr : tensor4 -> tensor3 -> tensor4)
    (trajs : tensor5) (scores : tensor3) (future : tensor4) (valid : mask3)
    (anchors : tensor4) (interested : list (list Z)) :
  Forall (Forall (fun i => (i <= 0)%Z)) interested ->
  Goal.goal_loss tr trajs scores future valid anchors interested = (NaN, NaN).
Proof.
  intros H.
  pose proof (future_mask_no_interest valid _ H) as Hm.
  pose proof (interested_mask_no_interest _ H) as Hi.
  unfold Goal.goal_loss. cbv zeta.
  unfold Goal.traj_loss, Goal.score_loss. cbv zeta.
  cbn [Goal.prepare Goal.p_traj_mask].
  rewrite Hm, Hi.
  rewrite masked_sum2_zero by exact Hm.
  rewrite masked_row_zero by exact Hi.
  change (INR 0) with 0. now rewrite tdiv_0_0_nan.
Qed.

Lemma prepare_ground_truth_interested {E : Type} (env : collaborators E)
    (self : model) (b : batch) (gt : ground_truth) :
  prepare_ground_truth env self b = Ok gt ->
  gt_agents_interested gt =
    map (firstn (_agents_len self)) (agents_interested b).
Proof.
  unfold prepare_ground_truth.
  destruct (inverse_kinematics env _ _ _) as [[a v]|]; [|discriminate].
  intros H. now injection H as <-.
Qed.

Lemma no_interest_firstn (n : nat) (interested : list (list Z)) :
  Forall (Forall (fun i => (i <= 0)%Z)) interested ->
  Forall (Forall (fun i => (i <= 0)%Z)) (map (firstn n) interested).
Proof.
  intros H. induction H as [|r l Hr _ IH]; simpl; constructor;
    [now apply Forall_take | exact IH].
Qed.

Lemma predictor_branch_no_interest {E : Type} (env : collaborators E)
    (self : model) (gt : ground_truth) (enc : E) (prefix : string)
    (total total' : pyval) (log log' : gmap string tval) :
  Forall (Forall (fun i => (i <= 0)%Z)) (gt_agents_interested gt) ->
  predictor_branch env self gt enc prefix total log = Ok (total', log') ->
  total' = PyTensor NaN.
Proof.
  intros H. unfold predictor_branch.
  destruct (forward_predictor env self enc) as [[goal_trajs goal_scores]|];
    [|discriminate].
  rewrite goal_loss_no_interest by exact H.
  destruct (calculate_metrics_predict env _ _ _ _) as [[ade fde]|];
    [|discriminate].
  intros Hr. injection Hr as <- _.
  cbn [tscale tadd]. apply py_iadd_nan.
Qed.

Lemma prediction_type_branch_no_interest {E : Type} (env : collaborators E)
    (self : model) (gt : ground_truth) out noised noise steps
    (prefix : string) (total total' : pyval) (log log' : gmap string tval) :
  Forall (Forall (fun i => (i <= 0)%Z)) (gt_agents_interested gt) ->
  _prediction_type self = "sample"%string \/
  _prediction_type self = "mean"%string ->
  DPR.prediction_type_branch env self gt out noised noise steps prefix
    total log = Ok (total', log') ->
  total' = PyTensor NaN.
Proof.
  intros H [Ht | Ht]; unfold DPR.prediction_type_branch; rewrite Ht; cbn [String.eqb].
  - rewrite denoise_loss_no_interest by exact H.
    destruct (get_noise env _ _ _ _) as [d|]; [|discriminate].
    intros Hr. injection Hr as <- _. cbn [tadd]. apply py_iadd_nan.
  - simpl. rewrite action_loss_no_interest by exact H.
    intros Hr. injection Hr as <- _. apply py_iadd_nan.
Qed.

Lemma denoiser_branch_no_interest {E : Type} (env : collaborators E)
    (self : model) (gt : ground_truth) (enc : E) (prefix : string)
    (total total' : pyval) (log log' : gmap string tval) (g g' : generator) :
  Forall (Forall (fun i => (i <= 0)%Z)) (gt_agents_interested gt) ->
  _prediction_type self = "sample"%string \/
  _prediction_type self = "mean"%string ->
  DPR.denoiser_branch env self gt enc prefix total log g =
    Ok (total', log', g') ->
  total' = PyTensor NaN.
Proof.
  intros H Ht. unfold DPR.denoiser_branch. cbv zeta.
  unfold bind at 1.
  destruct (draw_diffusion_steps _ _ _ g) as [[st g1]|]; [|discriminate].
  unfold bind at 1.
  destruct (randn _ _ _ _ g1) as [[noise g2]|]; [|discriminate].
  unfold bind at 1.
  match goal with
  | |- context [match ?c g2 with _ => _ end] =>
      destruct (c g2) as [[noised g3]|]; [|discriminate]
  end.
  unfold bind, lift, ret.
  destruct (DPR.forward_denoiser env self enc noised st _) as [out|];
    [|discriminate].
  destruct (DPR.prediction_type_branch env self gt out noised noise st prefix
              total log) as [[t l]|] eqn:Hb; [|discriminate].
  destruct (calculate_metrics_denoise env _ _ _ _) as [[ade fde]|];
    [|discriminate].
  intros Hr. injection Hr as <- _ _.
  eapply prediction_type_branch_no_interest; eassumption.
Qed.

Lemma finish_returns (prefix : string) (total total' : pyval)
    (log log' : gmap string tval) :
  finish prefix total log = Ok (total', log') ->
  total' = total /\
  exists t, total = PyTensor t /\
            log' = <[(prefix +:+ "loss")%string := t]> log.
Proof.
  unfold finish, item. destruct total as [z | t]; [discriminate|].
  intros H. injection H as <- <-. eauto.
Qed.

(** X12: in a batch without an interested agent every masked mean is
    0/0.  Whenever [DPR.forward_and_get_loss] returns with the predictor
    trained, or with the denoiser trained on the sample or mean prediction
    type, the loss it returns and logs is NaN; so is the loss
    [DPR_GRPO.forward_and_get_loss] returns with the predictor trained. *)
Theorem no_interested_agent_nan_loss {E : Type}
    (env : collaborators E) (self : model) (b : batch) (prefix : string)
    (g : generator) :
  Forall (Forall (fun i => (i <= 0)%Z)) (agents_interested b) ->
  (_train_predictor self = true \/
   (_train_denoiser self = true /\
    (_prediction_type self = "sample"%string \/
     _prediction_type self = "mean"%string)) ->
   forall total log g',
     DPR.forward_and_get_loss env self b prefix g = Ok (total, log, g') ->
     total = PyTensor NaN /\
     log !! (prefix +:+ "loss")%string = Some NaN) /\
  (_train_predictor self = true ->
   forall total log g',
     DPR_GRPO.forward_and_get_loss env self b prefix g = Ok (total, log, g') ->
     total = PyTensor NaN /\
     log !! (prefix +:+ "loss")%string = Some NaN).
Proof.
  intros Hno.
  assert (Hgt : forall gt, prepare_ground_truth env self b = Ok gt ->
            Forall (Forall (fun i => (i <= 0)%Z)) (gt_agents_interested gt)).
  { intros gt H. rewrite (prepare_ground_truth_interested env self b gt H).
    now apply no_interest_firstn. }
  split.
  - intros Hcfg total log g'.
    unfold DPR.forward_and_get_loss. unfold bind at 1, lift at 1.
    destruct (prepare_ground_truth env self b) as [gt|] eqn:Hp; [|discriminate].
    specialize (Hgt gt eq_refl).
    unfold bind at 1, lift at 1.
    destruct (encoder env b) as [enc|]; [|discriminate].
    unfold bind at 1.
    match goal with
    | |- context [match ?c g with _ => _ end] =>
        destruct (c g) as [[[t1 l1] g1]|] eqn:Hd; [|discriminate]
    end.
    unfold bind at 1.
    match goal with
    | |- context [match ?c g1 with _ => _ end] =>
        destruct (c g1) as [[[t2 l2] g2]|] eqn:Hq; [|discriminate]
    end.
    unfold lift.
    destruct (finish prefix t2 l2) as [[t3 l3]|] eqn:Hf; [|discriminate].
    intros Hr. injection Hr as <- <- _.
    apply finish_returns in Hf as (-> & t & Ht & ->).
    assert (Hnan : t2 = PyTensor NaN).
    { destruct (_train_predictor self) eqn:Htp.
      - unfold lift in Hq.
        destruct (predictor_branch env self gt enc prefix t1 l1)
          as [[t' l']|] eqn:Hpb; [|discriminate].
        injection Hq as <- _ _.
        eapply predictor_branch_no_interest; eassumption.
      - destruct Hcfg as [Hcfg | [Htd Hty]]; [discriminate|].
        unfold ret in Hq. injection Hq as <- _ _.
        rewrite Htd in Hd.
        eapply denoiser_branch_no_interest; eassumption. }
    rewrite Hnan in Ht. injection Ht as <-.
    split; [exact Hnan | apply lookup_insert_eq].
  - intros Htp total log g'.
    unfold DPR_GRPO.forward_and_get_loss. unfold bind at 1, lift at 1.
    destruct (prepare_ground_truth env self b) as [gt|] eqn:Hp; [|discriminate].
    specialize (Hgt gt eq_refl).
    unfold bind at 1, lift at 1.
    destruct (encoder env b) as [enc|]; [|discriminate].
    unfold bind at 1.
    match goal with
    | |- context [match ?c g with _ => _ end] =>
        destruct (c g) as [[[t1 l1] g1]|] eqn:Hd; [|discriminate]
    end.
    rewrite Htp. unfold bind, lift.
    destruct (predictor_branch env self gt enc prefix t1 l1)
      as [[t2 l2]|] eqn:Hpb; [|discriminate].
    destruct (finish prefix t2 l2) as [[t3 l3]|] eqn:Hf; [|discriminate].
    intros Hr. injection Hr as <- <- _.
    apply finish_returns in Hf as (-> & t & Ht & ->).
    pose proof (predictor_branch_no_interest env self gt enc prefix t1 t2 l1 l2
                  Hgt Hpb) as Hnan.
    rewrite Hnan in Ht. injection Ht as <-.
    split; [exact Hnan | apply lookup_insert_eq].
Qed.

Lemma no_interested_agent_nan_loss_witness :
  exists log,
    DPR.forward_and_get_loss env0 (__init__ true cfg_predictor_only)
      MoreExamples.batch_none "train/" gen0 = Ok (PyTensor NaN, log, gen0) /\
    log !! "train/loss"%string = Some NaN.
Proof.
  destruct (predictor_only_returns env0 (__init__ true cfg_predictor_only)
              MoreExamples.batch_none "train/" gen0 _ _ _ _ _
              eq_refl eq_refl eq_refl eq_refl eq_refl eq_refl)
    as (t & log & H).
  destruct (no_interested_agent_nan_loss env0
              (__init__ true cfg_predictor_only) MoreExamples.batch_none
              "train/" gen0) as [H1 _].
  { repeat constructor; lia. }
  destruct (H1 (or_introl eq_refl) _ _ _ H) as [Ht Hl].
  exists log. rewrite <- Ht. split; [exact H | exact Hl].
Defined.

End NoInterestedAgent.

(** ** Fewer encoded agents than [agents_len] *)

Section TooFewAgents.

Import Examples.

Context {E : Type} (env : collaborators E) (self : model).

Lemma raises_bind_lift {A B : Type} (r : result A) (k : A -> M B)
    (g : generator) :
  (forall a, r = Ok a -> raises (k a g)) -> raises (bind (lift r) k g).
Proof.
  intros H. unfold bind, lift. destruct r as [a | e].
  - now apply H.
  - now exists e.
Qed.

Lemma current_states_too_few (enc : E) :
  (length (nth 0 (agents_of env enc) []) < _agents_len self)%nat ->
  current_states env self enc =
    Err (AssertionError "too many agents to consider").
Proof.
  intros H. unfold current_states. cbv zeta.
  now rewrite (proj2 (Nat.leb_gt _ _) H).
Qed.

Lemma forward_denoiser_too_few (enc : E) x t f :
  (length (nth 0 (agents_of env enc) []) < _agents_len self)%nat ->
  raises (DPR.forward_denoiser env self enc x t f).
Proof.
  intros H. unfold DPR.forward_denoiser. cbv zeta.
  destruct (denoiser env _ _ _ _) as [o|e]; [|now exists e].
  destruct (q_x0 env _ _ _ _) as [n|e]; [|now exists e].
  rewrite current_states_too_few by exact H. now eexists.
Qed.

Lemma grpo_forward_denoiser_too_few (enc : E) x t f :
  (length (nth 0 (agents_of env enc) []) < _agents_len self)%nat ->
  raises (DPR_GRPO.forward_denoiser env self enc x t f).
Proof.
  intros H. unfold DPR_GRPO.forward_denoiser. cbv zeta.
  destruct (denoiser env _ _ _ _) as [o|e]; [|now exists e].
  destruct (reference_model env _ _ _ _) as [o'|e]; [|now exists e].
  destruct (q_x0 env o _ _ _) as [n|e]; [|now exists e].
  destruct (q_x0 env o' _ _ _) as [n'|e]; [|now exists e].
  rewrite current_states_too_few by exact H. now eexists.
Qed.

Lemma predictor_branch_too_few (gt : ground_truth) (enc : E) prefix total log :
  (length (nth 0 (agents_of env enc) []) < _agents_len self)%nat ->
  raises (predictor_branch env self gt enc prefix total log).
Proof.
  intros H. unfold predictor_branch, forward_predictor.
  destruct (predictor env enc) as [[a s]|e]; [|now exists e].
  rewrite current_states_too_few by exact H. now eexists.
Qed.

Lemma denoiser_branch_too_few (gt : ground_truth) (enc : E) prefix total log g :
  (length (nth 0 (agents_of env enc) []) < _agents_len self)%nat ->
  raises (DPR.denoiser_branch env self gt enc prefix total log g).
Proof.
  intros H. unfold DPR.denoiser_branch. cbv zeta.
  apply raises_bind_r. intros st g1.
  apply raises_bind_r. intros noise g2.
  destruct (_replay_buffer self).
  - apply raises_bind_l, raises_bind_l, raises_lift.
    now apply forward_denoiser_too_few.
  - apply raises_bind_r. intros noised g3.
    apply raises_bind_l, raises_lift. now apply forward_denoiser_too_few.
Qed.

Lemma sample_group_nonempty (gt : ground_truth) (enc : E) g g' calls :
  (0 < _group_size self)%nat ->
  DPR_GRPO.sample_group env self gt enc g = Ok (calls, g') ->
  exists c calls',
    calls = c :: calls' /\ DPR_GRPO.call_encoder_outputs c = enc.
Proof.
  intros HG. unfold DPR_GRPO.sample_group. cbv zeta. unfold bind at 1.
  destruct (draw_diffusion_steps _ _ _ g) as [[st g1]|]; [|discriminate].
  unfold bind at 1.
  match goal with
  | |- context [match ?c g1 with _ => _ end] =>
      destruct (c g1) as [[l g2]|]; [|discriminate]
  end.
  unfold ret. intros H. injection H as <- _.
  unfold DPR_GRPO.group_inputs.
  destruct (_group_size self) as [|n]; [lia|].
  cbn [seq map]. do 2 eexists. split; [reflexivity|]. reflexivity.
Qed.

Lemma grpo_denoiser_branch_too_few (gt : ground_truth) (enc : E) prefix log g :
  (0 < _group_size self)%nat ->
  (length (nth 0 (agents_of env enc) []) < _agents_len self)%nat ->
  raises (DPR_GRPO.denoiser_branch env self gt enc prefix log g).
Proof.
  intros HG H. unfold DPR_GRPO.denoiser_branch. cbv zeta.
  unfold bind at 1.
  destruct (DPR_GRPO.sample_group env self gt enc g) as [[calls g1]|e] eqn:Hs;
    [|now exists e].
  destruct (sample_group_nonempty gt enc g g1 calls HG Hs)
    as (c & calls' & -> & Hc).
  apply raises_bind_l, raises_lift. cbn [for_each]. rewrite Hc.
  destruct (grpo_forward_denoiser_too_few enc (DPR_GRPO.call_noised c)
              (DPR_GRPO.call_steps c) (DPR_GRPO.call_agents_future c) H)
    as [e ->].
  now exists e.
Qed.

(** X13: when the encoder reports fewer agents than [agents_len], the
    assertion in [forward_denoiser] and [forward_predictor] fails; with a
    branch trained, [DPR.forward_and_get_loss] returns no loss whatever
    the networks do, and neither does [DPR_GRPO.forward_and_get_loss]
    for a group of at least one candidate. *)
Theorem too_few_agents_raises (b : batch) (prefix : string) (g : generator) :
  (forall enc, encoder env b = Ok enc ->
     (length (nth 0 (agents_of env enc) []) < _agents_len self)%nat) ->
  _train_denoiser self = true \/ _train_predictor self = true ->
  (forall enc, encoder env b = Ok enc ->
     current_states env self enc =
       Err (AssertionError "too many agents to consider")) /\
  raises (DPR.forward_and_get_loss env self b prefix g) /\
  ((0 < _group_size self)%nat ->
   raises (DPR_GRPO.forward_and_get_loss env self b prefix g)).
Proof.
  intros Hfew Hcfg. split; [|split].
  - intros enc Henc. apply current_states_too_few. now apply Hfew.
  - unfold DPR.forward_and_get_loss.
    apply raises_bind_r. intros gt g1.
    apply raises_bind_lift. intros enc Henc. specialize (Hfew enc Henc).
    destruct (_train_denoiser self).
    + apply raises_bind_l. now apply denoiser_branch_too_few.
    + destruct Hcfg as [Hcfg | Hcfg]; [discriminate|]. rewrite Hcfg.
      apply raises_bind_r. intros [t l] g2.
      apply raises_bind_l, raises_lift. now apply predictor_branch_too_few.
  - intros HG. unfold DPR_GRPO.forward_and_get_loss.
    apply raises_bind_r. intros gt g1.
    apply raises_bind_lift. intros enc Henc. specialize (Hfew enc Henc).
    destruct (_train_denoiser self).
    + apply raises_bind_l. now apply grpo_denoiser_branch_too_few.
    + destruct Hcfg as [Hcfg | Hcfg]; [discriminate|]. rewrite Hcfg.
      apply raises_bind_r. intros [t l] g2.
      apply raises_bind_l, raises_lift. now apply predictor_branch_too_few.
Qed.

End TooFewAgents.

Lemma too_few_agents_raises_witness :
  raises (DPR.forward_and_get_loss MoreExamples.env_no_agents
            (__init__ true Examples.cfg_default) Examples.batch0 "train/"
            Examples.gen0) /\
  raises (DPR_GRPO.forward_and_get_loss MoreExamples.env_no_agents
            (__init__ false Examples.cfg_default) Examples.batch0 "train/"
            Examples.gen0).
Proof.
  split.
  - destruct (too_few_agents_raises MoreExamples.env_no_agents
                (__init__ true Examples.cfg_default) Examples.batch0 "train/"
                Examples.gen0) as (_ & H & _).
    + intros enc _. simpl. lia.
    + left. reflexivity.
    + exact H.
  - destruct (too_few_agents_raises MoreExamples.env_no_agents
                (__init__ false Examples.cfg_default) Examples.batch0 "train/"
                Examples.gen0) as (_ & _ & H).
    + intros enc _. simpl. lia.
    + left. reflexivity.
    + apply H. simpl. lia.
Defined.

(** ** What the returned loss is made of *)

Section LossAccounting.

Context {E : Type} (env : collaborators E) (self : model).

Ltac other_key :=
  let Heq := fresh "Heq" in
  intros Heq; apply append_inj_l in Heq; discriminate Heq.

Ltac find_key :=
  repeat (rewrite lookup_insert_ne by other_key);
  first [apply lookup_insert_eq | eassumption].

Lemma predictor_branch_returns (gt : ground_truth) (enc : E) (prefix : string)
    (total total' : pyval) (log log' : gmap string tval) :
  predictor_branch env self gt enc prefix total log = Ok (total', log') ->
  exists goal score ade fde,
    total' = py_iadd total (tscale 1 (tadd goal (tscale (5 / 100) score))) /\
    log' = <[(prefix +:+ "pred_FDE")%string := fde]>
           (<[(prefix +:+ "pred_ADE")%string := ade]>
           (<[(prefix +:+ "score_loss")%string := score]>
           (<[(prefix +:+ "goal_loss")%string := goal]> log))).
Proof.
  unfold predictor_branch.
  destruct (forward_predictor env self enc) as [[goal_trajs goal_scores]|];
    [|discriminate].
  destruct (Goal.goal_loss _ _ _ _ _ _ _) as [goal score].
  destruct (calculate_metrics_predict env _ _ _ _) as [[ade fde]|];
    [|discriminate].
  intros H. injection H as <- <-. now exists goal, score, ade, fde.
Qed.

(** The term the denoiser branch of [DPR] adds, by prediction type. *)
Lemma prediction_type_branch_returns (gt : ground_truth) out noised noise
    steps (prefix : string) (total total' : pyval)
    (log log' : gmap string tval) :
  DPR.prediction_type_branch env self gt out noised noise steps prefix
    total log = Ok (total', log') ->
  exists den,
    total' = py_iadd total den /\
    (_prediction_type self = "sample"%string ->
     exists state yaw,
       den = tadd state yaw /\
       log' !! (prefix +:+ "state_loss")%string = Some state /\
       log' !! (prefix +:+ "yaw_loss")%string = Some yaw) /\
    (_prediction_type self = "error"%string ->
     log' !! (prefix +:+ "diffusion_loss")%string = Some den) /\
    (_prediction_type self = "mean"%string ->
     log' !! (prefix +:+ "action_loss")%string = Some den).
Proof.
  unfold DPR.prediction_type_branch.
  destruct (String.eqb_spec (_prediction_type self) "sample") as [Hs | Hs].
  - destruct (Losses.denoise_loss _ _ _ _) as [state yaw].
    destruct (get_noise env _ _ _ _) as [d|]; [|discriminate].
    intros H. injection H as <- <-.
    exists (tadd state yaw). split; [reflexivity|].
    split; [|split]; intros Ht; try (rewrite Hs in Ht; discriminate Ht).
    exists state, yaw. split; [reflexivity|]. split; find_key.
  - destruct (String.eqb_spec (_prediction_type self) "error") as [He | He].
    + intros H. injection H as <- <-.
      eexists. split; [reflexivity|].
      split; [|split]; intros Ht; try (rewrite He in Ht; discriminate Ht);
        try contradiction.
      find_key.
    + destruct (String.eqb_spec (_prediction_type self) "mean") as [Hm | Hm];
        [|discriminate].
      intros H. injection H as <- <-.
      eexists. split; [reflexivity|].
      split; [|split]; intros Ht; try contradiction.
      find_key.
Qed.

Lemma denoiser_branch_returns (gt : ground_truth) (enc : E) (prefix : string)
    (total total' : pyval) (log log' : gmap string tval) (g g' : generator) :
  DPR.denoiser_branch env self gt enc prefix total log g =
    Ok (total', log', g') ->
  exists den,
    total' = py_iadd total den /\
    (_prediction_type self = "sample"%string ->
     exists state yaw,
       den = tadd state yaw /\
       log' !! (prefix +:+ "state_loss")%string = Some state /\
       log' !! (prefix +:+ "yaw_loss")%string = Some yaw) /\
    (_prediction_type self = "error"%string ->
     log' !! (prefix +:+ "diffusion_loss")%string = Some den) /\
    (_prediction_type self = "mean"%string ->
     log' !! (prefix +:+ "action_loss")%string = Some den).
Proof.
  unfold DPR.denoiser_branch. cbv zeta.
  unfold bind at 1.
  destruct (draw_diffusion_steps _ _ _ g) as [[st g1]|]; [|discriminate].
  unfold bind at 1.
  destruct (randn _ _ _ _ g1) as [[noise g2]|]; [|discriminate].
  unfold bind at 1.
  match goal with
  | |- context [match ?c g2 with _ => _ end] =>
      destruct (c g2) as [[noised g3]|]; [|discriminate]
  end.
  unfold bind, lift, ret.
  destruct (DPR.forward_denoiser env self enc noised st _) as [out|];
    [|discriminate].
  destruct (DPR.prediction_type_branch env self gt out noised noise st prefix
              total log) as [[t l]|] eqn:Hb; [|discriminate].
  destruct (calculate_metrics_denoise env _ _ _ _) as [[ade fde]|];
    [|discriminate].
  intros Hr. injection Hr as <- <- _.
  destruct (prediction_type_branch_returns _ _ _ _ _ _ _ _ _ _ Hb)
    as (den & Ht & Hsample & Herror & Hmean).
  exists den. split; [exact Ht|].
  split; [|split]; intros Hty.
  - destruct (Hsample Hty) as (state & yaw & Hd & H1 & H2).
    exists state, yaw. split; [exact Hd|]. split; find_key.
  - specialize (Herror Hty). find_key.
  - specialize (Hmean Hty). find_key.
Qed.

(** X14: the loss [DPR.forward_and_get_loss] returns with both branches
    trained is the denoiser's term plus the goal loss plus 0.05 times the
    score loss, and it is the value logged under [loss].  The denoiser's
    term is the state loss plus the yaw loss for the sample type (the
    logged diffusion loss is not part of it), the logged diffusion loss
    for the error type and the logged action loss for the mean type. *)
Theorem dpr_loss_accounting (b : batch) (prefix : string)
    (g g' : generator) (total : pyval) (log : gmap string tval) :
  _train_denoiser self = true -> _train_predictor self = true ->
  DPR.forward_and_get_loss env self b prefix g = Ok (total, log, g') ->
  exists den goal score,
    log !! (prefix +:+ "goal_loss")%string = Some goal /\
    log !! (prefix +:+ "score_loss")%string = Some score /\
    (_prediction_type self = "sample"%string ->
     exists state yaw,
       den = tadd state yaw /\
       log !! (prefix +:+ "state_loss")%string = Some state /\
       log !! (prefix +:+ "yaw_loss")%string = Some yaw) /\
    (_prediction_type self = "error"%string ->
     log !! (prefix +:+ "diffusion_loss")%string = Some den) /\
    (_prediction_type self = "mean"%string ->
     log !! (prefix +:+ "action_loss")%string = Some den) /\
    total = PyTensor (tadd (tadd (Fin 0) den)
                        (tscale 1 (tadd goal (tscale (5 / 100) score)))) /\
    log !! (prefix +:+ "loss")%string =
      Some (tadd (tadd (Fin 0) den)
              (tscale 1 (tadd goal (tscale (5 / 100) score)))).
Proof.
  intros Htd Htp.
  unfold DPR.forward_and_get_loss. unfold bind at 1, lift at 1.
  destruct (prepare_ground_truth env self b) as [gt|]; [|discriminate].
  unfold bind at 1, lift at 1.
  destruct (encoder env b) as [enc|]; [|discriminate].
  rewrite Htd, Htp. unfold bind at 1.
  destruct (DPR.denoiser_branch env self gt enc prefix (PyInt 0) ∅ g)
    as [[[t1 l1] g1]|] eqn:Hd; [|discriminate].
  unfold bind, lift.
  destruct (predictor_branch env self gt enc prefix t1 l1)
    as [[t2 l2]|] eqn:Hp; [|discriminate].
  destruct (finish prefix t2 l2) as [[t3 l3]|] eqn:Hf; [|discriminate].
  intros Hr. injection Hr as <- <- _.
  apply finish_returns in Hf as (-> & t & Ht & ->).
  apply denoiser_branch_returns in Hd as (den & Ht1 & Hsample & Herror & Hmean).
  apply predictor_branch_returns in Hp as (goal & score & ade & fde & Ht2 & ->).
  subst t1. cbn [py_iadd] in Ht2. rewrite Ht2 in Ht. injection Ht as <-.
  exists den, goal, score.
  split; [find_key|]. split; [find_key|].
  split; [|split; [|split; [|split]]].
  - intros Hty. destruct (Hsample Hty) as (state & yaw & Hden & H1 & H2).
    exists state, yaw. split; [exact Hden|]. split; find_key.
  - intros Hty. specialize (Herror Hty). find_key.
  - intros Hty. specialize (Hmean Hty). find_key.
  - exact Ht2.
  - find_key.
Qed.



End LossAccounting.

Lemma dpr_loss_accounting_returns :
  exists total log g',
    DPR.forward_and_get_loss Examples.env0 (__init__ true Examples.cfg_default)
      Examples.batch0 "train/" Examples.gen0 = Ok (total, log, g').
Proof.
  do 3 eexists.
  cbv -[Rplus Rmult Rminus Rdiv Ropp Rinv IZR INR exp ln insert empty
        map_insert gmap_empty Rabs sqrt atan sin cos PI Req_dec_T Rlt_dec
        Rle_dec tdiv].
  reflexivity.
Qed.

Lemma dpr_loss_accounting_witness :
  exists total log g' den goal score,
    DPR.forward_and_get_loss Examples.env0 (__init__ true Examples.cfg_default)
      Examples.batch0 "train/" Examples.gen0 = Ok (total, log, g') /\
    total = PyTensor (tadd (tadd (Fin 0) den)
                        (tscale 1 (tadd goal (tscale (5 / 100) score)))) /\
    log !! "train/loss"%string =
      Some (tadd (tadd (Fin 0) den)
              (tscale 1 (tadd goal (tscale (5 / 100) score)))).
Proof.
  destruct dpr_loss_accounting_returns as (total & log & g' & H).
  destruct (dpr_loss_accounting Examples.env0
              (__init__ true Examples.cfg_default) Examples.batch0 "train/"
              Examples.gen0 g' total log eq_refl eq_refl H)
    as (den & goal & score & _ & _ & _ & _ & _ & Ht & Hl).
  exists total, log, g', den, goal, score. repeat split; assumption.
Defined.

Lemma grpo_loss_accounting_returns :
  exists total log g',
    DPR_GRPO.forward_and_get_loss Examples.env0
      (__init__ false MoreExamples.cfg_single) Examples.batch0 "train/"
      Examples.gen0 = Ok (total, log, g').
Proof.
  do 3 eexists.
  cbv -[Rplus Rmult Rminus Rdiv Ropp Rinv IZR INR exp ln insert empty
        map_insert gmap_empty Rabs sqrt atan sin cos PI Req_dec_T Rlt_dec
        Rle_dec tdiv].
  reflexivity.
Qed.


(** ** The trajectory reward *)

Section RewardFacts.

Import Outcome Reward RewardSpec.













Lemma off_diagonal_few (N : nat) (dist : tensor2) :
  (N <= 1)%nat -> off_diagonal N dist = [].
Proof.
  intros H. unfold off_diagonal.
  destruct N as [|[|n]]; [reflexivity | reflexivity | lia].
Qed.

Lemma scene_penalty_few_agents (N T : nat) (c : R) (scene : tensor3) :
  (N <= 1)%nat ->
  exists msg, scene_penalty N T c scene = Err (RuntimeError msg).
Proof.
  intros H. unfold scene_penalty.
  destruct T as [|T].
  - cbn [seq for_each]. now eexists.
  - cbn [seq for_each]. rewrite off_diagonal_few by exact H.
    cbn [tensor_min]. now eexists.
Qed.

(** X17: a scene with a single agent has no pair of agents to measure:
    for a non-empty batch of five-entry states with at most one agent per
    scene, [compute_grpo_trajectory_reward] raises a [RuntimeError] (from
    the minimum over an empty selection, or from stacking no steps)
    instead of returning a reward without a collision term. *)
Theorem reward_single_agent_raises (trajectories : tensor5)
    (actions : option tensor5) (v_target collision_dist : R)
    (weights : option weights) (G B N T : nat) :
  shape5 trajectories = (G, B, N, T, 5%nat) ->
  (0 < G)%nat -> (0 < B)%nat -> (N <= 1)%nat ->
  exists msg,
    compute_grpo_trajectory_reward trajectories actions v_target
      collision_dist weights = Raises (RuntimeError msg).
Proof.
  intros Hs HG HB HN. unfold compute_grpo_trajectory_reward. rewrite Hs.
  cbn [Nat.eqb negb].
  destruct G as [|G]; [lia|]. destruct B as [|B]; [lia|].
  cbn [seq for_each].
  destruct (scene_penalty_few_agents N T collision_dist
              (nth 0 (nth 0 trajectories []) []) HN) as [msg ->].
  now exists msg.
Qed.

Lemma reward_single_agent_raises_witness :
  exists msg,
    compute_grpo_trajectory_reward trajectories_alone None 5 2 None =
      Raises (RuntimeError msg).
Proof.
  apply (reward_single_agent_raises trajectories_alone None 5 2 None
           1 1 1 2); [reflexivity | lia | lia | lia].
Defined.

Lemma speed_of_translate (dx dy : R) (state : tensor1) :
  speed_of (translate dx dy state) = speed_of state.
Proof. destruct state as [|x [|y rest]]; reflexivity. Qed.

Lemma theta_of_translate (dx dy : R) (state : tensor1) :
  theta_of (translate dx dy state) = theta_of state.
Proof. destruct state as [|x [|y rest]]; reflexivity. Qed.

Lemma length_translate (dx dy : R) (state : tensor1) :
  length (translate dx dy state) = length state.
Proof. destruct state as [|x [|y rest]]; reflexivity. Qed.

Lemma distance_translate (dx dy : R) (s1 s2 : tensor1) :
  length s1 = 5%nat -> length s2 = 5%nat ->
  norm (map2 Rminus (pos_of (translate dx dy s1))
                    (pos_of (translate dx dy s2))) =
  norm (map2 Rminus (pos_of s1) (pos_of s2)).
Proof.
  intros H1 H2.
  destruct s1 as [|x1 [|y1 r1]]; try discriminate.
  destruct s2 as [|x2 [|y2 r2]]; try discriminate.
  unfold norm, map2, pos_of, translate. cbn [nth combine map Rsum fold_right fst snd].
  f_equal. ring.
Qed.

Lemma for_each_ext_in {A B : Type} (f f' : A -> result B) (xs : list A) :
  (forall x, In x xs -> f x = f' x) -> for_each xs f = for_each xs f'.
Proof.
  induction xs as [|x xs IH]; intros H; [reflexivity|].
  cbn [for_each]. rewrite (H x) by now left.
  rewrite IH; [reflexivity|]. intros y Hy. apply H. now right.
Qed.

Lemma nth_map_map {A B : Type} (f : A -> B) (l : list (list A)) (n : nat) :
  nth n (map (map f) l) [] = map f (nth n l []).
Proof. exact (map_nth (map f) l [] n). Qed.

Lemma nth_map_translate (dx dy : R) (l : tensor2) (n : nat) :
  nth n (map (translate dx dy) l) [] = translate dx dy (nth n l []).
Proof. exact (map_nth (translate dx dy) l [] n). Qed.

Lemma cdist_map {A : Type} (f : A -> tensor1) (l : list A) :
  cdist (map f l) (map f l) =
  map (fun a => map (fun b => norm (map2 Rminus (f a) (f b))) l) l.
Proof.
  unfold cdist. rewrite map_map. apply map_ext. intros a. now rewrite map_map.
Qed.

Lemma scene_penalty_translate (dx dy : R) (N T : nat) (c : R)
    (scene : tensor3) :
  Forall (fun agent =>
            length agent = T /\
            Forall (fun state => length state = 5%nat) agent) scene ->
  scene_penalty N T c (map (map (translate dx dy)) scene) =
  scene_penalty N T c scene.
Proof.
  intros H. unfold scene_penalty.
  rewrite (for_each_ext_in _
             (fun t =>
                let pos_t := map (fun agent => pos_of (nth t agent [])) scene in
                let dist := cdist pos_t pos_t in
                tensor_min (off_diagonal N dist))); [reflexivity|].
  intros t Ht. apply in_seq in Ht. cbv zeta. do 2 f_equal.
  rewrite map_map.
  rewrite (cdist_map (fun agent =>
             pos_of (nth t (map (translate dx dy) agent) []))).
  rewrite (cdist_map (fun agent => pos_of (nth t agent []))).
  apply map_ext_in. intros a1 Ha1. apply map_ext_in. intros a2 Ha2.
  rewrite Forall_forall in H.
  destruct (H a1 (proj2 (list_elem_of_In _ _) Ha1)) as [Hl1 Hs1].
  destruct (H a2 (proj2 (list_elem_of_In _ _) Ha2)) as [Hl2 Hs2].
  rewrite !nth_map_translate.
  apply distance_translate.
  - rewrite Forall_forall in Hs1. apply Hs1, list_elem_of_In, nth_In. lia.
  - rewrite Forall_forall in Hs2. apply Hs2, list_elem_of_In, nth_In. lia.
Qed.

Lemma smoothness_reward_translate (dx dy : R) (scene : tensor3) :
  smoothness_reward (map (map (translate dx dy)) scene) =
  smoothness_reward scene.
Proof.
  unfold smoothness_reward. cbv zeta.
  replace (map (fun agent => diff (map speed_of agent))
             (map (map (translate dx dy)) scene))
    with (map (fun agent => diff (map speed_of agent)) scene); [reflexivity|].
  rewrite map_map. apply map_ext. intros agent. rewrite map_map. f_equal.
  apply map_ext. intros s. symmetry. apply speed_of_translate.
Qed.

Lemma speed_reward_translate (dx dy v : R) (scene : tensor3) :
  speed_reward v (map (map (translate dx dy)) scene) = speed_reward v scene.
Proof.
  unfold speed_reward. cbv zeta.
  replace (map (map (fun state => (speed_of state - v) ^ 2))
             (map (map (translate dx dy)) scene))
    with (map (map (fun state => (speed_of state - v) ^ 2)) scene);
    [reflexivity|].
  rewrite map_map. apply map_ext. intros agent. rewrite map_map.
  apply map_ext. intros s. now rewrite speed_of_translate.
Qed.

Lemma orientation_reward_translate (dx dy : R) (scene : tensor3) :
  orientation_reward (map (map (translate dx dy)) scene) =
  orientation_reward scene.
Proof.
  unfold orientation_reward. cbv zeta.
  replace (map (fun agent => diff (map theta_of agent))
             (map (map (translate dx dy)) scene))
    with (map (fun agent => diff (map theta_of agent)) scene); [reflexivity|].
  rewrite map_map. apply map_ext. intros agent. rewrite map_map. f_equal.
  apply map_ext. intros s. symmetry. apply theta_of_translate.
Qed.

Lemma shape5_translate (dx dy : R) (trajectories : tensor5) :
  shape5 (map (map (map (map (translate dx dy)))) trajectories) =
  shape5 trajectories.
Proof.
  unfold shape5. cbv zeta.
  rewrite !nth_map_map, nth_map_translate.
  now rewrite !length_map, length_translate.
Qed.

Lemma scene_translate (dx dy : R) (trajectories : tensor5) (g b : nat) :
  nth b (nth g (map (map (map (map (translate dx dy)))) trajectories) []) [] =
  map (map (translate dx dy)) (nth b (nth g trajectories []) []).
Proof. now rewrite !nth_map_map. Qed.

Lemma uniform_scene (T : nat) (trajectories : tensor5) (g b : nat) :
  uniform T trajectories ->
  Forall (fun agent =>
            length agent = T /\
            Forall (fun state => length state = 5%nat) agent)
         (nth b (nth g trajectories []) []).
Proof.
  intros H. unfold uniform in H.
  assert (Hr : Forall (Forall (fun agent =>
            length agent = T /\
            Forall (fun state => length state = 5%nat) agent))
            (nth g trajectories [])).
  { destruct (nth_in_or_default g trajectories []) as [Hin | ->];
      [|constructor].
    rewrite Forall_forall in H. apply H. now apply list_elem_of_In. }
  destruct (nth_in_or_default b (nth g trajectories []) []) as [Hin | ->];
    [|constructor].
  rewrite Forall_forall in Hr. apply Hr. now apply list_elem_of_In.
Qed.

(** X18: the reward does not depend on where the scene lies: moving every
    position of a well-formed trajectory tensor by the same [(dx, dy)]
    leaves the outcome of [compute_grpo_trajectory_reward] unchanged,
    since it reads speeds, headings and distances between agents only. *)
Theorem reward_translation_invariant (dx dy : R) (trajectories : tensor5)
    (actions : option tensor5) (v_target collision_dist : R)
    (weights : option weights) (G B N T D : nat) :
  shape5 trajectories = (G, B, N, T, D) ->
  uniform T trajectories ->
  compute_grpo_trajectory_reward
    (map (map (map (map (translate dx dy)))) trajectories)
    actions v_target collision_dist weights =
  compute_grpo_trajectory_reward trajectories actions v_target collision_dist
    weights.
Proof.
  intros Hs Hu. unfold compute_grpo_trajectory_reward.
  rewrite shape5_translate, Hs.
  destruct (negb (D =? 5)%nat); [reflexivity|].
  rewrite (for_each_ext_in _
             (fun g => for_each (seq 0 B) (fun b =>
                scene_penalty N T collision_dist
                  (nth b (nth g trajectories []) [])))).
  2:{ intros g _. apply for_each_ext_in. intros b _.
      rewrite scene_translate. apply scene_penalty_translate.
      now apply uniform_scene. }
  destruct (for_each (seq 0 G) _) as [cp|]; [|reflexivity].
  assert (Hrew : forall accel yaw : nat -> nat -> tval,
    map (fun g => map (fun b =>
      total_reward
        match weights with None => default_weights | Some w => w end
        (smoothness_reward
           (nth b (nth g (map (map (map (map (translate dx dy))))
                            trajectories) []) []))
        (speed_reward v_target
           (nth b (nth g (map (map (map (map (translate dx dy))))
                            trajectories) []) []))
        (orientation_reward
           (nth b (nth g (map (map (map (map (translate dx dy))))
                            trajectories) []) []))
        (nth b (nth g cp []) 0) (accel g b) (yaw g b)) (seq 0 B)) (seq 0 G) =
    map (fun g => map (fun b =>
      total_reward
        match weights with None => default_weights | Some w => w end
        (smoothness_reward (nth b (nth g trajectories []) []))
        (speed_reward v_target (nth b (nth g trajectories []) []))
        (orientation_reward (nth b (nth g trajectories []) []))
        (nth b (nth g cp []) 0) (accel g b) (yaw g b)) (seq 0 B)) (seq 0 G)).
  { intros accel yaw. apply map_ext. intros g. apply map_ext. intros b.
    now rewrite scene_translate, smoothness_reward_translate,
      speed_reward_translate, orientation_reward_translate. }
  destruct actions as [a|].
  - destruct (shape5 a) as [[[[G2 B2] N2] A] D2].
    destruct (negb _); [reflexivity|].
    destruct (D2 <? 2)%nat; [reflexivity|].
    now rewrite Hrew.
  - now rewrite Hrew.
Qed.

Lemma reward_translation_invariant_witness :
  compute_grpo_trajectory_reward
    (map (map (map (map (translate 100 (-7))))) trajectories0)
    (Some actions0) 5 2 None =
  compute_grpo_trajectory_reward trajectories0 (Some actions0) 5 2 None.
Proof.
  apply (reward_translation_invariant 100 (-7) trajectories0 (Some actions0)
           5 2 None 2 1 2 2 5); [reflexivity|].
  repeat constructor.
Defined.

End RewardFacts.

(** ** The logged metrics *)

Section MetricFacts.

Import Outcome Metrics MetricsSpec.












Lemma map2_scale {A : Type} (add : A -> A -> A) (sc : R -> A -> A) :
  (forall c a, add (sc c a) a = sc (c + 1) a) ->
  forall c l, map2 add (map (sc c) l) l = map (sc (c + 1)) l.
Proof.
  intros H c l. unfold map2.
  induction l as [|a l IH]; [reflexivity|].
  cbn [map combine fst snd]. now rewrite H, IH.
Qed.

Lemma sum_of_copies (t : tensor4) (n : nat) (c : R) :
  fold_left (map2 (map2 (map2 (map2 Rplus)))) (repeat t n)
    (map (map (map (map (fun s => c * s)))) t) =
  map (map (map (map (fun s => (c + INR n) * s)))) t.
Proof.
  revert c. induction n as [|n IH]; intros c.
  - cbn [repeat fold_left INR]. do 4 (apply map_ext; intros ?).
    now rewrite Rplus_0_r.
  - cbn [repeat fold_left].
    rewrite (map2_scale (map2 (map2 (map2 Rplus)))
               (fun c => map (map (map (fun s => c * s))))).
    + rewrite IH. do 4 (apply map_ext; intros ?). rewrite S_INR. ring.
    + intros c0 a0.
      apply (map2_scale (map2 (map2 Rplus))
               (fun c => map (map (fun s => c * s)))).
      intros c1 a1.
      apply (map2_scale (map2 Rplus) (fun c => map (fun s => c * s))).
      intros c2 a2.
      apply (map2_scale Rplus (fun c s => c * s)).
      intros c3 a3. ring.
Qed.

Lemma map_id_ext {A : Type} (f : A -> A) (l : list A) :
  (forall a, f a = a) -> map f l = l.
Proof.
  intros H. induction l as [|a l IH]; [reflexivity|].
  cbn [map]. now rewrite H, IH.
Qed.

Lemma map4_inverse (f g : R -> R) (t : tensor4) :
  (forall s, f (g s) = s) ->
  map (map (map (map f))) (map (map (map (map g))) t) = t.
Proof.
  intros H.
  rewrite map_map. apply map_id_ext. intros a.
  rewrite map_map. apply map_id_ext. intros a0.
  rewrite map_map. apply map_id_ext. intros a1.
  rewrite map_map. apply map_id_ext. exact H.
Qed.

Lemma mean_dim0_copies (t : tensor4) (n : nat) :
  mean_dim0 (repeat t (S n)) = t.
Proof.
  unfold mean_dim0. cbn [repeat].
  replace t with (map (map (map (map (fun s => 1 * s)))) t) at 2.
  2:{ do 4 (apply map_id_ext; intros ?). ring. }
  rewrite sum_of_copies.
  apply map4_inverse. intros s.
  change (length (t :: repeat t n)) with (S (length (repeat t n))).
  rewrite repeat_length, S_INR.
  pose proof (pos_INR n). field. lra.
Qed.

(** X20: [DPR_GRPO.calculate_metrics_denoise] scores the mean of the
    candidates: for a group of one or more copies of the same denoised
    trajectories it returns what [DPR.calculate_metrics_denoise] returns
    for those trajectories. *)
Theorem group_metrics_of_copies (self : model) (denoised_trajs : tensor4)
    (agents_future : tensor4) (agents_future_valid : mask3)
    (agents_interested : list (list Z)) (top_k : option nat) (G : nat) :
  (0 < G)%nat ->
  calculate_metrics_denoise_group self (repeat denoised_trajs G) agents_future
    agents_future_valid agents_interested top_k =
  calculate_metrics_denoise self denoised_trajs agents_future
    agents_future_valid agents_interested top_k.
Proof.
  intros HG. destruct G as [|n]; [lia|].
  unfold calculate_metrics_denoise_group, calculate_metrics_denoise.
  cbv zeta. now rewrite mean_dim0_copies.
Qed.



Lemma group_metrics_of_copies_witness :
  calculate_metrics_denoise_group (__init__ false Examples.cfg_default)
    (repeat denoised0 6) future0 valid0 [[1%Z]] (Some 8%nat) =
  calculate_metrics_denoise (__init__ false Examples.cfg_default) denoised0
    future0 valid0 [[1%Z]] (Some 8%nat).
Proof.
  apply (group_metrics_of_copies (__init__ false Examples.cfg_default)
           denoised0 future0 valid0 [[1%Z]] (Some 8%nat) 6).
  lia.
Defined.

Lemma best_row_le (row : tensor3) (sel : list nat) :
  Forall2 (fun anchors q => (q < length anchors)%nat) row sel ->
  Rsum (concat (map2 (fun anchors i => nth i anchors []) row
                  (map (fun anchors => argmin (map Rsum anchors)) row))) <=
  Rsum (map2 (fun anchors q => Rsum (nth q anchors [])) row sel).
Proof.
  intros H. unfold map2.
  induction H as [|anchors q row sel Hq _ IH]; [cbn; lra|].
  cbn [map combine concat fst snd Rsum fold_right].
  rewrite Rsum_app.
  pose proof (argmin_map_spec Rsum anchors [] q Hq) as Hmin.
  unfold Rsum in *. lra.
Qed.

Lemma best_le (mse : tensor4) (selection : list (list nat)) :
  Forall2 (Forall2 (fun anchors q => (q < length anchors)%nat)) mse selection ->
  sum3 (map2 (map2 (fun anchors i => nth i anchors [])) mse (best_idx mse)) <=
  selection_error mse selection.
Proof.
  intros H. unfold sum3, selection_error, sum2, best_idx.
  induction H as [|row sel mse selection Hrow _ IH]; [cbn; lra|].
  change (map2 (map2 (fun anchors i => nth i anchors [])) (row :: mse)
            (map (map (fun anchors => argmin (map Rsum anchors))) (row :: mse)))
    with (map2 (fun anchors i => nth i anchors []) row
            (map (fun anchors => argmin (map Rsum anchors)) row)
          :: map2 (map2 (fun anchors i => nth i anchors [])) mse
               (map (map (fun anchors => argmin (map Rsum anchors))) mse)).
  change (map2 (map2 (fun anchors q => Rsum (nth q anchors []))) (row :: mse)
            (sel :: selection))
    with (map2 (fun anchors q => Rsum (nth q anchors [])) row sel
          :: map2 (map2 (fun anchors q => Rsum (nth q anchors []))) mse
               selection).
  cbn [concat]. rewrite concat_app, !Rsum_app.
  pose proof (best_row_le row sel Hrow). lra.
Qed.

(** X21: the [pred_ADE] that [calculate_metrics_predict] reports is a
    minimum over the anchors: when some step counts, it is finite and not
    larger than the masked displacement error of any other choice of one
    anchor per agent, divided by the same number of counted steps. *)
Theorem predict_ade_is_minimal (self : model) (goal_trajs : tensor5)
    (agents_future : tensor4) (agents_future_valid : mask3)
    (agents_interested : list (list Z)) (top_k : option nat)
    (ade fde : tval) :
  calculate_metrics_predict self goal_trajs agents_future agents_future_valid
    agents_interested top_k = Returns (ade, fde) ->
  count3 (gt_mask (resolve_top_k self top_k) agents_future_valid
            agents_interested) <> 0%nat ->
  exists r,
    ade = Fin r /\
    forall selection,
      Forall2 (Forall2 (fun anchors q => (q < length anchors)%nat))
        (goal_mse (resolve_top_k self top_k) goal_trajs agents_future
           agents_future_valid agents_interested) selection ->
      r <= selection_error
             (goal_mse (resolve_top_k self top_k) goal_trajs agents_future
                agents_future_valid agents_interested) selection /
           INR (count3 (gt_mask (resolve_top_k self top_k)
                          agents_future_valid agents_interested)).
Proof.
  unfold calculate_metrics_predict. cbv zeta.
  set (k := resolve_top_k self top_k).
  set (mse := goal_mse k goal_trajs agents_future agents_future_valid
                agents_interested).
  set (mask := gt_mask k agents_future_valid agents_interested).
  destruct (existsb _ mse); [discriminate|].
  destruct (last_step 0 _) as [best_last| |]; try discriminate.
  destruct (last_step false mask) as [mask_last| |]; try discriminate.
  intros H Hn. injection H as <- _.
  rewrite tdiv_nonzero by exact Hn.
  eexists. split; [reflexivity|].
  intros selection Hsel.
  assert (Hpos : 0 < INR (count3 mask)) by (apply lt_0_INR; lia).
  apply Rmult_le_compat_r; [left; now apply Rinv_0_lt_compat|].
  now apply best_le.
Qed.

Lemma predict_metrics_example :
  exists ade fde,
    calculate_metrics_predict (__init__ true Examples.cfg_default)
      goal_trajs0 future0 valid0 [[1%Z]] (Some 8%nat) = Returns (ade, fde).
Proof.
  cbv -[Rplus Rmult Rminus Rdiv Ropp Rinv IZR INR Rabs sqrt Rmin Rmax
        Req_dec_T Rlt_dec Rle_dec tdiv].
  repeat match goal with
         | |- context [Rlt_dec ?a ?b] => destruct (Rlt_dec a b)
         end;
    do 2 eexists; reflexivity.
Qed.

Lemma predict_ade_is_minimal_witness :
  exists ade fde r,
    calculate_metrics_predict (__init__ true Examples.cfg_default)
      goal_trajs0 future0 valid0 [[1%Z]] (Some 8%nat) = Returns (ade, fde) /\
    ade = Fin r /\
    r <= selection_error
           (goal_mse 8 goal_trajs0 future0 valid0 [[1%Z]]) [[1%nat]] /
         INR (count3 (gt_mask 8 valid0 [[1%Z]])).
Proof.
  destruct predict_metrics_example as (ade & fde & H).
  destruct (predict_ade_is_minimal (__init__ true Examples.cfg_default)
              goal_trajs0 future0 valid0 [[1%Z]] (Some 8%nat) ade fde H)
    as (r & Hr & Hmin).
  { simpl. discriminate. }
  exists ade, fde, r. split; [exact H|]. split; [exact Hr|].
  apply (Hmin [[1%nat]]).
  repeat constructor.
Defined.

End MetricFacts.

(** ** Which weights a checkpoint replaces *)

Section CheckpointFacts.

Import Checkpoint.

Context {V : Type} (shape : V -> list nat).

Lemma encoder_key_not_prefixed (k : string) :
  encoder_key k -> String.prefix "encoder." k = false.
Proof.
  intros (child & rest & Hin & ->).
  unfold encoder_children in Hin. cbn [In] in Hin.
  destruct Hin as [<- | [<- | [<- | [<- | [<- | []]]]]]; reflexivity.
Qed.

Lemma keep_encoder_keys_lookup (model_dict : gmap string V) (k : string) :
  keep_encoder_keys model_dict !! k =
  if String.prefix "encoder." k then model_dict !! k else None.
Proof.
  unfold keep_encoder_keys.
  destruct (String.prefix "encoder." k) eqn:Hp.
  - destruct (model_dict !! k) as [w|] eqn:Hk.
    + apply map_lookup_filter_Some. split; [exact Hk | exact Hp].
    + apply map_lookup_filter_None. left. exact Hk.
  - apply map_lookup_filter_None. right. intros w _ Hw. cbn in Hw. congruence.
Qed.


Lemma load_state_dict_nonstrict_disjoint (own state_dict : gmap string V) :
  (forall k, is_Some (own !! k) -> state_dict !! k = None) ->
  load_state_dict_nonstrict shape own state_dict = Ok own.
Proof.
  intros H. unfold load_state_dict_nonstrict.
  assert (Hs : shapes_agree shape own state_dict = true).
  { unfold shapes_agree. apply forallb_forall. intros [k v] Hkv.
    apply list_elem_of_In, elem_of_map_to_list in Hkv. cbn [fst snd].
    now rewrite H by (rewrite Hkv; eauto). }
  rewrite Hs. f_equal. apply map_eq. intros k.
  rewrite map_lookup_imap.
  destruct (own !! k) as [v|] eqn:Hk; [|reflexivity].
  cbn. now rewrite H by (rewrite Hk; eauto).
Qed.

(** X22: in [DPR_GRPO.__init__] the checkpoint named by [encoder_ckpt]
    replaces no weight of the encoder: only keys that start with
    [encoder.] are kept, the encoder's own keys start with the name of one
    of its children, and the non-strict load ignores every key it does
    not know.  Whenever the file can be read the encoder is left as it was
    constructed. *)
Theorem init_encoder_checkpoint_not_loaded
    (torch_load : string -> result (gmap string V))
    (encoder_path : option string) (encoder : gmap string V) :
  (forall k, is_Some (encoder !! k) -> encoder_key k) ->
  (forall encoder',
     init_encoder shape torch_load encoder_path encoder = Ok encoder' ->
     encoder' = encoder) /\
  (forall path model_dict,
     encoder_path = Some path -> torch_load path = Ok model_dict ->
     init_encoder shape torch_load encoder_path encoder = Ok encoder).
Proof.
  intros Hkeys.
  assert (Hload : forall model_dict,
            load_state_dict_nonstrict shape encoder
              (keep_encoder_keys model_dict) = Ok encoder).
  { intros model_dict. apply load_state_dict_nonstrict_disjoint.
    intros k Hk. rewrite keep_encoder_keys_lookup.
    now rewrite (encoder_key_not_prefixed k (Hkeys k Hk)). }
  split.
  - intros encoder'. unfold init_encoder.
    destruct encoder_path as [path|]; [|congruence].
    destruct (torch_load path) as [model_dict|]; [|discriminate].
    rewrite Hload. congruence.
  - intros path model_dict -> Hl. unfold init_encoder. rewrite Hl.
    apply Hload.
Qed.


(** X24: [train] reads [train_encoder] with [cfg.get] and no default, so
    an absent entry counts as false there although [DPR_GRPO.__init__]
    reads it as true: with the entry absent or false and no
    [encoder_ckpt], [train] raises the warning as soon as the model's own
    checkpoint, if any, is loaded, and never starts training. *)
Theorem train_without_encoder_checkpoint_warns
    (torch_load : string -> result (gmap string V)) (c : train_cfg)
    (model : gmap string V) :
  train_encoder (model_cfg c) <> Some true ->
  encoder_ckpt c = None ->
  (forall r, train_load shape torch_load c model <> Started r) /\
  (ckpt_path_GRPO c = None ->
   train_load shape torch_load c model =
     Warning "Encoder path is not provided") /\
  (train_encoder (model_cfg c) = None ->
   _train_encoder (__init__ false (model_cfg c)) = true).
Proof.
  intros Hte Henc.
  assert (Hget : get (train_encoder (model_cfg c)) false = false).
  { destruct (train_encoder (model_cfg c)) as [[|]|]; [congruence | | ];
      reflexivity. }
  split; [|split].
  - intros r. unfold train_load. rewrite Hget, Henc. cbn [negb].
    destruct (match ckpt_path_GRPO c with Some _ => _ | None => _ end);
      discriminate.
  - intros Hc. unfold train_load. now rewrite Hc, Hget, Henc.
  - intros Hn. unfold __init__. cbn. now rewrite Hn.
Qed.

End CheckpointFacts.

Lemma init_encoder_checkpoint_not_loaded_witness :
  Checkpoint.init_encoder (fun _ : Z => @nil nat)
    (fun _ => Ok Checkpoint.model_dict0) (Some "encoder.ckpt"%string)
    Checkpoint.encoder0 = Ok Checkpoint.encoder0.
Proof.
  destruct (init_encoder_checkpoint_not_loaded (fun _ : Z => @nil nat)
              (fun _ => Ok Checkpoint.model_dict0)
              (Some "encoder.ckpt"%string) Checkpoint.encoder0) as [_ H].
  - intros k [v Hk]. unfold Checkpoint.encoder0 in Hk.
    apply lookup_insert_Some in Hk as [[<- _] | [_ Hk]].
    + exists "agent_encoder"%string, "type_embed.weight"%string.
      split; [now left | reflexivity].
    + rewrite lookup_empty in Hk. discriminate.
  - exact (H "encoder.ckpt"%string Checkpoint.model_dict0 eq_refl eq_refl).
Defined.



Lemma train_without_encoder_checkpoint_warns_witness :
  Checkpoint.train_load (fun _ : Z => @nil nat)
    (fun _ => Ok Checkpoint.model_dict0) Checkpoint.train_cfg_no_encoder
    Checkpoint.model0 = Checkpoint.Warning "Encoder path is not provided".
Proof.
  destruct (train_without_encoder_checkpoint_warns (fun _ : Z => @nil nat)
              (fun _ => Ok Checkpoint.model_dict0)
              Checkpoint.train_cfg_no_encoder Checkpoint.model0)
    as (_ & H & _).
  - discriminate.
  - reflexivity.
  - exact (H eq_refl).
Defined.

(** ** Frozen modules *)

Section FrozenModules.

Import Lifecycle.

Context {V : Type}.

(** The flag a parameter has in a store is read as [False] where there
    is no parameter. *)
Lemma set_requires_grad_off ls (h : gmap nat (param V)) l :
  l ∈ ls ->
  match set_requires_grad false ls h !! l with
  | Some p => requires_grad p
  | None => false
  end = false.
Proof.
  intros Hl. destruct (set_requires_grad false ls h !! l) as [p|] eqn:Hp;
    [|reflexivity].
  now apply (set_requires_grad_in false ls h l).
Qed.

Lemma set_requires_grad_keeps_off ls (h : gmap nat (param V)) l :
  match h !! l with Some p => requires_grad p | None => false end = false ->
  match set_requires_grad false ls h !! l with
  | Some p => requires_grad p
  | None => false
  end = false.
Proof.
  intros H. destruct (h !! l) as [p|] eqn:Hp.
  - destruct (set_requires_grad_false_frozen ls h l) as (q & -> & Hq);
      [eauto | exact Hq].
  - pose proof (set_requires_grad_data false ls h l) as Hd.
    rewrite Hp in Hd.
    now destruct (set_requires_grad false ls h !! l).
Qed.

Lemma if_keeps_off (c : bool) ls (h : gmap nat (param V)) l :
  match h !! l with Some p => requires_grad p | None => false end = false ->
  match (if c then h else set_requires_grad false ls h) !! l with
  | Some p => requires_grad p
  | None => false
  end = false.
Proof. destruct c; [trivial | apply set_requires_grad_keeps_off]. Qed.

(** What [configure_optimizers] gives to the optimizer. *)
Lemma configure_optimizer_flags (self : model) (s s' : trainer V) l :
  configure_optimizers self s = Ok s' ->
  l ∈ optimizer s' ->
  (_train_encoder self = false -> l ∉ parameters (encoder s)) /\
  (_train_denoiser self = false -> l ∉ parameters (denoiser s)) /\
  (match store s !! l with Some p => requires_grad p | None => false end =
     false -> False).
Proof.
  unfold configure_optimizers.
  set (h1 := if _train_encoder self then store s
             else set_requires_grad false (parameters (encoder s)) (store s)).
  set (h2 := if _train_denoiser self then h1
             else set_requires_grad false (parameters (denoiser s)) h1).
  set (h3 := if _with_predictor self && negb (_train_predictor self)
             then match predictor s with
                  | Some m => set_requires_grad false (parameters m) h2
                  | None => h2
                  end
             else h2).
  destruct (0 <? _)%nat; [|discriminate].
  intros H Hl. injection H as <-. cbn [optimizer] in Hl.
  apply list_elem_of_In, List.filter_In in Hl as [_ Hflag].
  assert (H23 : match h2 !! l with Some p => requires_grad p | None => false end
                = false ->
                match h3 !! l with Some p => requires_grad p | None => false end
                = false).
  { intros H2. unfold h3. destruct (_ && _); [|exact H2].
    destruct (predictor s); [now apply set_requires_grad_keeps_off | exact H2]. }
  split; [|split].
  - intros Hte Hin.
    assert (H1 : match h1 !! l with Some p => requires_grad p | None => false end
                 = false).
    { unfold h1. rewrite Hte. now apply set_requires_grad_off. }
    assert (H2 : match h2 !! l with Some p => requires_grad p | None => false end
                 = false) by (unfold h2; now apply if_keeps_off).
    apply H23 in H2. congruence.
  - intros Htd Hin.
    assert (H2 : match h2 !! l with Some p => requires_grad p | None => false end
                 = false).
    { unfold h2. rewrite Htd. now apply set_requires_grad_off. }
    apply H23 in H2. congruence.
  - intros H0.
    assert (H2 : match h2 !! l with Some p => requires_grad p | None => false end
                 = false) by (unfold h2, h1; now do 2 apply if_keeps_off).
    apply H23 in H2. congruence.
Qed.

(** The optimizer and the lists of parameters stay as they are. *)
Lemma run_keeps_lists (evs : list (event V)) :
  forall s : trainer V,
    optimizer (run s evs) = optimizer s /\
    parameters (reference_model (run s evs)) = parameters (reference_model s) /\
    encoder (run s evs) = encoder s.
Proof.
  unfold run. induction evs as [|ev evs IH]; intros s; [now repeat split|].
  cbn [fold_left]. destruct (IH (step s ev)) as (H1 & H2 & H3).
  rewrite H1, H2, H3. now destruct ev.
Qed.

(** A parameter that is neither the optimizer's nor the reference
    model's is never written. *)
Lemma run_frame (evs : list (event V)) :
  forall (s : trainer V) l,
    l ∉ optimizer s -> l ∉ parameters (reference_model s) ->
    store (run s evs) !! l = store s !! l.
Proof.
  unfold run. induction evs as [|ev evs IH]; intros s l Ho Hr; [reflexivity|].
  cbn [fold_left]. rewrite IH.
  - destruct ev as [update|]; cbn [step].
    + cbn [training_step store].
      apply (foldr_alter_other (fun x => x)
               (fun (l : nat) (p : param V) =>
                  {| data := update l (data p);
                     requires_grad := requires_grad p |})).
      intros x Hx ->. contradiction.
    + cbn [on_train_epoch_end store]. now apply load_state_dict_other.
  - now destruct ev.
  - now destruct ev.
Qed.

(** The encoder as [__init__] leaves it. *)
Lemma init_encoder_facts (encoder_init denoiser_init : list V)
    (predictor_init : option (list V)) :
  let s := __init__ encoder_init denoiser_init predictor_init in
  values s (encoder s) = map Some encoder_init /\
  (forall l, l ∈ parameters (encoder s) ->
             l ∉ parameters (reference_model s)).
Proof.
  unfold __init__.
  destruct (new_module ∅ encoder_init) as [encm h1] eqn:He.
  destruct (new_module h1 denoiser_init) as [denm h2] eqn:Hd.
  destruct (deepcopy h2 denm) as [refm h3'] eqn:Hr.
  destruct (new_module_spec _ _ _ _ He) as (Hen & Hef & Hes & Hem).
  destruct (new_module_spec _ _ _ _ Hd) as (Hdn & Hdf & Hds & Hdm).
  unfold deepcopy in Hr.
  rewrite (read_all_of_lookups _ _ _ Hdm) in Hr.
  destruct (alloc_all h2 _) as [Rf h3] eqn:Ha. injection Hr as <- <-.
  destruct (alloc_all_spec _ _ _ _ Ha) as (Hrn & Hrf & Hrs & Hrm).
  cbn [eval parameters].
  set (h4 := set_requires_grad false Rf h3).
  assert (He1 : forall l, l ∈ parameters encm -> is_Some (h1 !! l))
    by exact (lookups_alive _ _ _ Hem).
  assert (He2 : forall l, l ∈ parameters encm -> h2 !! l = h1 !! l).
  { intros l Hl. apply Hds. intros Hin. apply Hdf in Hin.
    destruct (He1 l Hl) as [p Hp]. congruence. }
  assert (Hsep : forall l, l ∈ parameters encm -> l ∉ Rf).
  { intros l Hl Hin. apply Hrf in Hin. rewrite He2 in Hin by assumption.
    destruct (He1 l Hl) as [p Hp]. congruence. }
  assert (He4 : forall l, l ∈ parameters encm -> h4 !! l = h1 !! l).
  { intros l Hl. unfold h4.
    rewrite set_requires_grad_other by now apply Hsep.
    rewrite Hrs by now apply Hsep. now apply He2. }
  destruct (match predictor_init with
            | Some init => let (m, h) := new_module h4 init in (Some m, h)
            | None => (None, h4)
            end) as [predm h5] eqn:Hp.
  assert (H45 : forall l, is_Some (h4 !! l) -> h5 !! l = h4 !! l).
  { intros l [p Hl]. destruct predictor_init as [init|].
    - destruct (new_module h4 init) as [m h] eqn:Hn. injection Hp as <- <-.
      destruct (new_module_spec _ _ _ _ Hn) as (_ & Hpf & Hps & _).
      apply Hps. intros Hin. apply Hpf in Hin. congruence.
    - now injection Hp as <- <-. }
  cbn zeta. unfold values. cbn [store reference_model encoder parameters eval].
  split.
  - rewrite <- map_data_fresh, <- Hem, map_map.
    apply map_ext_in. intros l Hl. apply list_elem_of_In in Hl.
    rewrite H45; rewrite He4 by assumption; [reflexivity | now apply He1].
  - exact Hsep.
Qed.

(** X25: after [configure_optimizers], a training step writes only the
    optimizer's parameters and the end of an epoch only the reference
    model's, so every other parameter keeps its value whatever happens;
    in particular, with [train_encoder] false the encoder still has the
    weights it was constructed with after any number of training steps
    and epochs. *)
Theorem frozen_encoder_never_changes
    (self : model) (encoder_init denoiser_init : list V)
    (predictor_init : option (list V)) (s0 : trainer V)
    (evs : list (event V)) :
  configure_optimizers self
    (__init__ encoder_init denoiser_init predictor_init) = Ok s0 ->
  (forall l, l ∉ optimizer s0 -> l ∉ parameters (reference_model s0) ->
             store (run s0 evs) !! l = store s0 !! l) /\
  (_train_encoder self = false ->
   (forall l, l ∈ parameters (encoder s0) -> l ∉ optimizer s0) /\
   values (run s0 evs) (encoder (run s0 evs)) = map Some encoder_init).
Proof.
  intros Hc. split; [intros l; apply run_frame|].
  intros Hte.
  set (created := __init__ encoder_init denoiser_init predictor_init) in *.
  destruct (init_encoder_facts encoder_init denoiser_init predictor_init)
    as (Hvals & Hsep).
  fold created in Hvals, Hsep.
  destruct (init_reference encoder_init denoiser_init predictor_init)
    as (Inv0 & _).
  fold created in Inv0.
  destruct (configure_reference self created s0 Hc Inv0)
    as (_ & Hv1 & Hrm & _).
  assert (Henc : encoder s0 = encoder created).
  { unfold configure_optimizers in Hc.
    destruct (0 <? _)%nat; [|discriminate]. now injection Hc as <-. }
  assert (Hnopt : forall l, l ∈ parameters (encoder s0) -> l ∉ optimizer s0).
  { intros l Hl Hin.
    destruct (configure_optimizer_flags self created s0 l Hc Hin) as (H1 & _).
    apply (H1 Hte). now rewrite <- Henc. }
  split; [exact Hnopt|].
  destruct (run_keeps_lists evs s0) as (_ & _ & ->).
  rewrite <- Hvals, <- (Hv1 (encoder created)), Henc.
  unfold values. apply map_ext_in. intros l Hl. apply list_elem_of_In in Hl.
  rewrite run_frame; [reflexivity | |].
  - apply Hnopt. now rewrite Henc.
  - rewrite Hrm. now apply Hsep.
Qed.

(** X26: when neither the encoder nor the denoiser is trained and the
    predictor is absent or not trained, no parameter requires a gradient
    (the reference model's never do) and [configure_optimizers] fails
    with its assertion instead of building an optimizer. *)
Theorem configure_optimizers_nothing_to_update
    (self : model) (encoder_init denoiser_init : list V)
    (predictor_init : option (list V)) :
  _train_encoder self = false -> _train_denoiser self = false ->
  predictor_init = None \/
  (_with_predictor self = true /\ _train_predictor self = false) ->
  configure_optimizers self
    (__init__ encoder_init denoiser_init predictor_init) =
    Err (AssertionError "No parameters to update").
Proof.
  intros Hte Htd Hpred.
  set (created := __init__ encoder_init denoiser_init predictor_init).
  destruct (init_reference encoder_init denoiser_init predictor_init)
    as (Inv0 & _).
  fold created in Inv0.
  assert (Hnone : predictor_init = None -> predictor created = None).
  { intros ->. unfold created, __init__.
    destruct (new_module ∅ encoder_init) as [encm h1].
    destruct (new_module h1 denoiser_init) as [denm h2].
    now destruct (deepcopy h2 denm) as [refm h3]. }
  unfold configure_optimizers. rewrite Hte, Htd.
  set (h2 := set_requires_grad false (parameters (denoiser created))
               (set_requires_grad false (parameters (encoder created))
                  (store created))).
  set (h3 := if _with_predictor self && negb (_train_predictor self)
             then match predictor created with
                  | Some m => set_requires_grad false (parameters m) h2
                  | None => h2
                  end
             else h2).
  assert (Hoff : forall l, l ∈ all_parameters created ->
            match h3 !! l with Some p => requires_grad p | None => false end
            = false).
  { intros l Hl. unfold all_parameters in Hl.
    assert (H23 : match h2 !! l with
                  | Some p => requires_grad p | None => false end = false ->
                  match h3 !! l with
                  | Some p => requires_grad p | None => false end = false).
    { intros H2. unfold h3. destruct (_ && _); [|exact H2].
      destruct (predictor created);
        [now apply set_requires_grad_keeps_off | exact H2]. }
    apply elem_of_app in Hl as [Hl | Hl].
    { apply H23. unfold h2. apply set_requires_grad_keeps_off.
      now apply set_requires_grad_off. }
    apply elem_of_app in Hl as [Hl | Hl].
    { apply H23. unfold h2. now apply set_requires_grad_off. }
    apply elem_of_app in Hl as [Hl | Hl].
    { apply H23. unfold h2. do 2 apply set_requires_grad_keeps_off.
      destruct (ref_frozen created Inv0 l Hl) as (p & -> & Hp). exact Hp. }
    destruct Hpred as [Hp | [Hwp Htp]].
    - rewrite (Hnone Hp) in Hl. now apply elem_of_nil in Hl.
    - unfold h3. rewrite Hwp, Htp. cbn [andb negb].
      destruct (predictor created) as [m|];
        [now apply set_requires_grad_off | now apply elem_of_nil in Hl]. }
  assert (Hempty : List.filter
            (fun l => match h3 !! l with
                      | Some p => requires_grad p
                      | None => false
                      end) (all_parameters created) = []).
  { induction (all_parameters created) as [|l ls IH]; [reflexivity|].
    cbn [List.filter]. rewrite Hoff by now left.
    apply IH. intros l' Hl'. apply Hoff. now right. }
  fold h2. fold h3. now rewrite Hempty.
Qed.

End FrozenModules.

Lemma frozen_encoder_never_changes_witness :
  exists s0,
    Lifecycle.configure_optimizers
      (__init__ false MoreExamples.cfg_frozen_encoder)
      (Lifecycle.__init__ [1%Z] [2%Z; 3%Z] None) = Ok s0 /\
    let s := Lifecycle.run s0
               [Lifecycle.TrainingStep (fun _ v => (v + 1)%Z);
                Lifecycle.TrainEpochEnd] in
    Lifecycle.values s (Lifecycle.encoder s) = [Some 1%Z].
Proof.
  destruct (Lifecycle.configure_optimizers
              (__init__ false MoreExamples.cfg_frozen_encoder)
              (Lifecycle.__init__ [1%Z] [2%Z; 3%Z] None)) as [s|e] eqn:Hc.
  - exists s. split; [reflexivity|].
    destruct (frozen_encoder_never_changes
                (__init__ false MoreExamples.cfg_frozen_encoder)
                [1%Z] [2%Z; 3%Z] None s
                [Lifecycle.TrainingStep (fun _ v => (v + 1)%Z);
                 Lifecycle.TrainEpochEnd] Hc) as (_ & H).
    destruct (H eq_refl) as (_ & Hv). exact Hv.
  - vm_compute in Hc. discriminate Hc.
Defined.

Lemma configure_optimizers_nothing_to_update_witness :
  Lifecycle.configure_optimizers (__init__ false MoreExamples.cfg_all_frozen)
    (Lifecycle.__init__ [1%Z] [2%Z; 3%Z] None) =
    Err (AssertionError "No parameters to update").
Proof.
  apply (configure_optimizers_nothing_to_update
           (__init__ false MoreExamples.cfg_all_frozen)
           [1%Z] [2%Z; 3%Z] None); [reflexivity | reflexivity | now left].
Defined.

(** ** The decoder's inputs and outputs *)

Section DecoderFacts.

Import Outcome Decoder.

Lemma last_repeat {A : Type} (x d : A) (n : nat) :
  (0 < n)%nat -> List.last (repeat x n) d = x.
Proof.
  induction n as [|n IH]; intros Hn; [lia|].
  destruct n as [|n]; [reflexivity|].
  change (repeat x (S (S n))) with (x :: repeat x (S n)).
  change (List.last (x :: repeat x (S n)) d)
    with (List.last (repeat x (S n)) d).
  apply IH. lia.
Qed.

Lemma last_column_repeat (draws : list nat) (A : nat) :
  (0 < A)%nat ->
  last_column (map (fun d => repeat d A) draws) = Returns draws.
Proof.
  intros HA. unfold last_column.
  assert (He : existsb (fun row : list nat =>
                          match row with [] => true | _ => false end)
                 (map (fun d => repeat d A) draws) = false).
  { induction draws as [|d draws IH]; [reflexivity|].
    cbn [map existsb]. rewrite IH.
    destruct A as [|A]; [lia | reflexivity]. }
  rewrite He. f_equal. rewrite map_map.
  rewrite <- (map_id draws) at 2. apply map_ext. intros d.
  now apply last_repeat.
Qed.

(** X27: the decoder reads the diffusion time of a scene from the last
    agent's entry.  For the steps the loss engines draw, one draw per
    batch element repeated over the agents, that entry is the draw every
    agent of the scene was noised with, so [Decoder.forward] depends on
    the steps only through the draws. *)
Theorem decoder_reads_the_drawn_step {X : Type} (self : decoder X)
    (e : encoder_outputs X) (num_steps B A : nat) (g g' : generator)
    (diffusion_steps : steps) :
  (0 < A)%nat ->
  draw_diffusion_steps num_steps B A g = Ok (diffusion_steps, g') ->
  exists diffusion_time,
    last_column diffusion_steps = Returns diffusion_time /\
    length diffusion_time = B /\
    (forall b a, (b < B)%nat -> (a < A)%nat ->
       nth a (nth b diffusion_steps []) 0%nat = nth b diffusion_time 0%nat) /\
    (forall noisy_actions agents_future,
       forward self e noisy_actions diffusion_steps agents_future =
       forward self e noisy_actions (map (fun d => [d]) diffusion_time)
         agents_future).
Proof.
  intros HA. unfold draw_diffusion_steps, bind, ret, randint.
  destruct (0 <? num_steps)%nat; [|discriminate].
  intros H. injection H as <- _.
  set (draws := map _ (seq 0 B)).
  assert (Hlen : length draws = B)
    by (unfold draws; now rewrite length_map, length_seq).
  exists draws. split; [now apply last_column_repeat|].
  split; [exact Hlen|]. split.
  - intros b a Hb Ha.
    rewrite (nth_map_in (fun d => repeat d A) draws b 0%nat [])
      by (rewrite Hlen; exact Hb).
    now apply nth_repeat_lt.
  - intros noisy_actions agents_future. unfold forward.
    rewrite (last_column_repeat draws A HA).
    change (map (fun d => [d]) draws) with (map (fun d => repeat d 1) draws).
    now rewrite (last_column_repeat draws 1) by lia.
Qed.

Lemma decoder_reads_the_drawn_step_witness :
  exists diffusion_steps g' diffusion_time,
    draw_diffusion_steps 50 2 3 Examples.gen0 = Ok (diffusion_steps, g') /\
    last_column diffusion_steps = Returns diffusion_time /\
    length diffusion_time = 2%nat.
Proof.
  destruct (draw_diffusion_steps 50 2 3 Examples.gen0)
    as [[diffusion_steps g']|e] eqn:Hd; [|vm_compute in Hd; discriminate Hd].
  destruct (decoder_reads_the_drawn_step decoder0 encoder_outputs0 50 2 3
              Examples.gen0 g' diffusion_steps ltac:(lia) Hd)
    as (diffusion_time & H1 & H2 & _).
  exists diffusion_steps, g', diffusion_time. repeat split; assumption.
Defined.

Lemma chunks_concat {A : Type} (k : nat) (l : list (list A)) :
  Forall (fun r => length r = k) l -> chunks k (length l) (concat l) = l.
Proof.
  intros H. induction H as [|r l Hr _ IH]; [reflexivity|].
  cbn [length concat chunks].
  rewrite firstn_app, <- Hr, Nat.sub_diag, firstn_all, firstn_O, app_nil_r.
  rewrite skipn_app, Nat.sub_diag, skipn_all, skipn_O. cbn [app].
  rewrite Hr. now rewrite IH.
Qed.

Lemma concat_concat_map {A : Type} (l : list (list (list A))) :
  concat (concat l) = concat (map (fun x => concat x) l).
Proof.
  induction l as [|x l IH]; [reflexivity|].
  cbn [concat map]. now rewrite concat_app, IH.
Qed.

Lemma length_concat_uniform {A : Type} (k : nat) (l : list (list A)) :
  Forall (fun r => length r = k) l ->
  length (concat l) = (length l * k)%nat.
Proof.
  intros H. induction H as [|r l Hr _ IH]; [reflexivity|].
  cbn [concat length]. rewrite length_app, IH, Hr. lia.
Qed.

Lemma map_id_ext_in {A : Type} (f : A -> A) (l : list A) :
  (forall a, In a l -> f a = a) -> map f l = l.
Proof.
  intros H. induction l as [|a l IH]; [reflexivity|].
  cbn [map]. rewrite H by now left. rewrite IH; [reflexivity|].
  intros b Hb. apply H. now right.
Qed.

Lemma flat_agent (T : nat) (agent : tensor2) :
  length agent = T -> Forall (fun a => length a = 2%nat) agent ->
  length (concat agent) = (T * 2)%nat /\
  chunks 2 T (concat agent) = agent.
Proof.
  intros <- H. split.
  - now apply length_concat_uniform.
  - now apply chunks_concat.
Qed.

Lemma flat_sample (P T : nat) (sample : tensor3) :
  length sample = P ->
  Forall (fun agent => length agent = T /\
                       Forall (fun a => length a = 2%nat) agent) sample ->
  length (concat (map (fun agent => concat agent) sample)) = (P * (T * 2))%nat /\
  chunks (T * 2) P (concat (map (fun agent => concat agent) sample)) =
    map (fun agent => concat agent) sample /\
  map (chunks 2 T) (map (fun agent => concat agent) sample) = sample.
Proof.
  intros <- H.
  assert (Hl : Forall (fun r => length r = (T * 2)%nat)
                 (map (fun agent => concat agent) sample)).
  { apply Forall_forall. intros r Hr.
    apply list_elem_of_In, in_map_iff in Hr as (agent & <- & Hin).
    rewrite Forall_forall in H.
    destruct (H agent (proj2 (list_elem_of_In _ _) Hin)) as [H1 H2].
    now apply flat_agent. }
  split; [|split].
  - rewrite (length_concat_uniform _ _ Hl). now rewrite length_map.
  - rewrite <- (length_map (fun agent => concat agent) sample) at 1.
    now apply chunks_concat.
  - rewrite map_map. apply map_id_ext_in. intros agent Hin.
    rewrite Forall_forall in H.
    destruct (H agent (proj2 (list_elem_of_In _ _) Hin)) as [H1 H2].
    now apply flat_agent.
Qed.

Lemma flat_actions (B P T : nat) (x : tensor4) :
  shaped B P T x ->
  let samples := map (fun sample => concat (map (fun agent => concat agent)
                                              sample)) x in
  concat (concat (concat x)) = concat samples /\
  length samples = B /\
  Forall (fun r => length r = (P * (T * 2))%nat) samples.
Proof.
  intros [HB Hx] samples. split; [|split].
  - rewrite concat_concat_map, concat_map, concat_concat_map.
    unfold samples. now rewrite map_map.
  - unfold samples. now rewrite length_map.
  - apply Forall_forall. intros r Hr.
    apply list_elem_of_In, in_map_iff in Hr as (sample & <- & Hin).
    rewrite Forall_forall in Hx.
    destruct (Hx sample (proj2 (list_elem_of_In _ _) Hin)) as [H1 H2].
    now apply flat_sample.
Qed.

(** X28: the two reshapes of [Decoder.forward] are inverse to each
    other: actions of shape [[B, P, T, 2]] are flattened per agent for
    the network, and what the network returns is cut back into pairs in
    the same order, so a network that returns its input gives back the
    noisy actions entry for entry. *)
Theorem decoder_reshape_round_trip {X : Type} (self : decoder X)
    (e : encoder_outputs X) (noisy_actions : tensor4)
    (diffusion_step : steps) (agents_future : tensor4)
    (diffusion_time : list nat) (B P T : nat) :
  shaped B P T noisy_actions ->
  (0 < B)%nat -> (0 < P)%nat ->
  length agents_future = B -> length (nth 0 agents_future []) = P ->
  _predicted_agents_num self = P ->
  last_column diffusion_step = Returns diffusion_time ->
  (forall x t enc a f m, dit self x t enc a f m = Ok x) ->
  forward self e noisy_actions diffusion_step agents_future =
    Returns noisy_actions.
Proof.
  intros Hx HB HP HfB HfP Hnum Hlast Hdit.
  destruct (flat_actions B P T noisy_actions Hx) as (Hflat & Hlen & Hrows).
  set (samples := map (fun sample => concat (map (fun agent => concat agent)
                                               sample)) noisy_actions) in *.
  assert (Hn : length (concat samples) = (B * (P * (T * 2)))%nat)
    by (rewrite (length_concat_uniform _ _ Hrows); now rewrite Hlen).
  assert (Hsamples : chunks (P * (T * 2)) B (concat samples) = samples)
    by (rewrite <- Hlen at 1; now apply chunks_concat).
  destruct Hx as [_ Hx].
  unfold forward. rewrite Hlast, HfB, HfP, Hnum, Nat.eqb_refl. cbn [negb].
  rewrite Hflat.
  assert (Hr1 : reshape_B_P B P (concat samples) =
                Ok (map (map (fun agent => concat agent)) noisy_actions)).
  { unfold reshape_B_P. rewrite Hn.
    replace (B * (P * (T * 2)))%nat with ((T * 2) * (B * P))%nat by lia.
    rewrite Nat.Div0.mod_mul, Nat.div_mul by lia.
    destruct (B * P =? 0)%nat eqn:Hz; [apply Nat.eqb_eq in Hz; nia|].
    cbn [Nat.eqb negb]. f_equal. rewrite Hsamples.
    unfold samples. rewrite map_map. apply map_ext_in. intros sample Hin.
    rewrite Forall_forall in Hx.
    destruct (Hx sample (proj2 (list_elem_of_In _ _) Hin)) as [H1 H2].
    now apply (flat_sample P T sample H1 H2). }
  rewrite Hr1, Hdit.
  assert (Hflat' : concat (concat (map (map (fun agent => concat agent))
                                     noisy_actions)) = concat samples).
  { rewrite concat_concat_map. unfold samples. now rewrite map_map. }
  rewrite Hflat'.
  unfold reshape_B_P_2. rewrite Hn.
  replace (B * (P * (T * 2)))%nat with (T * (B * P * 2))%nat by lia.
  rewrite Nat.Div0.mod_mul, Nat.div_mul by lia.
  destruct (B * P =? 0)%nat eqn:Hz; [apply Nat.eqb_eq in Hz; nia|].
  cbn [Nat.eqb negb]. f_equal. rewrite Hsamples.
  unfold samples. rewrite map_map. apply map_id_ext_in. intros sample Hin.
  rewrite Forall_forall in Hx.
  destruct (Hx sample (proj2 (list_elem_of_In _ _) Hin)) as [H1 H2].
  destruct (flat_sample P T sample H1 H2) as (_ & -> & ->). reflexivity.
Qed.

Lemma decoder_reshape_round_trip_witness :
  forward decoder0 encoder_outputs0 noisy_actions0 [[7; 7]]%nat agents_future0 =
    Returns noisy_actions0.
Proof.
  apply (decoder_reshape_round_trip decoder0 encoder_outputs0 noisy_actions0
           [[7; 7]]%nat agents_future0 [7%nat] 1 2 2);
    try reflexivity; try lia.
  repeat constructor.
Defined.

End DecoderFacts.

(** ** What the steps log *)

Section LoggedKeys.

Import Steps.

Context {E : Type} (env : collaborators E) (self : model).

Lemma prefix_append (p s : string) : String.prefix p (p +:+ s) = true.
Proof.
  induction p as [|c p IH]; [now destruct s|].
  change (String.prefix (String c p) (String c (p +:+ s)) = true).
  simpl. destruct (Ascii.ascii_dec c c); [exact IH | contradiction].
Qed.

Lemma prefixed_insert (p s : string) (v : tval) (log : gmap string tval) :
  (forall k, is_Some (log !! k) -> String.prefix p k = true) ->
  forall k, is_Some (<[(p +:+ s)%string := v]> log !! k) ->
            String.prefix p k = true.
Proof.
  intros H k Hk. apply lookup_insert_is_Some in Hk as [<- | [_ Hk]].
  - apply prefix_append.
  - now apply H.
Qed.

Lemma predictor_branch_prefixed (gt : ground_truth) (enc : E) (p : string)
    (total total' : pyval) (log log' : gmap string tval) :
  (forall k, is_Some (log !! k) -> String.prefix p k = true) ->
  predictor_branch env self gt enc p total log = Ok (total', log') ->
  forall k, is_Some (log' !! k) -> String.prefix p k = true.
Proof.
  intros H Hr.
  apply predictor_branch_returns in Hr as (goal & score & ade & fde & _ & ->).
  now repeat apply prefixed_insert.
Qed.

Lemma dpr_denoiser_branch_prefixed (gt : ground_truth) (enc : E) (p : string)
    (total total' : pyval) (log log' : gmap string tval) (g g' : generator) :
  (forall k, is_Some (log !! k) -> String.prefix p k = true) ->
  DPR.denoiser_branch env self gt enc p total log g = Ok (total', log', g') ->
  forall k, is_Some (log' !! k) -> String.prefix p k = true.
Proof.
  intros H. unfold DPR.denoiser_branch. cbv zeta.
  unfold bind at 1.
  destruct (draw_diffusion_steps _ _ _ g) as [[st g1]|]; [|discriminate].
  unfold bind at 1.
  destruct (randn _ _ _ _ g1) as [[noise g2]|]; [|discriminate].
  unfold bind at 1.
  match goal with
  | |- context [match ?c g2 with _ => _ end] =>
      destruct (c g2) as [[noised g3]|]; [|discriminate]
  end.
  unfold bind, lift, ret.
  destruct (DPR.forward_denoiser env self enc noised st _) as [out|];
    [|discriminate].
  destruct (DPR.prediction_type_branch env self gt out noised noise st p
              total log) as [[t l]|] eqn:Hb; [|discriminate].
  destruct (calculate_metrics_denoise env _ _ _ _) as [[ade fde]|];
    [|discriminate].
  intros Hr. injection Hr as _ <- _.
  do 2 apply prefixed_insert.
  unfold DPR.prediction_type_branch in Hb.
  destruct (String.eqb (_prediction_type self) "sample").
  { destruct (Losses.denoise_loss _ _ _ _) as [state yaw].
    destruct (get_noise env _ _ _ _) as [d|]; [|discriminate].
    injection Hb as _ <-. now repeat apply prefixed_insert. }
  destruct (String.eqb (_prediction_type self) "error").
  { injection Hb as _ <-. now apply prefixed_insert. }
  destruct (String.eqb (_prediction_type self) "mean"); [|discriminate].
  injection Hb as _ <-. now apply prefixed_insert.
Qed.

Lemma grpo_denoiser_branch_prefixed (gt : ground_truth) (enc : E) (p : string)
    (total' : pyval) (log log' : gmap string tval) (g g' : generator) :
  (forall k, is_Some (log !! k) -> String.prefix p k = true) ->
  DPR_GRPO.denoiser_branch env self gt enc p log g = Ok (total', log', g') ->
  forall k, is_Some (log' !! k) -> String.prefix p k = true.
Proof.
  intros H. unfold DPR_GRPO.denoiser_branch. cbv zeta.
  unfold bind at 1.
  destruct (DPR_GRPO.sample_group env self gt enc g) as [[calls g1]|];
    [|discriminate].
  unfold bind, lift, ret.
  destruct (for_each calls _) as [outs|]; [|discriminate].
  destruct (compute_grpo_trajectory_reward env _ _) as [rewards|];
    [|discriminate].
  destruct (calculate_metrics_denoise_group env _ _ _ _) as [[ade fde]|];
    [|discriminate].
  intros Hr. injection Hr as _ <- _.
  now repeat apply prefixed_insert.
Qed.

Lemma empty_prefixed (p : string) :
  forall k, is_Some ((∅ : gmap string tval) !! k) -> String.prefix p k = true.
Proof. intros k [v Hv]. rewrite lookup_empty in Hv. discriminate. Qed.

Lemma dpr_loss_prefixed (b : batch) (p : string) (g g' : generator)
    (total : pyval) (log : gmap string tval) :
  DPR.forward_and_get_loss env self b p g = Ok (total, log, g') ->
  (forall k, is_Some (log !! k) -> String.prefix p k = true) /\
  exists t, total = PyTensor t /\ log !! (p +:+ "loss")%string = Some t.
Proof.
  unfold DPR.forward_and_get_loss. unfold bind at 1, lift at 1.
  destruct (prepare_ground_truth env self b) as [gt|]; [|discriminate].
  unfold bind at 1, lift at 1.
  destruct (encoder env b) as [enc|]; [|discriminate].
  unfold bind at 1.
  match goal with
  | |- context [match ?c g with _ => _ end] =>
      destruct (c g) as [[[t1 l1] g1]|] eqn:Hd; [|discriminate]
  end.
  unfold bind at 1.
  match goal with
  | |- context [match ?c g1 with _ => _ end] =>
      destruct (c g1) as [[[t2 l2] g2]|] eqn:Hq; [|discriminate]
  end.
  unfold lift.
  destruct (finish p t2 l2) as [[t3 l3]|] eqn:Hf; [|discriminate].
  intros Hr. injection Hr as <- <- _.
  apply finish_returns in Hf as (-> & t & -> & ->).
  assert (H1 : forall k, is_Some (l1 !! k) -> String.prefix p k = true).
  { destruct (_train_denoiser self).
    - eapply dpr_denoiser_branch_prefixed; [apply empty_prefixed | exact Hd].
    - unfold ret in Hd. injection Hd as _ <- _. apply empty_prefixed. }
  assert (H2 : forall k, is_Some (l2 !! k) -> String.prefix p k = true).
  { destruct (_train_predictor self).
    - unfold lift in Hq.
      destruct (predictor_branch env self gt enc p t1 l1) as [[t' l']|] eqn:Hp;
        [|discriminate].
      injection Hq as _ <- _.
      eapply predictor_branch_prefixed; [exact H1 | exact Hp].
    - unfold ret in Hq. injection Hq as _ <- _. exact H1. }
  split; [now apply prefixed_insert|].
  exists t. split; [reflexivity | apply lookup_insert_eq].
Qed.

Lemma grpo_loss_prefixed (b : batch) (p : string) (g g' : generator)
    (total : pyval) (log : gmap string tval) :
  DPR_GRPO.forward_and_get_loss env self b p g = Ok (total, log, g') ->
  (forall k, is_Some (log !! k) -> String.prefix p k = true) /\
  exists t, total = PyTensor t /\ log !! (p +:+ "loss")%string = Some t.
Proof.
  unfold DPR_GRPO.forward_and_get_loss. unfold bind at 1, lift at 1.
  destruct (prepare_ground_truth env self b) as [gt|]; [|discriminate].
  unfold bind at 1, lift at 1.
  destruct (encoder env b) as [enc|]; [|discriminate].
  unfold bind at 1.
  match goal with
  | |- context [match ?c g with _ => _ end] =>
      destruct (c g) as [[[t1 l1] g1]|] eqn:Hd; [|discriminate]
  end.
  unfold bind at 1.
  match goal with
  | |- context [match ?c g1 with _ => _ end] =>
      destruct (c g1) as [[[t2 l2] g2]|] eqn:Hq; [|discriminate]
  end.
  unfold lift.
  destruct (finish p t2 l2) as [[t3 l3]|] eqn:Hf; [|discriminate].
  intros Hr. injection Hr as <- <- _.
  apply finish_returns in Hf as (-> & t & -> & ->).
  assert (H1 : forall k, is_Some (l1 !! k) -> String.prefix p k = true).
  { destruct (_train_denoiser self).
    - eapply grpo_denoiser_branch_prefixed; [apply empty_prefixed | exact Hd].
    - unfold ret in Hd. injection Hd as _ <- _. apply empty_prefixed. }
  assert (H2 : forall k, is_Some (l2 !! k) -> String.prefix p k = true).
  { destruct (_train_predictor self).
    - unfold lift in Hq.
      destruct (predictor_branch env self gt enc p t1 l1) as [[t' l']|] eqn:Hp;
        [|discriminate].
      injection Hq as _ <- _.
      eapply predictor_branch_prefixed; [exact H1 | exact Hp].
    - unfold ret in Hq. injection Hq as _ <- _. exact H1. }
  split; [now apply prefixed_insert|].
  exists t. split; [reflexivity | apply lookup_insert_eq].
Qed.

Lemma train_val_apart (k : string) :
  String.prefix "train/" k = true -> String.prefix "val/" k = false.
Proof.
  destruct k as [|c k]; [discriminate|]. cbn -[Ascii.ascii_dec].
  match goal with
  | |- context [Ascii.ascii_dec ?a c] =>
      destruct (Ascii.ascii_dec a c) as [<- | _]
  end; [reflexivity | discriminate].
Qed.

(** X29: in both classes every key a step logs starts with the step's
    prefix, so [training_step] and [validation_step] never write the same
    key; and whenever [validation_step] returns, the metric that the
    checkpoint callback of [train] monitors is logged and is the loss the
    step returns. *)
Theorem steps_log_under_their_prefix (b b' : batch) (g1 g1' g2 g2' : generator)
    (loss_t loss_v : pyval) (log_t log_v : gmap string tval) :
  (training_step env self b g1 = Ok (loss_t, log_t, g1') \/
   dpr_training_step env self b g1 = Ok (loss_t, log_t, g1')) ->
  (validation_step env self b' g2 = Ok (loss_v, log_v, g2') \/
   dpr_validation_step env self b' g2 = Ok (loss_v, log_v, g2')) ->
  (forall k, is_Some (log_t !! k) -> String.prefix "train/" k = true) /\
  (forall k, is_Some (log_v !! k) -> String.prefix "val/" k = true) /\
  (forall k, is_Some (log_t !! k) -> log_v !! k = None) /\
  exists t, loss_v = PyTensor t /\ log_v !! monitor = Some t.
Proof.
  intros Ht Hv.
  assert (Ht' : forall k, is_Some (log_t !! k) ->
                          String.prefix "train/" k = true).
  { destruct Ht as [Ht | Ht];
      [apply grpo_loss_prefixed in Ht | apply dpr_loss_prefixed in Ht];
      exact (proj1 Ht). }
  assert (Hv' : (forall k, is_Some (log_v !! k) ->
                           String.prefix "val/" k = true) /\
                exists t, loss_v = PyTensor t /\
                          log_v !! ("val/" +:+ "loss")%string = Some t).
  { destruct Hv as [Hv | Hv];
      [apply grpo_loss_prefixed in Hv | apply dpr_loss_prefixed in Hv];
      exact Hv. }
  destruct Hv' as [Hv1 Hv2].
  split; [exact Ht'|]. split; [exact Hv1|]. split; [|exact Hv2].
  intros k Hk. apply Ht', train_val_apart in Hk.
  destruct (log_v !! k) as [v|] eqn:Hvk; [|reflexivity].
  rewrite (Hv1 k) in Hk by (rewrite Hvk; eauto). discriminate.
Qed.

End LoggedKeys.

Lemma validation_step_example :
  exists total log g',
    Steps.validation_step Examples.env0
      (__init__ false MoreExamples.cfg_single) Examples.batch0 Examples.gen0 =
      Ok (total, log, g').
Proof.
  do 3 eexists.
  cbv -[Rplus Rmult Rminus Rdiv Ropp Rinv IZR INR exp ln insert empty
        map_insert gmap_empty Rabs sqrt atan sin cos PI Req_dec_T Rlt_dec
        Rle_dec tdiv].
  reflexivity.
Qed.

Lemma steps_log_under_their_prefix_witness :
  exists loss_v log_v g' t,
    Steps.validation_step Examples.env0
      (__init__ false MoreExamples.cfg_single) Examples.batch0 Examples.gen0 =
      Ok (loss_v, log_v, g') /\
    loss_v = PyTensor t /\ log_v !! Steps.monitor = Some t.
Proof.
  destruct grpo_loss_accounting_returns as (loss_t & log_t & g1' & Ht).
  destruct validation_step_example as (loss_v & log_v & g2' & Hv).
  destruct (steps_log_under_their_prefix Examples.env0
              (__init__ false MoreExamples.cfg_single) Examples.batch0
              Examples.batch0 Examples.gen0 g1' Examples.gen0 g2'
              loss_t loss_v log_t log_v (or_introl Ht) (or_introl Hv))
    as (_ & _ & _ & t & Hl & Hm).
  exists loss_v, log_v, g2', t. repeat split; assumption.
Defined.

(** ** The attention mask of the scene encoder *)

Section AttentionFacts.

Import Attention.








End AttentionFacts.
